(** * Scoped image extraction: the Daily Mail and Guardian scrapers

    A shallow embedding of [dailymail.py] and [guardian.py].  Python
    strings are modelled as [string], every character standing for a
    code point below 256; integers are [Z]; a function that can raise
    returns a [result].  The functions of [urllib], [html] and the
    [float] type are library code and enter as the fields of [PyLib]. *)

From Stdlib Require Import ZArith NArith Ascii String List Bool Lia.
From stdpp Require Import base option list strings gmap pretty.

Local Open Scope Z_scope.

(** * Python values and built-ins *)

Module Py.

(** Exceptions the modelled code can meet. *)
Inductive exn :=
  IndexError | ValueError | TypeError | KeyError | AssertionError.

Inductive result (A : Type) : Type :=
| Ok (a : A)
| Raise (e : exn).
Arguments Ok {A} a.
Arguments Raise {A} e.

#[export] Instance result_ret : MRet result := fun A a => Ok a.
#[export] Instance result_bind : MBind result := fun A B f m =>
  match m with Ok a => f a | Raise e => Raise e end.

#[export] Instance result_fmap : FMap result := fun A B f m =>
  match m with Ok a => Ok (f a) | Raise e => Raise e end.

Definition is_Ok {A} (m : result A) : Prop := exists a, m = Ok a.

(** A loop [for x in l: acc = f(acc, x)] whose body can raise. *)
Fixpoint foldM {A B} (f : B -> A -> result B) (acc : B) (l : list A)
    : result B :=
  match l with
  | [] => Ok acc
  | x :: l' => acc' ← f acc x; foldM f acc' l'
  end.

(** [try: m except ValueError: h] *)
Definition except_ValueError {A} (m : result A) (h : result A) : result A :=
  match m with
  | Raise ValueError => h
  | _ => m
  end.

(** ** Characters *)

(** [str.isspace] on one character (Py_UNICODE_ISSPACE below 256); the
    same class is the regular expressions' [\s]. *)
Definition isspace (c : ascii) : bool :=
  let n := N_of_ascii c in
  (((9 <=? n) && (n <=? 13)) || ((28 <=? n) && (n <=? 32))
   || (n =? 133) || (n =? 160))%N.

(** Decimal digits, the regular expressions' [\d] below 256. *)
Definition isdigit (c : ascii) : bool :=
  let n := N_of_ascii c in ((48 <=? n) && (n <=? 57))%N.

Definition digit_value (c : ascii) : Z := Z.of_N (N_of_ascii c) - 48.

(** [str.lower] on one character. *)
Definition lower_char (c : ascii) : ascii :=
  let n := N_of_ascii c in
  if (((65 <=? n) && (n <=? 90))
      || ((192 <=? n) && (n <=? 222) && negb (n =? 215)))%N
  then ascii_of_N (n + 32) else c.

Definition quote_dbl : ascii := ascii_of_N 34.
Definition quote_sgl : ascii := ascii_of_N 39.
Definition isquote (c : ascii) : bool :=
  Ascii.eqb c quote_dbl || Ascii.eqb c quote_sgl.

(** ** Strings *)

Definition len (s : string) : Z := Z.of_nat (String.length s).

Fixpoint lower (s : string) : string :=
  match s with
  | EmptyString => EmptyString
  | String c s' => String (lower_char c) (lower s')
  end.

Fixpoint lstrip (s : string) : string :=
  match s with
  | EmptyString => EmptyString
  | String c s' => if isspace c then lstrip s' else s
  end.

Fixpoint rstrip (s : string) : string :=
  match s with
  | EmptyString => EmptyString
  | String c s' =>
      match rstrip s' with
      | EmptyString => if isspace c then EmptyString else String c EmptyString
      | r => String c r
      end
  end.

(** [s.strip()] *)
Definition strip (s : string) : string := rstrip (lstrip s).

(** [s.startswith(p)] *)
Fixpoint startswith (s p : string) {struct p} : bool :=
  match p, s with
  | EmptyString, _ => true
  | String a p', String b s' => Ascii.eqb a b && startswith s' p'
  | String _ _, EmptyString => false
  end.

(** The rest of [s] after the prefix [p], when [s] starts with it. *)
Fixpoint after_prefix (s p : string) {struct p} : option string :=
  match p, s with
  | EmptyString, _ => Some s
  | String a p', String b s' =>
      if Ascii.eqb a b then after_prefix s' p' else None
  | String _ _, EmptyString => None
  end.

(** [p in s] *)
Fixpoint contains (s p : string) : bool :=
  startswith s p ||
  match s with
  | EmptyString => false
  | String _ s' => contains s' p
  end.

(** [s.endswith(p)] *)
Definition endswith (s p : string) : bool :=
  startswith (String.rev s) (String.rev p).

(** [s[:-1]] *)
Fixpoint drop_last (s : string) : string :=
  match s with
  | EmptyString => EmptyString
  | String _ EmptyString => EmptyString
  | String c s' => String c (drop_last s')
  end.

(** [s.split(sep)] for a one-character separator: never empty. *)
Fixpoint split_on (sep : ascii) (s : string) : list string :=
  match s with
  | EmptyString => [EmptyString]
  | String c s' =>
      if Ascii.eqb c sep then EmptyString :: split_on sep s'
      else match split_on sep s' with
           | w :: ws => String c w :: ws
           | [] => [String c EmptyString]
           end
  end.

(** [s.split()]: the maximal runs of non-space characters.  [cur] is the
    run being read, last character first. *)
Fixpoint split_go (cur : string) (s : string) : list string :=
  match s with
  | EmptyString =>
      match cur with EmptyString => [] | _ => [String.rev cur] end
  | String c s' =>
      if isspace c then
        match cur with
        | EmptyString => split_go EmptyString s'
        | _ => String.rev cur :: split_go EmptyString s'
        end
      else split_go (String c cur) s'
  end.
Definition split (s : string) : list string := split_go EmptyString s.

(** ** [int(s)] in base ten

    [int] skips, around the number, the white space of C and the
    spaces above code point 127, which is less than [str.isspace]
    takes: the separators 28 to 31 are not skipped.  It refuses a text
    of more than [max_str_digits] digits, the limit of the interpreter
    as it is delivered; underscores and the sign do not count. *)

Definition int_space (c : ascii) : bool :=
  let n := N_of_ascii c in
  (((9 <=? n) && (n <=? 13)) || (n =? 32) || (n =? 133) || (n =? 160))%N.

Fixpoint int_lstrip (s : string) : string :=
  match s with
  | EmptyString => EmptyString
  | String c s' => if int_space c then int_lstrip s' else s
  end.

Fixpoint int_rstrip (s : string) : string :=
  match s with
  | EmptyString => EmptyString
  | String c s' =>
      match int_rstrip s' with
      | EmptyString =>
          if int_space c then EmptyString else String c EmptyString
      | r => String c r
      end
  end.

(** Digits with single underscores between them; [seen] says that the
    previous character was a digit. *)
Fixpoint int_digits (acc : Z) (seen : bool) (s : string) : option Z :=
  match s with
  | EmptyString => if seen then Some acc else None
  | String c s' =>
      if isdigit c then int_digits (10 * acc + digit_value c) true s'
      else if Ascii.eqb c "_" then
        if seen then int_digits acc false s' else None
      else None
  end.

Fixpoint count_digits (s : string) : N :=
  match s with
  | EmptyString => 0%N
  | String c s' => ((if isdigit c then 1 else 0) + count_digits s')%N
  end.

(** [sys.int_info.default_max_str_digits] *)
Definition max_str_digits : N := 4300%N.

Definition py_int (s : string) : result Z :=
  let t := int_rstrip (int_lstrip s) in
  let signed :=
    match t with
    | String "-" r => (true, r)
    | String "+" r => (false, r)
    | r => (false, r)
    end in
  match int_digits 0 false signed.2 with
  | Some n =>
      if (max_str_digits <? count_digits signed.2)%N then Raise ValueError
      else Ok (if signed.1 then - n else n)
  | None => Raise ValueError
  end.

(** The value of a string of decimal digits.  It is what [int] returns
    for a regular-expression group of at most [max_str_digits]
    digits; the groups of [SIZE_IN_NAME_RE] have three to five. *)
Definition int_of_digits (s : string) : Z :=
  fold_left (fun acc c => 10 * acc + digit_value c) (list_ascii_of_string s) 0.

(** ** Lists *)

(** [l[0]] *)
Definition index0 {A} (l : list A) : result A :=
  match l with
  | x :: _ => Ok x
  | [] => Raise IndexError
  end.

(** [l.pop()]: the list without its last element. *)
Definition pop {A} (l : list A) : result (list A) :=
  match last l with
  | Some _ => Ok (removelast l)
  | None => Raise IndexError
  end.

(** [max(l, key=key)]: the running maximum is replaced only by an item
    whose key is strictly greater, so the first maximal item wins. *)
Fixpoint max_from {A K} (gt : K -> K -> bool) (key : A -> K)
    (best : A) (l : list A) : A :=
  match l with
  | [] => best
  | x :: l' =>
      if gt (key x) (key best) then max_from gt key x l'
      else max_from gt key best l'
  end.

Definition max_key {A K} (gt : K -> K -> bool) (key : A -> K)
    (l : list A) : result A :=
  match l with
  | [] => Raise ValueError
  | x :: l' => Ok (max_from gt key x l')
  end.

(** The first item for which [f] finds something, in a loop whose body
    can raise. *)
Fixpoint first_ofM {A B} (f : A -> result (option B)) (l : list A)
    : result (option B) :=
  match l with
  | [] => Ok None
  | x :: l' =>
      r ← f x;
      match r with
      | Some y => Ok (Some y)
      | None => first_ofM f l'
      end
  end.

(** Truth value of a list. *)
Definition nonnil {A} (l : list A) : bool :=
  match l with [] => false | _ => true end.

(** ** Dictionaries *)

(** [dict(pairs)]: a later pair overrides an earlier one. *)
Definition dict {V} (pairs : list (string * V)) : gmap string V :=
  list_to_map (reverse pairs).

(** [d.get(key)] on the attributes of a tag. *)
Definition get (d : gmap string (option string)) (key : string)
    : option string :=
  mjoin (d !! key).

(** Truth value of a string that may be [None]. *)
Definition truthy (v : option string) : bool :=
  match v with
  | Some (String _ _) => true
  | _ => false
  end.

(** [v or ''] and [d[key]] for a value found truthy. *)
Definition or_empty (v : option string) : string := default EmptyString v.

Definition nonempty (s : string) : bool :=
  match s with EmptyString => false | _ => true end.

(** [os.path.basename] *)
Fixpoint basename (p : string) : string :=
  match p with
  | EmptyString => EmptyString
  | String _ p' => if contains p "/" then basename p' else p
  end.

End Py.

(** * Library functions taken as given *)

Module Lib.
Import Py.

(** What [urllib.parse.urlparse] returns. *)
Record parsed := Parsed {
  scheme : string;
  netloc : string;
  path : string;
  params : string;
  query : string;
  fragment : string;
}.

(** [parsed._replace(query=q)] *)
Definition replace_query (p : parsed) (q : string) : parsed :=
  Parsed (scheme p) (netloc p) (path p) (params p) q (fragment p).

(** An HTML token as [HTMLParser.feed] hands it to the handlers: a start
    tag with its attributes (a value is [None] for an attribute written
    without one), an end tag, or text. *)
Inductive event :=
| StartTag (tag : string) (attrs : list (string * option string))
| EndTag (tag : string)
| Data (data : string).

(** The library code the two scripts call.  [float_of_str],
    [urlparse] and [urljoin] return [None] where Python raises
    [ValueError]: a text that is no number, an address with a
    malformed host such as [http://[].  [float_gt a b] is Python's
    [a > b] on floats.  A value list of [parse_qs] is never empty: it
    is given as its first element and the rest.
    The tokenizer of [HTMLParser] is library code as well: the parsers
    are run on the tokens of a page. *)
Class PyLib := {
  float : Type;
  float_gt : float -> float -> bool;
  float_of_str : string -> option float;
  urljoin : string -> string -> option string;
  urlparse : string -> option parsed;
  urlunparse : parsed -> string;
  parse_qs : string -> list (string * (string * list string));
  urlencode : list (string * string) -> string;
  html_unescape : string -> string;
}.

(** [urllib.parse.urljoin(base, url)], which no caller guards. *)
Definition py_urljoin `{PyLib} (base url : string) : result string :=
  match urljoin base url with
  | Some r => Ok r
  | None => Raise ValueError
  end.

(** The network and the disk: [download url path w] is [None] when the
    image was fetched and written to [path], or the message of the
    exception raised. *)
Class PyIO := {
  world : Type;
  download : string -> string -> world -> option string * world;
}.

(** What a run has done so far: the outside world and the lines printed. *)
Record io_state `{PyIO} := IOState {
  the_world : world;
  stdout : list string;
}.
Arguments IOState {_} _ _.

(** A computation that reads and changes the [io_state] and may raise. *)
Definition IO `{PyIO} (A : Type) : Type := io_state -> result A * io_state.

#[export] Instance IO_ret `{PyIO} : MRet IO := fun A a s => (Ok a, s).
#[export] Instance IO_bind `{PyIO} : MBind IO := fun A B f m s =>
  match m s with
  | (Ok a, s') => f a s'
  | (Raise e, s') => (Raise e, s')
  end.

(** [print(line)] *)
Definition print `{PyIO} (line : string) : IO unit :=
  fun s => (Ok tt, IOState (the_world s) (stdout s ++ [line])).

(** A pure computation that may raise, inside [IO]. *)
Definition lift `{PyIO} {A} (m : result A) : IO A := fun s => (m, s).

(** The guarded download: [None] when it completed, the exception's
    message when it raised. *)
Definition try_download `{PyIO} (url dest : string) : IO (option string) :=
  fun s =>
    let '(r, w') := download url dest (the_world s) in
    (Ok r, IOState w' (stdout s)).

(** What [HTMLParser.feed] makes of a text: the tokens it hands to the
    handlers, in order, and whether it then raises [AssertionError] at
    a construct it cannot read (a marked section with an unknown
    keyword), the handlers having run on the tokens before it. *)
Record html := Html {
  tokens : list event;
  broken : bool;
}.

(** [parser.feed(text)], where [run] is the work of the handlers on
    the tokens. *)
Definition feed_html {S} (run : list event -> result S) (page : html)
    : result S :=
  st ← run (tokens page);
  if broken page then Raise AssertionError else Ok st.

(** The pages of the network.  [fetch url w] is what a script gets for
    the page at [url]: its text as the tokenizer reads it, or the
    message of the exception [urlopen] raised.  [str_of_exn e] is the
    text [print] shows for an exception of the parser. *)
Class PyWeb `{PyIO} := {
  fetch : string -> world -> (html + string) * world;
  str_of_exn : exn -> string;
}.

(** The guarded fetch: the page, or the exception's message. *)
Definition try_fetch `{PyWeb} (url : string) : IO (html + string) :=
  fun s =>
    let '(r, w') := fetch url (the_world s) in
    (Ok r, IOState w' (stdout s)).

(** The line feed that starts some of the printed lines. *)
Definition nl : string := String (ascii_of_N 10) EmptyString.

(** [os.path.join(outdir, name)] for a relative [name]. *)
Definition path_join (outdir name : string) : string :=
  if endswith outdir "/" || negb (nonempty outdir) then outdir +:+ name
  else outdir +:+ "/" +:+ name.

End Lib.

(** * The regular expressions of the two scripts *)

Module Re.
Import Py.

(** The longest prefix of characters satisfying [p], and the rest. *)
Fixpoint span (p : ascii -> bool) (s : string) : string * string :=
  match s with
  | EmptyString => (EmptyString, EmptyString)
  | String c s' =>
      if p c then let '(a, b) := span p s' in (String c a, b)
      else (EmptyString, s)
  end.

(** The first [k] characters when they are all digits, and the rest. *)
Fixpoint digits_exact (k : nat) (s : string) : option (string * string) :=
  match k with
  | O => Some (EmptyString, s)
  | S k' =>
      match s with
      | String c s' =>
          if isdigit c then
            '(d, r) ← digits_exact k' s'; Some (String c d, r)
          else None
      | EmptyString => None
      end
  end.

(** The first alternative that matches. *)
Fixpoint first_of {A B} (f : A -> option B) (l : list A) : option B :=
  match l with
  | [] => None
  | x :: l' => match f x with Some y => Some y | None => first_of f l' end
  end.

Definition next_is (p : ascii -> bool) (s : string) : bool :=
  match s with
  | String c _ => p c
  | EmptyString => false
  end.

Definition is_x (c : ascii) : bool := Ascii.eqb c "x" || Ascii.eqb c "X".

(** [(\d{3,5})[xX](\d{3,5})(?!\d)] at the start of [s]: a greedy count
    tries five digits, then four, then three. *)
Definition size_at (s : string) : option (string * string) :=
  first_of (fun k =>
    match digits_exact k s with
    | Some (w, String c r) =>
        if is_x c then
          first_of (fun m =>
            match digits_exact m r with
            | Some (h, r') => if next_is isdigit r' then None else Some (w, h)
            | None => None
            end) [5; 4; 3]%nat
        else None
    | _ => None
    end) [5; 4; 3]%nat.

(** [SIZE_IN_NAME_RE.search]: the leftmost position not preceded by a
    digit ([(?<!\d)]) where [size_at] matches; [prev] says that the
    previous character is a digit. *)
Fixpoint size_search_from (prev : bool) (s : string)
    : option (string * string) :=
  match (if prev then None else size_at s) with
  | Some m => Some m
  | None =>
      match s with
      | EmptyString => None
      | String c s' => size_search_from (isdigit c) s'
      end
  end.
Definition SIZE_IN_NAME_RE_search (u : string) : option (string * string) :=
  size_search_from false u.

(** [s] starts with [p] when case is ignored ([p] in lower case): the
    matched text and the rest. *)
Fixpoint ci_prefix (s p : string) {struct p}
    : option (string * string) :=
  match p, s with
  | EmptyString, _ => Some (EmptyString, s)
  | String a p', String b s' =>
      if Ascii.eqb a (lower_char b) then
        '(m, r) ← ci_prefix s' p'; Some (String b m, r)
      else None
  | String _ _, EmptyString => None
  end.

(** [$] without MULTILINE: the end, or just before a final newline. *)
Definition at_dollar (s : string) : bool :=
  match s with
  | EmptyString => true
  | String c EmptyString => Ascii.eqb c (ascii_of_N 10)
  | _ => false
  end.

(** [\.(jpg|jpeg|png|webp)(?:$|\?)] at the start of [s], case ignored:
    group 1. *)
Definition ext_at (s : string) : option string :=
  match s with
  | String "." r =>
      first_of (fun alt =>
        match ci_prefix r alt with
        | Some (m, r') =>
            if at_dollar r' || next_is (Ascii.eqb "?") r' then Some m
            else None
        | None => None
        end) ["jpg"; "jpeg"; "png"; "webp"]
  | _ => None
  end.

(** [IMG_EXT_RE.search]: group 1 of the leftmost match. *)
Fixpoint IMG_EXT_RE_search (name : string) : option string :=
  match ext_at name with
  | Some g => Some g
  | None =>
      match name with
      | EmptyString => None
      | String _ s' => IMG_EXT_RE_search s'
      end
  end.

(** [SRCSET_SPLIT.split] for [\s*,\s*].  While a piece is read, [piece]
    holds its characters and [ws] the white space seen since, both last
    character first: white space before a comma belongs to the
    separator, before anything else to the piece.  After a comma
    ([sep = true]) white space is skipped. *)
Fixpoint srcset_split_go (sep : bool) (piece ws : string) (s : string)
    : list string :=
  match s with
  | EmptyString => [String.rev (ws +:+ piece)]
  | String c s' =>
      if Ascii.eqb c "," then
        String.rev piece :: srcset_split_go true EmptyString EmptyString s'
      else if isspace c then
        if sep then srcset_split_go true EmptyString EmptyString s'
        else srcset_split_go false piece (String c ws) s'
      else srcset_split_go false (String c (ws +:+ piece)) EmptyString s'
  end.
Definition SRCSET_SPLIT_split (s : string) : list string :=
  srcset_split_go false EmptyString EmptyString s.

(** [CANDIDATE.match] for [^\s*(\S+)\s+(\d+)(w|x)?\s*$]: groups 1, 2
    and 3.  Every greedy run is followed by a character outside its
    class, so no shorter run can match. *)
Definition CANDIDATE_match (part : string)
    : option (string * string * option ascii) :=
  let '(u, s2) := span (fun c => negb (isspace c)) (lstrip part) in
  let '(ws, s3) := span isspace s2 in
  let '(d, s4) := span isdigit s3 in
  let '(unit, s5) :=
    match s4 with
    | String c r =>
        if Ascii.eqb c "w" || Ascii.eqb c "x" then (Some c, r) else (None, s4)
    | EmptyString => (None, s4)
    end in
  if nonempty u && nonempty ws && nonempty d && negb (nonempty (lstrip s5))
  then Some (u, d, unit) else None.

(** The string without its last character, and that character. *)
Fixpoint unsnoc (s : string) : option (string * ascii) :=
  match s with
  | EmptyString => None
  | String c EmptyString => Some (EmptyString, c)
  | String c s' => '(a, l) ← unsnoc s'; Some (String c a, l)
  end.

(** [url\((Q?)(https?://i\.guim\.co\.uk/[^)]+)\1\)] at the start of
    [s], where [Q] stands for the class of the two quote characters:
    group 2.  The run [[^)]+] stops at the first closing bracket; with
    an opening quote the same quote has to end the run. *)
Definition style_at (s : string) : option string :=
  r ← after_prefix s "url(";
  let '(q, r1) :=
    match r with
    | String c r' => if isquote c then (Some c, r') else (None, r)
    | EmptyString => (None, r)
    end in
  r2 ← after_prefix r1 "http";
  let '(sch, r3) :=
    match r2 with
    | String "s" r' => ("https", r')
    | _ => ("http", r2)
    end in
  r4 ← after_prefix r3 "://i.guim.co.uk/";
  let '(run, r5) := span (fun c => negb (Ascii.eqb c ")")) r4 in
  if next_is (Ascii.eqb ")") r5 then
    match q with
    | None =>
        if nonempty run then Some (sch +:+ "://i.guim.co.uk/" +:+ run)
        else None
    | Some qc =>
        '(g, l) ← unsnoc run;
        if Ascii.eqb l qc && nonempty g
        then Some (sch +:+ "://i.guim.co.uk/" +:+ g) else None
    end
  else None.

(** [re.search] of the style pattern: group 2 of the leftmost match. *)
Fixpoint style_search (s : string) : option string :=
  match style_at s with
  | Some g => Some g
  | None =>
      match s with
      | EmptyString => None
      | String _ s' => style_search s'
      end
  end.

(** [src=Q([^Q]+)Q] at the start of [s], case ignored, where [Q] stands
    for the class of the two quote characters: group 1 and the length
    of the match. *)
Definition src_at (s : string) : option (string * nat) :=
  '(_, r) ← ci_prefix s "src=";
  match r with
  | String q r1 =>
      if isquote q then
        let '(g, r2) := span (fun c => negb (isquote c)) r1 in
        if nonempty g && next_is isquote r2
        then Some (g, (String.length g + 6)%nat) else None
      else None
  | EmptyString => None
  end.

(** The match of [src_at] at the largest offset up to [n], as the
    backtracking of a greedy [[^>]+] finds it: group 1 and the length
    from [s] to the end of the match. *)
Fixpoint src_latest (n : nat) (s : string) : option (string * nat) :=
  match n, s with
  | S n', String _ s' =>
      match src_latest n' s' with
      | Some (g, k) => Some (g, S k)
      | None => src_at s
      end
  | _, _ => src_at s
  end.

(** [<img[^>]+src=Q([^Q]+)Q] at the start of [s], case ignored: group 1
    and the length of the match. *)
Definition img_at (s : string) : option (string * nat) :=
  '(_, r) ← ci_prefix s "<img";
  let '(run, _) := span (fun c => negb (Ascii.eqb c ">")) r in
  match r, String.length run with
  | String _ r', S n => '(g, k) ← src_latest n r'; Some (g, (k + 5)%nat)
  | _, _ => None
  end.

(** [re.finditer] of the image pattern: group 1 of each match, left to
    right, a match starting where the previous one ended; [skip] counts
    the characters of the last match still to pass. *)
Fixpoint img_finditer (skip : nat) (s : string) : list string :=
  match skip with
  | S k =>
      match s with
      | EmptyString => []
      | String _ s' => img_finditer k s'
      end
  | O =>
      match img_at s, s with
      | Some (g, n), String _ s' => g :: img_finditer (Nat.pred n) s'
      | _, String _ s' => img_finditer O s'
      | _, EmptyString => []
      end
  end.

End Re.

(** * dailymail.py *)

Module DailyMail.
Import Py Lib Re.

Section Pipeline.
Context `{PyLib}.

(** A candidate [(url, width, density)]. *)
Definition candidate : Type := string * option Z * option float.
Definition url (c : candidate) : string := c.1.1.
Definition width (c : candidate) : option Z := c.1.2.
Definition density (c : candidate) : option float := c.2.

Definition py_float (s : string) : result float :=
  match float_of_str s with
  | Some d => Ok d
  | None => Raise ValueError
  end.

(** The hints of a token split into [bits]: lines 46 to 59. *)
Definition descriptor (bits : list string)
    : result (option Z * option float) :=
  match bits with
  | _ :: b1 :: _ =>
      let desc := lower b1 in
      if endswith desc "w" then
        w ← except_ValueError (Some <$> py_int (drop_last desc)) (Ok None);
        Ok (w, None)
      else if endswith desc "x" then
        d ← except_ValueError (Some <$> py_float (drop_last desc)) (Ok None);
        Ok (None, d)
      else Ok (None, None)
  | _ => Ok (None, None)
  end.

(** The body of the loop over the parts: [out] after one part. *)
Definition parse_part (out : list candidate) (part : string)
    : result (list candidate) :=
  let token := strip part in
  if nonempty token then
    let bits := split token in
    u ← index0 bits;
    '(w, d) ← descriptor bits;
    Ok (out ++ [(u, w, d)])
  else Ok out.

Definition _parse_srcset (srcset : string) : result (list candidate) :=
  if nonempty srcset then foldM parse_part [] (split_on "," srcset)
  else Ok [].

(** The two groups have three to five digits each, which [int] always
    converts. *)
Definition _score_url (u : string) : Z :=
  match SIZE_IN_NAME_RE_search u with
  | Some (w, h) => int_of_digits w * int_of_digits h
  | None => len u
  end.

(** The candidates that carry a hint, each with its value. *)
Fixpoint with_hint {A} (hint : candidate -> option A)
    (candidates : list candidate) : list (candidate * A) :=
  match candidates with
  | [] => []
  | c :: rest =>
      match hint c with
      | Some a => (c, a) :: with_hint hint rest
      | None => with_hint hint rest
      end
  end.

Definition _pick_largest (candidates : list candidate) (base_url : string)
    : result (option string) :=
  if nonnil candidates then
    let with_w := with_hint width candidates in
    if nonnil with_w then
      c ← max_key Z.gtb snd with_w;
      Some <$> py_urljoin base_url (url c.1)
    else
      let with_x := with_hint density candidates in
      if nonnil with_x then
        c ← max_key float_gt snd with_x;
        Some <$> py_urljoin base_url (url c.1)
      else
        u ← max_key Z.gtb _score_url (map url candidates);
        Some <$> py_urljoin base_url u
  else Ok None.

Definition _ext_from_url (u : string) : result string :=
  match urlparse u with
  | None => Raise ValueError
  | Some p =>
      let name := basename (path p) in
      match (if nonempty name then IMG_EXT_RE_search name else None) with
      | Some g =>
          let ext := lower g in
          let ext := if String.eqb ext "jpeg" then "jpg" else ext in
          Ok ("." +:+ ext)
      | None => Ok ".jpg"
      end
  end.

(** The fields of [DMImageWrapParser] that change while it runs. *)
Record state := State {
  imgs : list string;
  stack_in_wrap : list bool;
  stack_in_picture : list bool;
  current_picture_srcsets : list candidate;
}.

Definition init : state := State [] [] [] [].

(** [stack[-1] if stack else False] *)
Definition top (stack : list bool) : bool := default false (last stack).

(** The candidates an [img] tag gathers: lines 136 to 149. *)
Definition img_candidates (st : state) (a : gmap string (option string))
    : result (list candidate) :=
  let c0 :=
    if nonnil (stack_in_picture st) && nonnil (current_picture_srcsets st)
    then current_picture_srcsets st else [] in
  c1 ← foldM (fun cands key =>
          if truthy (get a key) then
            more ← _parse_srcset (or_empty (get a key)); Ok (cands ++ more)
          else Ok cands) c0 ["srcset"; "data-srcset"];
  Ok (fold_left (fun cands key =>
          if truthy (get a key)
          then cands ++ [(or_empty (get a key), None, None)]
          else cands) ["data-src"; "data-original"; "data-image"; "src"] c1).

Definition handle_starttag (base_url : string) (st : state) (tag : string)
    (attrs : list (string * option string)) : result state :=
  let tl := lower tag in
  let a := dict attrs in
  if String.eqb tl "div" then
    let cls := or_empty (default (Some EmptyString) (a !! "class")) in
    let classes := split cls in
    let in_wrap := bool_decide ("image-wrap" ∈ classes) in
    Ok (State (imgs st)
          (stack_in_wrap st ++ [in_wrap || top (stack_in_wrap st)])
          (stack_in_picture st) (current_picture_srcsets st))
  else if String.eqb tl "picture" then
    Ok (State (imgs st) (stack_in_wrap st) (stack_in_picture st ++ [true]) [])
  else if String.eqb tl "source" && top (stack_in_picture st) then
    let ss := if truthy (get a "srcset") then get a "srcset"
              else get a "data-srcset" in
    if truthy ss then
      more ← _parse_srcset (or_empty ss);
      Ok (State (imgs st) (stack_in_wrap st) (stack_in_picture st)
            (current_picture_srcsets st ++ more))
    else Ok st
  else if String.eqb tl "img" then
    if top (stack_in_wrap st) then
      candidates ← img_candidates st a;
      if nonnil candidates then
        best ← _pick_largest candidates base_url;
        if truthy best then
          Ok (State (imgs st ++ [or_empty best]) (stack_in_wrap st)
                (stack_in_picture st) (current_picture_srcsets st))
        else Ok st
      else Ok st
    else Ok st
  else Ok st.

Definition handle_endtag (st : state) (tag : string) : result state :=
  let tl := lower tag in
  if String.eqb tl "div" then
    if nonnil (stack_in_wrap st) then
      s ← pop (stack_in_wrap st);
      Ok (State (imgs st) s (stack_in_picture st)
            (current_picture_srcsets st))
    else Ok st
  else if String.eqb tl "picture" then
    s ← (if nonnil (stack_in_picture st) then pop (stack_in_picture st)
         else Ok (stack_in_picture st));
    Ok (State (imgs st) (stack_in_wrap st) s [])
  else Ok st.

(** One handler call. *)
Definition step (base_url : string) (st : state) (e : event)
    : result state :=
  match e with
  | StartTag tag attrs => handle_starttag base_url st tag attrs
  | EndTag tag => handle_endtag st tag
  | Data _ => Ok st
  end.

(** [parser.feed], on the tokens of the page. *)
Definition feed (base_url : string) (st : state) (events : list event)
    : result state :=
  foldM (step base_url) st events.

(** The loop that removes repeated addresses: lines 180 to 186. *)
Definition dedup (urls : list string) : list string :=
  (fold_left (fun '(seen, out) u =>
     if bool_decide (u ∈ (seen : gset string)) then (seen, out)
     else ({[u]} ∪ seen, out ++ [u])) urls (∅, [])).2.

(** [extract_image_urls] on the tokens of the fetched page. *)
Definition extract_image_urls (base_url : string) (page : list event)
    : result (list string) :=
  st ← feed base_url init page;
  Ok (dedup (imgs st)).

End Pipeline.

Section Downloads.
Context `{PyLib} `{PyIO}.

(** The body of the loop of [download_images_sequential]: [saved] and
    [idx] after the address [u]. *)
Definition download_one (outdir : string) (acc : list string * Z)
    (u : string) : IO (list string * Z) :=
  let '(saved, idx) := acc in
  ext ← lift (_ext_from_url u);
  let fname := "dailymail_" +:+ pretty idx +:+ ext in
  let full := path_join outdir fname in
  r ← try_download u full;
  match r with
  | None => mret (saved ++ [fname], idx + 1)
  | Some e =>
      _ ← print ("[warn] failed " +:+ u +:+ ": " +:+ e);
      mret (saved, idx)
  end.

Fixpoint download_loop (outdir : string) (acc : list string * Z)
    (urls : list string) : IO (list string * Z) :=
  match urls with
  | [] => mret acc
  | u :: rest => acc' ← download_one outdir acc u; download_loop outdir acc' rest
  end.

Definition download_images_sequential (urls : list string)
    (outdir : string) (start_index : Z) : IO (list string * Z) :=
  download_loop outdir ([], start_index) urls.

(** The row [main] appends for a page: [[u, len(saved), *saved]]. *)
Definition row (u : string) (saved : list string)
    : string * Z * list string :=
  (u, Z.of_nat (length saved), saved).

End Downloads.

Section Main.
Context `{PyLib} `{PyIO} `{!PyWeb}.

(** Line 209 of [main]: the addresses in the lines of the URL file. *)
Definition read_urls (lines : list string) : list string :=
  map strip
    (List.filter (fun line =>
       nonempty (strip line) && negb (startswith (strip line) "#")) lines).

(** [extract_image_urls] on a fetched page. *)
Definition extract_page (base_url : string) (page : html)
    : result (list string) :=
  feed_html (extract_image_urls base_url) page.

(** Lines 217 to 221: the images of the page at [u], none when the
    fetch or the parser raised. *)
Definition try_extract (u : string) : IO (list string) :=
  r ← try_fetch u;
  match r with
  | inl page =>
      match extract_page u page with
      | Ok img_urls => mret img_urls
      | Raise e =>
          _ ← print ("[error] " +:+ u +:+ ": " +:+ str_of_exn e); mret []
      end
  | inr e => _ ← print ("[error] " +:+ u +:+ ": " +:+ e); mret []
  end.

(** The body of the loop of [main], lines 215 to 228: [rows],
    [max_imgs_any] and [global_index] after the page at [u]. *)
Definition main_page (outdir : string)
    (acc : list (string * Z * list string) * Z * Z) (u : string)
    : IO (list (string * Z * list string) * Z * Z) :=
  _ ← print (nl +:+ "[fetch] " +:+ u);
  img_urls ← try_extract u;
  _ ← print ("[found] " +:+ pretty (Z.of_nat (length img_urls))
             +:+ " images in image-wrap");
  r ← download_images_sequential img_urls outdir acc.2;
  _ ← print ("[saved] " +:+ pretty (Z.of_nat (length r.1)) +:+ " images");
  mret (acc.1.1 ++ [row u r.1],
        Z.max acc.1.2 (Z.of_nat (length r.1)), r.2).

Fixpoint main_loop (outdir : string)
    (acc : list (string * Z * list string) * Z * Z) (urls : list string)
    : IO (list (string * Z * list string) * Z * Z) :=
  match urls with
  | [] => mret acc
  | u :: rest => acc' ← main_page outdir acc u; main_loop outdir acc' rest
  end.

(** Line 231: the first row of the log. *)
Definition header (max_imgs_any : Z) : list string :=
  ["URL"; "Number of Images"]
  ++ map (fun i => "Image " +:+ pretty i +:+ " Name") (seqZ 1 max_imgs_any).

(** Line 236: a row as it is written, the number as [csv] prints it:
    [r + [empty] * (2 + max_imgs_any - len(r))], where a count below
    one repeats nothing. *)
Definition padded (max_imgs_any : Z) (r : string * Z * list string)
    : list string :=
  let cells := r.1.1 :: pretty r.1.2 :: r.2 in
  cells ++ replicate (Z.to_nat (2 + max_imgs_any - Z.of_nat (length cells)))
             EmptyString.

(** [main] from line 208 on, for a URL file that exists and has the
    lines [lines]: the rows written to the log. *)
Definition main (outdir logcsv : string) (lines : list string)
    : IO (list (list string)) :=
  acc ← main_loop outdir ([], 0, 1) (read_urls lines);
  let log := header acc.1.2 :: map (padded acc.1.2) acc.1.1 in
  _ ← print (nl +:+ "[done] wrote log: " +:+ logcsv);
  mret log.

End Main.
End DailyMail.

(** * guardian.py *)

Module Guardian.
Import Py Lib Re.

Section Pipeline.
Context `{PyLib}.

(** The loop of [best_from_srcset] over the remaining parts: the
    number of a candidate is converted first, its address resolved
    only when the number beats the best so far. *)
Fixpoint best_loop (base_url : string) (parts : list string)
    (best_url : option string) (best_size : Z) : result (option string) :=
  match parts with
  | [] => Ok best_url
  | part :: rest =>
      match CANDIDATE_match part with
      | Some (u, d, _) =>
          size ← py_int d;
          if size >? best_size
          then best ← py_urljoin base_url u;
               best_loop base_url rest (Some best) size
          else best_loop base_url rest best_url best_size
      | None =>
          let p := strip part in
          if nonempty p then Some <$> py_urljoin base_url p
          else best_loop base_url rest best_url best_size
      end
  end.

Definition best_from_srcset (srcset : string) (base_url : string)
    : result (option string) :=
  if nonempty srcset
  then best_loop base_url (SRCSET_SPLIT_split (strip srcset)) None (-1)
  else Ok None.

(** The text from the last dot of [name] on, with what precedes it. *)
Fixpoint last_dot (name : string) : option (string * string) :=
  match name with
  | EmptyString => None
  | String c s' =>
      match last_dot s' with
      | Some (pre, ext) => Some (String c pre, ext)
      | None => if Ascii.eqb c "." then Some (EmptyString, name) else None
      end
  end.

Fixpoint all_dots (s : string) : bool :=
  match s with
  | EmptyString => true
  | String c s' => Ascii.eqb c "." && all_dots s'
  end.

(** [os.path.splitext(p)[1]]: the extension of the last component,
    leading dots of the component apart. *)
Definition splitext_ext (p : string) : string :=
  match last_dot (basename p) with
  | Some (pre, ext) => if all_dots pre then EmptyString else ext
  | None => EmptyString
  end.

Definition IMG_EXTS : list string := [".jpg"; ".jpeg"; ".png"; ".webp"; ".gif"].

Definition safe_ext (u : string) : result string :=
  match urlparse u with
  | None => Raise ValueError
  | Some p =>
      let ext := lower (splitext_ext (path p)) in
      Ok (if bool_decide (ext ∈ IMG_EXTS) then ext else ".jpg")
  end.

Definition keep_guardian_cdn (u : string) : bool :=
  match urlparse u with
  | Some p => endswith (lower (netloc p)) "i.guim.co.uk"
  | None => false
  end.

(** [q[key] = value] on a dictionary kept in insertion order. *)
Fixpoint dict_set {V} (q : list (string * V)) (key : string) (value : V)
    : list (string * V) :=
  match q with
  | [] => [(key, value)]
  | (k, v) :: q' =>
      if String.eqb k key then (k, value) :: q'
      else (k, v) :: dict_set q' key value
  end.

Definition upgrade_guardian_url (url : string) (width : Z) : result string :=
  if negb (contains url "i.guim.co.uk") then Ok url
  else
    match urlparse url with
    | None => Raise ValueError
    | Some parsed =>
        if contains (lower (query parsed)) "s=" then Ok url
        else
          let q := parse_qs (query parsed) in
          let q := dict_set q "width" (pretty width, []) in
          let q := dict_set q "dpr" ("2", []) in
          let firsts := map (fun '(k, v) => (k, v.1)) q in
          Ok (urlunparse (replace_query parsed (urlencode firsts)))
    end.

(** The fields of [GuardianParser] that change while it runs. *)
Record state := State {
  images : list string;
  _seen : gset string;
  in_main : Z;
  in_article : Z;
  in_lightbox : Z;
  in_figure : Z;
  in_picture : Z;
  in_noscript : Z;
  picture_best : option (string * Z);
}.

Definition init : state := State [] ∅ 0 0 0 0 0 0 None.

Definition set_images (st : state) (l : list string) (seen : gset string) :=
  State l seen (in_main st) (in_article st) (in_lightbox st) (in_figure st)
    (in_picture st) (in_noscript st) (picture_best st).
Definition set_in_main (st : state) (n : Z) :=
  State (images st) (_seen st) n (in_article st) (in_lightbox st)
    (in_figure st) (in_picture st) (in_noscript st) (picture_best st).
Definition set_in_article (st : state) (n : Z) :=
  State (images st) (_seen st) (in_main st) n (in_lightbox st)
    (in_figure st) (in_picture st) (in_noscript st) (picture_best st).
Definition set_in_lightbox (st : state) (n : Z) :=
  State (images st) (_seen st) (in_main st) (in_article st) n
    (in_figure st) (in_picture st) (in_noscript st) (picture_best st).
Definition set_in_figure (st : state) (n : Z) :=
  State (images st) (_seen st) (in_main st) (in_article st) (in_lightbox st)
    n (in_picture st) (in_noscript st) (picture_best st).
Definition set_in_picture (st : state) (n : Z) :=
  State (images st) (_seen st) (in_main st) (in_article st) (in_lightbox st)
    (in_figure st) n (in_noscript st) (picture_best st).
Definition set_in_noscript (st : state) (n : Z) :=
  State (images st) (_seen st) (in_main st) (in_article st) (in_lightbox st)
    (in_figure st) (in_picture st) n (picture_best st).
Definition set_picture_best (st : state) (b : option (string * Z)) :=
  State (images st) (_seen st) (in_main st) (in_article st) (in_lightbox st)
    (in_figure st) (in_picture st) (in_noscript st) b.

(** Truth value of a counter. *)
Definition on (n : Z) : bool := negb (n =? 0).

(** [self.in_figure or self.in_lightbox] *)
Definition in_scope (st : state) : bool :=
  on (in_figure st) || on (in_lightbox st).

Definition _consider (base : string) (st : state) (url : option string)
    : result state :=
  if truthy url then
    url ← py_urljoin base (or_empty url);
    if startswith url "http://" || startswith url "https://" then
      if keep_guardian_cdn url then
        url ← upgrade_guardian_url url 2000;
        if bool_decide (url ∈ _seen st) then Ok st
        else Ok (set_images st (images st ++ [url]) ({[url]} ∪ _seen st))
      else Ok st
    else Ok st
  else Ok st.

Definition _pick_from_attrs (base : string) (a : gmap string (option string))
    : result (option string * Z) :=
  r ← first_ofM (fun k =>
         if truthy (get a k) then
           u ← best_from_srcset (or_empty (get a k)) base;
           Ok (if truthy u then u else None)
         else Ok None) ["srcset"; "data-srcset"];
  match r with
  | Some u => Ok (Some u, 1)
  | None =>
      match first_of (fun k => if truthy (get a k) then get a k else None)
              ["src"; "data-src"] with
      | Some v => Ok (Some v, 0)
      | None => Ok (None, -1)
      end
  end.

Definition _commit_picture_best (base : string) (st : state) : result state :=
  match picture_best st with
  | Some (u, hint) =>
      st' ← _consider base st (Some u);
      Ok (set_picture_best st' None)
  | None => Ok st
  end.

(** Lines 141 to 156: the counters a start tag raises. *)
Definition open_regions (st : state) (tag : string)
    (a : gmap string (option string)) : state :=
  let st :=
    if String.eqb tag "main" then set_in_main st (in_main st + 1)
    else if String.eqb tag "article" && on (in_main st)
    then set_in_article st (in_article st + 1)
    else if String.eqb tag "div"
            && (bool_decide (get a "id" = Some "gu-lightbox")
                || bool_decide (get a "role" = Some "dialog"))
    then set_in_lightbox st (in_lightbox st + 1)
    else st in
  let st :=
    if String.eqb tag "figure" && (on (in_article st) || on (in_lightbox st))
    then set_in_figure st (in_figure st + 1) else st in
  let st :=
    if String.eqb tag "picture" && in_scope st
    then set_picture_best (set_in_picture st (in_picture st + 1)) None
    else st in
  if String.eqb tag "noscript" && in_scope st
  then set_in_noscript st (in_noscript st + 1) else st.

(** Lines 159 to 170: the state after the capture of an [img] or
    [source] tag, and whether the handler returned there. *)
Definition capture (base : string) (st : state) (tag : string)
    (a : gmap string (option string)) : result (state * bool) :=
  if in_scope st && bool_decide (tag ∈ ["img"; "source"]) then
    r ← _pick_from_attrs base a;
    let u := r.1 in
    if truthy u then
      if on (in_picture st) then
        let size_hint :=
          if bool_decide (is_Some (a !! "srcset"))
             || bool_decide (is_Some (a !! "data-srcset")) then 2 else 1 in
        match picture_best st with
        | Some (_, hint) =>
            if size_hint >? hint
            then Ok (set_picture_best st (Some (or_empty u, size_hint)), false)
            else Ok (st, false)
        | None => Ok (set_picture_best st (Some (or_empty u, size_hint)), false)
        end
      else st' ← _consider base st u; Ok (st', false)
    else Ok (st, true)
  else Ok (st, false).

(** Lines 173 to 176: a background image in an inline style. *)
Definition style_image (base : string) (st : state)
    (a : gmap string (option string)) : result state :=
  if in_scope st then
    match a !! "style" with
    | Some (Some style) =>
        match style_search style with
        | Some g => _consider base st (Some g)
        | None => Ok st
        end
    | Some None => Raise TypeError
    | None => Ok st
    end
  else Ok st.

Definition handle_starttag (base : string) (st : state) (tag : string)
    (attrs_list : list (string * option string)) : result state :=
  let a := dict attrs_list in
  let st := open_regions st tag a in
  r ← capture base st tag a;
  if (r.2 : bool) then Ok r.1 else style_image base r.1 a.

Definition handle_endtag (base : string) (st : state) (tag : string)
    : result state :=
  st ← (if String.eqb tag "picture" && on (in_picture st) then
          st' ← _commit_picture_best base st;
          Ok (set_in_picture st' (in_picture st' - 1))
        else Ok st);
  let st :=
    if String.eqb tag "noscript" && on (in_noscript st)
    then set_in_noscript st (in_noscript st - 1) else st in
  let st :=
    if String.eqb tag "figure" && on (in_figure st)
    then set_in_figure st (in_figure st - 1) else st in
  let st :=
    if String.eqb tag "article" && on (in_article st)
    then set_in_article st (in_article st - 1) else st in
  let st :=
    if String.eqb tag "main" && on (in_main st)
    then set_in_main st (in_main st - 1) else st in
  let st :=
    if String.eqb tag "div" && on (in_lightbox st)
    then set_in_lightbox st (in_lightbox st - 1) else st in
  Ok st.

Definition handle_data (base : string) (st : state) (data : string)
    : result state :=
  if in_scope st && on (in_noscript st) && nonempty (strip data) then
    let txt := html_unescape data in
    foldM (fun st g => _consider base st (Some g)) st (img_finditer 0 txt)
  else Ok st.

(** One handler call. *)
Definition step (base : string) (st : state) (e : event) : result state :=
  match e with
  | StartTag tag attrs => handle_starttag base st tag attrs
  | EndTag tag => handle_endtag base st tag
  | Data data => handle_data base st data
  end.

(** [p.feed], on the tokens of the page. *)
Definition feed (base : string) (st : state) (events : list event)
    : result state :=
  foldM (step base) st events.

(** [extract_guardian_images] on the tokens of the page. *)
Definition extract_guardian_images (page_url : string) (page : list event)
    : result (list string) :=
  images <$> feed page_url init page.

End Pipeline.

Section Downloads.
Context `{PyLib} `{PyIO}.

Definition save_image (outdir : string) (url : string) (idx : Z)
    : IO string :=
  ext ← lift (safe_ext url);
  let name := "guardian_" +:+ pretty idx +:+ ext in
  let dest := path_join outdir name in
  r ← try_download url dest;
  _ ← match r with
      | None => print ("[OK] " +:+ name +:+ " <- " +:+ url)
      | Some e => print ("[x]  " +:+ url +:+ " :: " +:+ e)
      end;
  mret name.

(** Lines 252 to 255 of [main]: [names] and [global_idx] after the
    addresses of one page. *)
Fixpoint save_loop (outdir : string) (acc : list string * Z)
    (img_urls : list string) : IO (list string * Z) :=
  match img_urls with
  | [] => mret acc
  | img_u :: rest =>
      let '(names, global_idx) := acc in
      let global_idx := global_idx + 1 in
      name ← save_image outdir img_u global_idx;
      save_loop outdir (names ++ [name], global_idx) rest
  end.

Definition save_all (outdir : string) (img_urls : list string)
    (global_idx : Z) : IO (list string * Z) :=
  save_loop outdir ([], global_idx) img_urls.

(** The row [main] appends for a page: [[u, len(names), *names]]. *)
Definition row (u : string) (names : list string)
    : string * Z * list string :=
  (u, Z.of_nat (length names), names).

End Downloads.

Section Main.
Context `{PyLib} `{PyIO} `{!PyWeb}.

(** [load_urls]: [file] holds the lines of the file at [path], if
    there is one. *)
Definition load_urls (file : option (list string)) (path : string)
    : IO (list string) :=
  match file with
  | None => _ ← print ("[!] URL file not found: " +:+ path); mret []
  | Some lines =>
      mret (map strip
              (List.filter (fun u =>
                 nonempty (strip u) && contains u "theguardian.com") lines))
  end.

(** [extract_guardian_images] on a fetched page. *)
Definition extract_page (page_url : string) (page : html)
    : result (list string) :=
  feed_html (extract_guardian_images page_url) page.

(** The body of the loop of [main], lines 240 to 258: [rows],
    [max_imgs_any] and [global_idx] after the page at [u].  Only the
    fetch is guarded. *)
Definition main_page (outdir : string)
    (acc : list (string * Z * list string) * Z * Z) (u : string)
    : IO (list (string * Z * list string) * Z * Z) :=
  _ ← print (nl +:+ "[fetch] " +:+ u);
  r ← try_fetch u;
  match r with
  | inr e =>
      _ ← print ("[!] fetch failed: " +:+ e);
      mret (acc.1.1 ++ [(u, 0, [])], acc.1.2, acc.2)
  | inl page =>
      img_urls ← lift (extract_page u page);
      _ ← print ("[info] images found: "
                 +:+ pretty (Z.of_nat (length img_urls)));
      r ← save_all outdir img_urls acc.2;
      mret (acc.1.1 ++ [row u r.1],
            Z.max acc.1.2 (Z.of_nat (length r.1)), r.2)
  end.

Fixpoint main_loop (outdir : string)
    (acc : list (string * Z * list string) * Z * Z) (urls : list string)
    : IO (list (string * Z * list string) * Z * Z) :=
  match urls with
  | [] => mret acc
  | u :: rest => acc' ← main_page outdir acc u; main_loop outdir acc' rest
  end.

(** Line 261: the first row of the log. *)
Definition header (max_imgs_any : Z) : list string :=
  ["URL"; "Number of Images"]
  ++ map (fun i => "Image " +:+ pretty i +:+ " Name") (seqZ 1 max_imgs_any).

(** Line 266: a row as it is written, the number as [csv] prints it. *)
Definition padded (max_imgs_any : Z) (r : string * Z * list string)
    : list string :=
  let cells := r.1.1 :: pretty r.1.2 :: r.2 in
  cells ++ replicate (Z.to_nat (2 + max_imgs_any - Z.of_nat (length cells)))
             EmptyString.

(** [main]: the rows written to the log, [None] when it returns before
    writing one. *)
Definition main (file : option (list string)) (urlfile outdir logcsv : string)
    : IO (option (list (list string))) :=
  urls ← load_urls file urlfile;
  if nonnil urls then
    acc ← main_loop outdir ([], 0, 0) urls;
    let log := header acc.1.2 :: map (padded acc.1.2) acc.1.1 in
    _ ← print (nl +:+ "[done] wrote log: " +:+ logcsv);
    mret (Some log)
  else
    _ ← print "[!] No Guardian URLs found in file."; mret None.

End Main.
End Guardian.

(** * An instance of the library for plain addresses

    The closed examples below run the scripts on addresses of the shape
    [scheme://host/path?query] with no fragment, parameters, escapes
    or dot segments, where the library functions act as follows; an
    address that holds an opening bracket is refused, as the library
    refuses the malformed host of [http://[]; a number is read exactly
    from [digits] or [digits.digits]. *)

Module Plain.
Import Py Lib Re.

(** A decimal number [mant / 10^scale]. *)
Record dec := Dec { mant : Z; scale : nat }.

Definition dec_gt (a b : dec) : bool :=
  mant a * 10 ^ Z.of_nat (scale b) >? mant b * 10 ^ Z.of_nat (scale a).

Definition all_digits (s : string) : bool :=
  nonempty s && negb (nonempty (span isdigit s).2).

Definition dec_of_str (s : string) : option dec :=
  match split_on "." s with
  | [i] => if all_digits i then Some (Dec (int_of_digits i) 0) else None
  | [i; f] =>
      if all_digits i && all_digits f
      then Some (Dec (int_of_digits (i +:+ f)) (String.length f)) else None
  | _ => None
  end.

(** The text up to the last slash, the slash included. *)
Fixpoint dirname_slash (p : string) : string :=
  match p with
  | EmptyString => EmptyString
  | String c p' => if contains p "/" then String c (dirname_slash p') else EmptyString
  end.

(** A reference with a scheme is returned as it is; any other replaces
    the last segment of the base. *)
Definition plain_urljoin (base url : string) : option string :=
  if contains base "[" || contains url "[" then None
  else if negb (nonempty url) then Some base
  else if startswith url "http://" || startswith url "https://" then Some url
  else Some (dirname_slash base +:+ url).

(** The text before the first occurrence of [sep], and the text after. *)
Fixpoint cut (sep : string) (s : string) : option (string * string) :=
  match after_prefix s sep with
  | Some r => Some (EmptyString, r)
  | None =>
      match s with
      | EmptyString => None
      | String c s' => '(a, b) ← cut sep s'; Some (String c a, b)
      end
  end.

Definition cut_or_all (sep : string) (s : string) : string * string :=
  default (s, EmptyString) (cut sep s).

Definition plain_urlparse (u : string) : option parsed :=
  if contains u "[" then None else
  let '(u, frag) := cut_or_all "#" u in
  let '(u, q) := cut_or_all "?" u in
  match cut "://" u with
  | Some (sch, rest) =>
      let '(host, p) := span (fun c => negb (Ascii.eqb c "/")) rest in
      Some (Parsed (lower sch) host p EmptyString q frag)
  | None => Some (Parsed EmptyString EmptyString u EmptyString q frag)
  end.

Definition plain_urlunparse (p : parsed) : string :=
  (if nonempty (scheme p) then scheme p +:+ "://" else EmptyString)
  +:+ netloc p +:+ path p
  +:+ (if nonempty (query p) then "?" +:+ query p else EmptyString)
  +:+ (if nonempty (fragment p) then "#" +:+ fragment p else EmptyString).

(** [q.setdefault(k, []).append(v)] *)
Fixpoint dict_append (q : list (string * (string * list string)))
    (k v : string) : list (string * (string * list string)) :=
  match q with
  | [] => [(k, (v, []))]
  | (k', (v0, vs)) :: q' =>
      if String.eqb k' k then (k', (v0, vs ++ [v])) :: q'
      else (k', (v0, vs)) :: dict_append q' k v
  end.

(** The fields [name=value] between ampersands, blank values dropped. *)
Definition plain_parse_qs (q : string)
    : list (string * (string * list string)) :=
  fold_left (fun acc field =>
    match cut "=" field with
    | Some (k, v) => if nonempty v then dict_append acc k v else acc
    | None => acc
    end) (split_on "&" q) [].

Fixpoint join_amp (l : list string) : string :=
  match l with
  | [] => EmptyString
  | [x] => x
  | x :: l' => x +:+ "&" +:+ join_amp l'
  end.

Definition plain_urlencode (l : list (string * string)) : string :=
  join_amp (map (fun '(k, v) => k +:+ "=" +:+ v) l).

#[export] Instance lib : PyLib := {|
  float := dec;
  float_gt := dec_gt;
  float_of_str := dec_of_str;
  urljoin := plain_urljoin;
  urlparse := plain_urlparse;
  urlunparse := plain_urlunparse;
  parse_qs := plain_parse_qs;
  urlencode := plain_urlencode;
  html_unescape := fun s => s;
|}.

(** A network where exactly the addresses that contain [missing] fail,
    with the message of an HTTP 404. *)
#[export] Instance net : PyIO := {|
  world := unit;
  download := fun url dest w =>
    (if contains url "missing" then Some "HTTP Error 404: Not Found"
     else None, w);
|}.

(** A page with one image in a Daily Mail wrapper and one in a
    Guardian figure. *)
Definition page : list event :=
  [StartTag "main" []; StartTag "article" [];
   StartTag "div" [("class", Some "image-wrap")];
   StartTag "img" [("src", Some "https://i.dailymail.co.uk/1s/a.png")];
   EndTag "div";
   StartTag "figure" [];
   StartTag "img"
     [("src", Some "https://i.guim.co.uk/img/media/b.jpg?width=300&s=0a1b")];
   EndTag "figure"; EndTag "article"; EndTag "main"].

(** Every address has that page, one that contains [missing] apart;
    the tokenizer gives up at the end of a page whose address
    contains [broken]. *)
#[export] Instance web : PyWeb := {|
  fetch := fun url w =>
    (if contains url "missing" then inr "HTTP Error 404: Not Found"
     else inl (Html page (contains url "broken")), w);
  str_of_exn := fun e =>
    match e with
    | IndexError => "IndexError"
    | ValueError => "ValueError"
    | TypeError => "TypeError"
    | KeyError => "KeyError"
    | AssertionError => "AssertionError"
    end;
|}.

Definition start : io_state := IOState tt [].

End Plain.

(** * Facts about the built-ins *)

Module PyFacts.
Import Py Lib Re.

Lemma bind_Ok {A B} (f : A -> result B) (a : A) : (Ok a ≫= f) = f a.
Proof. reflexivity. Qed.

Lemma bind_is_Ok {A B} (f : A -> result B) (m : result A) (b : B) :
  (m ≫= f) = Ok b -> exists a, m = Ok a /\ f a = Ok b.
Proof. destruct m as [a|e]; simpl; [eauto | discriminate]. Qed.

Lemma foldM_app {A B} (f : B -> A -> result B) (acc : B) (l1 l2 : list A) :
  foldM f acc (l1 ++ l2) = (foldM f acc l1 ≫= fun acc' => foldM f acc' l2).
Proof.
  revert acc. induction l1 as [|x l1 IH]; intros acc; simpl; [reflexivity|].
  destruct (f acc x) as [acc'|e]; simpl; [apply IH | reflexivity].
Qed.

Lemma foldM_total {A B} (f : B -> A -> result B) (P : B -> Prop) (l : list A) :
  (forall b x, P b -> exists b', f b x = Ok b' /\ P b') ->
  forall acc, P acc -> exists b, foldM f acc l = Ok b /\ P b.
Proof.
  intros Hf. induction l as [|x l IH]; intros acc Hacc; simpl; [eauto|].
  destruct (Hf acc x Hacc) as (b' & -> & Hb'). simpl. auto.
Qed.

(** [int] returns a number or raises [ValueError]. *)
Lemma py_int_cases (s : string) :
  (exists n, py_int s = Ok n) \/ py_int s = Raise ValueError.
Proof.
  unfold py_int. destruct (int_digits 0 false _); [|by right].
  destruct (_ <? _)%N; [by right | left; eauto].
Qed.

Lemma py_urljoin_Some `{PyLib} base url r :
  urljoin base url = Some r -> py_urljoin base url = Ok r.
Proof. unfold py_urljoin. by intros ->. Qed.

Lemma py_urljoin_None `{PyLib} base url :
  urljoin base url = None -> py_urljoin base url = Raise ValueError.
Proof. unfold py_urljoin. by intros ->. Qed.

Lemma py_urljoin_Ok `{PyLib} base url r :
  py_urljoin base url = Ok r -> urljoin base url = Some r.
Proof. unfold py_urljoin. destruct (urljoin base url); congruence. Qed.

(** Membership in a list that is written out. *)
Ltac in_list := apply list_elem_of_In; simpl; tauto.

Lemma nonempty_true (s : string) : nonempty s = true <-> s <> EmptyString.
Proof. destruct s; simpl; split; congruence. Qed.

Lemma nonnil_true {A} (l : list A) : nonnil l = true <-> l <> [].
Proof. destruct l; simpl; split; congruence. Qed.

Lemma nonnil_snoc {A} (l : list A) (x : A) : nonnil (l ++ [x]) = true.
Proof. destruct l; reflexivity. Qed.

Lemma truthy_Some (s : string) : truthy (Some s) = nonempty s.
Proof. destruct s; reflexivity. Qed.

Lemma app_cons (c : ascii) (s r : string) :
  String c s +:+ r = String c (s +:+ r).
Proof. reflexivity. Qed.

Lemma app_empty_r (s : string) : s +:+ EmptyString = s.
Proof.
  induction s as [|c s IH]; [reflexivity | by rewrite app_cons, IH].
Qed.

Lemma app_assoc_s (a b c : string) : (a +:+ b) +:+ c = a +:+ (b +:+ c).
Proof.
  induction a as [|x a IH]; [reflexivity | by rewrite !app_cons, IH].
Qed.

Lemma first_of_Some {A B} (f : A -> option B) (l : list A) (y : B) :
  first_of f l = Some y -> exists x, x ∈ l /\ f x = Some y.
Proof.
  induction l as [|x l IH]; simpl; [discriminate|].
  destruct (f x) as [y'|] eqn:Hx.
  - intros [= <-]. exists x. split; [left | assumption].
  - intros Hl. destruct (IH Hl) as (x' & Hin & Hx').
    exists x'. split; [right; assumption | assumption].
Qed.

End PyFacts.

(** * The rewrite of Guardian addresses *)

Module GuardianRewrite.
Import Py Lib Re Guardian PyFacts.

Section Facts.
Context `{PyLib}.

(** The query of [url] carries the signature marker the script looks
    for: the text [s=], in any case. *)
Definition signed (url : string) : Prop :=
  exists p, urlparse url = Some p /\ contains (lower (query p)) "s=" = true.

(** What the rewrite makes of an address it changes: the query with
    [width] and [dpr] set, every parameter with its first value. *)
Definition rewritten (p : parsed) (width : Z) : string :=
  let q := dict_set (dict_set (parse_qs (query p)) "width" (pretty width, []))
             "dpr" ("2", []) in
  urlunparse (replace_query p (urlencode (map (fun '(k, v) => (k, v.1)) q))).

Lemma upgrade_signed (url : string) (width : Z) :
  signed url -> upgrade_guardian_url url width = Ok url.
Proof.
  intros (p & Hp & Hs). unfold upgrade_guardian_url.
  destruct (contains url "i.guim.co.uk"); simpl; [|reflexivity].
  rewrite Hp, Hs. reflexivity.
Qed.

Lemma upgrade_changes (url : string) (width : Z) (v : string) :
  upgrade_guardian_url url width = Ok v -> v <> url ->
  contains url "i.guim.co.uk" = true /\ ~ signed url.
Proof.
  unfold upgrade_guardian_url. intros Hup Hne.
  destruct (contains url "i.guim.co.uk") eqn:Hhost; simpl in Hup;
    [|congruence].
  split; [reflexivity|].
  intros (p & Hp & Hs). rewrite Hp, Hs in Hup. congruence.
Qed.

Lemma upgrade_unsigned (url : string) (width : Z) (p : parsed) :
  contains url "i.guim.co.uk" = true -> urlparse url = Some p ->
  contains (lower (query p)) "s=" = false ->
  upgrade_guardian_url url width = Ok (rewritten p width).
Proof.
  intros Hhost Hp Hs. unfold upgrade_guardian_url.
  rewrite Hhost, Hp, Hs. reflexivity.
Qed.

(** C6, as amended: [upgrade_guardian_url] returns a signed address as
    it is; it changes an address only when the text [i.guim.co.uk]
    occurs in it and its query has no marker, and it rewrites every
    such address that parses, wherever the text stands: the host is
    not looked at.  [_consider] appends a signed address of the image
    host unchanged. *)
Theorem upgrade_guardian_url_signed_noop (url : string) (width : Z) :
  (signed url -> upgrade_guardian_url url width = Ok url)
  /\ (forall v, upgrade_guardian_url url width = Ok v -> v <> url ->
        contains url "i.guim.co.uk" = true /\ ~ signed url)
  /\ (forall p,
        contains url "i.guim.co.uk" = true -> urlparse url = Some p ->
        contains (lower (query p)) "s=" = false ->
        upgrade_guardian_url url width = Ok (rewritten p width))
  /\ (forall base st r,
        nonempty url = true ->
        urljoin base url = Some r ->
        startswith r "http://" || startswith r "https://" = true ->
        keep_guardian_cdn r = true -> signed r -> r ∉ _seen st ->
        _consider base st (Some url)
        = Ok (set_images st (images st ++ [r]) ({[r]} ∪ _seen st))).
Proof.
  split; [apply upgrade_signed|]. split; [apply upgrade_changes|].
  split; [apply upgrade_unsigned|].
  intros base st r Hne Hjoin Hhttp Hkeep Hs Hnew. unfold _consider.
  rewrite truthy_Some, Hne. change (or_empty (Some url)) with url.
  unfold py_urljoin. rewrite Hjoin, bind_Ok, Hhttp, Hkeep.
  rewrite (upgrade_signed r 2000 Hs), bind_Ok.
  rewrite bool_decide_false by assumption. reflexivity.
Qed.

End Facts.

(** C6, the claim as it stands fails: an address of another host that
    only mentions [i.guim.co.uk] in its query is rewritten, and so is
    an address whose host merely ends with that text, which the host
    filter lets through. *)
Lemma upgrade_guardian_url_counterexample :
  @upgrade_guardian_url Plain.lib
    "https://example.com/a.jpg?ref=i.guim.co.uk" 2000
  = Ok "https://example.com/a.jpg?ref=i.guim.co.uk&width=2000&dpr=2"
  /\ netloc <$> @urlparse Plain.lib "https://example.com/a.jpg?ref=i.guim.co.uk"
     = Some "example.com"
  /\ @keep_guardian_cdn Plain.lib "https://evili.guim.co.uk/a.jpg" = true
  /\ @upgrade_guardian_url Plain.lib "https://evili.guim.co.uk/a.jpg" 2000
     = Ok "https://evili.guim.co.uk/a.jpg?width=2000&dpr=2".
Proof. repeat split; vm_compute; reflexivity. Qed.

(** The theorem at a signed address of the image host. *)
Lemma upgrade_guardian_url_signed_noop_witness :
  let url := "https://i.guim.co.uk/img/media/a.jpg?width=300&quality=85&s=0a1b" in
  @upgrade_guardian_url Plain.lib url 2000 = Ok url
  /\ @_consider Plain.lib "https://www.theguardian.com/world/2024/x" init
       (Some url) = Ok (set_images init [url] ({[url]} ∪ ∅)).
Proof.
  pose proof (@upgrade_guardian_url_signed_noop Plain.lib
    "https://i.guim.co.uk/img/media/a.jpg?width=300&quality=85&s=0a1b" 2000)
    as (H1 & _ & _ & H3).
  assert (Hs : @signed Plain.lib
    "https://i.guim.co.uk/img/media/a.jpg?width=300&quality=85&s=0a1b").
  { eexists. split; [reflexivity|]. vm_compute. reflexivity. }
  split; [exact (H1 Hs)|].
  apply (H3 "https://www.theguardian.com/world/2024/x" init);
    [reflexivity | reflexivity | reflexivity | reflexivity | exact Hs | ].
  simpl. apply not_elem_of_empty.
Defined.

End GuardianRewrite.
(** * Sequence numbers and report rows *)

Module Numbering.
Import Py Lib Re PyFacts.

Section Facts.
Context `{PyLib} `{PyIO}.

(** The name [download_images_sequential] gives the image at [u] when
    the counter stands at [idx]. *)
Definition dailymail_name (idx : Z) (ext : string) : string :=
  "dailymail_" +:+ pretty idx +:+ ext.

Definition guardian_name (idx : Z) (ext : string) : string :=
  "guardian_" +:+ pretty idx +:+ ext.

(** Daily Mail, a download that completes: the name is recorded and the
    counter moves on. *)
Lemma download_one_saved outdir saved idx u ext io w' :
  DailyMail._ext_from_url u = Ok ext ->
  download u (path_join outdir (dailymail_name idx ext)) (the_world io)
    = (None, w') ->
  DailyMail.download_one outdir (saved, idx) u io
  = (Ok (saved ++ [dailymail_name idx ext], idx + 1), IOState w' (stdout io)).
Proof.
  intros Hext Hd.
  unfold DailyMail.download_one, mbind, IO_bind, lift, try_download.
  rewrite Hext. fold (dailymail_name idx ext). rewrite Hd. reflexivity.
Qed.

(** Daily Mail, a download that raises: a warning is printed, nothing is
    recorded and the counter stays. *)
Lemma download_one_failed outdir saved idx u ext io e w' :
  DailyMail._ext_from_url u = Ok ext ->
  download u (path_join outdir (dailymail_name idx ext)) (the_world io)
    = (Some e, w') ->
  DailyMail.download_one outdir (saved, idx) u io
  = (Ok (saved, idx),
     IOState w' (stdout io ++ ["[warn] failed " +:+ u +:+ ": " +:+ e])).
Proof.
  intros Hext Hd.
  unfold DailyMail.download_one, mbind, IO_bind, lift, try_download.
  rewrite Hext. fold (dailymail_name idx ext). rewrite Hd. reflexivity.
Qed.

(** Guardian: the name is returned whether the download completes or
    raises; one line is printed either way. *)
Lemma save_image_name outdir url idx ext io :
  Guardian.safe_ext url = Ok ext ->
  exists line w',
    Guardian.save_image outdir url idx io
    = (Ok (guardian_name idx ext), IOState w' (stdout io ++ [line])).
Proof.
  intros Hext.
  unfold Guardian.save_image, mbind, IO_bind, lift, try_download.
  rewrite Hext. fold (guardian_name idx ext).
  destruct (download url (path_join outdir (guardian_name idx ext))
              (the_world io)) as [[e|] w']; simpl; eauto.
Qed.

Lemma urlparse_ext_from_url u :
  is_Some (urlparse u) -> exists ext, DailyMail._ext_from_url u = Ok ext.
Proof.
  intros [p Hp]. unfold DailyMail._ext_from_url. rewrite Hp.
  destruct (if nonempty (basename (path p))
            then IMG_EXT_RE_search (basename (path p)) else None); eauto.
Qed.

Lemma urlparse_safe_ext u :
  is_Some (urlparse u) -> exists ext, Guardian.safe_ext u = Ok ext.
Proof. intros [p Hp]. unfold Guardian.safe_ext. rewrite Hp. eauto. Qed.

Lemma download_loop_counts outdir urls :
  Forall (fun u => is_Some (urlparse u)) urls ->
  forall saved idx io,
  exists more io',
    DailyMail.download_loop outdir (saved, idx) urls io
    = (Ok (saved ++ more, idx + Z.of_nat (length more)), io')
    /\ (length more <= length urls)%nat
    /\ length (stdout io')
       = (length (stdout io) + (length urls - length more))%nat.
Proof.
  induction 1 as [|u urls Hu _ IH]; intros saved idx io.
  - exists [], io. simpl. rewrite app_nil_r, Z.add_0_r.
    repeat split; lia.
  - destruct (urlparse_ext_from_url u Hu) as [ext Hext].
    cbn [DailyMail.download_loop]. unfold mbind at 1, IO_bind at 1.
    destruct (download u (path_join outdir (dailymail_name idx ext))
                (the_world io)) as [[e|] w'] eqn:Hd.
    + rewrite (download_one_failed _ _ _ _ _ _ _ _ Hext Hd).
      destruct (IH saved idx
        (IOState w' (stdout io ++ ["[warn] failed " +:+ u +:+ ": " +:+ e])))
        as (more & io' & -> & Hle & Hout).
      exists more, io'. split; [reflexivity|]. split; [simpl; lia|].
      rewrite Hout. simpl. rewrite length_app. simpl. lia.
    + rewrite (download_one_saved _ _ _ _ _ _ _ Hext Hd).
      destruct (IH (saved ++ [dailymail_name idx ext]) (idx + 1)
        (IOState w' (stdout io))) as (more & io' & -> & Hle & Hout).
      exists (dailymail_name idx ext :: more), io'.
      rewrite <- app_assoc. simpl length.
      split; [do 3 f_equal; lia|]. split; [lia|].
      rewrite Hout. simpl. lia.
Qed.

Lemma save_loop_counts outdir img_urls :
  Forall (fun u => is_Some (urlparse u)) img_urls ->
  forall names idx io,
  exists more io',
    Guardian.save_loop outdir (names, idx) img_urls io
    = (Ok (names ++ more, idx + Z.of_nat (length img_urls)), io')
    /\ length more = length img_urls
    /\ length (stdout io') = (length (stdout io) + length img_urls)%nat.
Proof.
  induction 1 as [|u urls Hu _ IH]; intros names idx io.
  - exists [], io. simpl. rewrite app_nil_r, Z.add_0_r.
    repeat split; lia.
  - destruct (urlparse_safe_ext u Hu) as [ext Hext].
    cbn [Guardian.save_loop]. unfold mbind at 1, IO_bind at 1.
    destruct (save_image_name outdir u (idx + 1) ext io Hext)
      as (line & w' & ->).
    destruct (IH (names ++ [guardian_name (idx + 1) ext]) (idx + 1)
      (IOState w' (stdout io ++ [line]))) as (more & io' & -> & Hlen & Hout).
    exists (guardian_name (idx + 1) ext :: more), io'.
    rewrite <- app_assoc. simpl length.
    split; [do 3 f_equal; lia|]. split; [lia|].
    rewrite Hout. simpl. rewrite length_app. simpl. lia.
Qed.

(** C7, as amended: the Guardian loop adds one to the counter before
    every download, so a page of [n] addresses moves it by [n] whatever
    the downloads do; the Daily Mail loop adds one only after a download
    that completed, so the counter moves by the number of files saved,
    and every other address leaves one warning and the counter alone. *)
Theorem numbering_policies (outdir : string) (urls : list string)
    (start : Z) (io : io_state) :
  Forall (fun u => is_Some (urlparse u)) urls ->
  (exists names io',
      Guardian.save_all outdir urls start io
      = (Ok (names, start + Z.of_nat (length urls)), io')
      /\ length names = length urls)
  /\ (exists saved io',
      DailyMail.download_images_sequential urls outdir start io
      = (Ok (saved, start + Z.of_nat (length saved)), io')
      /\ (length saved <= length urls)%nat
      /\ length (stdout io')
         = (length (stdout io) + (length urls - length saved))%nat)
  /\ (forall saved idx u ext e w',
      DailyMail._ext_from_url u = Ok ext ->
      download u (path_join outdir (dailymail_name idx ext)) (the_world io)
        = (Some e, w') ->
      (DailyMail.download_one outdir (saved, idx) u io).1 = Ok (saved, idx))
  /\ (forall saved idx u ext w',
      DailyMail._ext_from_url u = Ok ext ->
      download u (path_join outdir (dailymail_name idx ext)) (the_world io)
        = (None, w') ->
      (DailyMail.download_one outdir (saved, idx) u io).1
      = Ok (saved ++ [dailymail_name idx ext], idx + 1)).
Proof.
  intros Hurls. split; [|split; [|split]].
  - destruct (save_loop_counts outdir urls Hurls [] start io)
      as (more & io' & Heq & Hlen & _).
    exists more, io'. split; [exact Heq | exact Hlen].
  - destruct (download_loop_counts outdir urls Hurls [] start io)
      as (more & io' & Heq & Hle & Hout).
    exists more, io'. split; [exact Heq | split; assumption].
  - intros saved idx u ext e w' Hext Hd.
    rewrite (download_one_failed _ _ _ _ _ _ _ _ Hext Hd). reflexivity.
  - intros saved idx u ext w' Hext Hd.
    rewrite (download_one_saved _ _ _ _ _ _ _ Hext Hd). reflexivity.
Qed.

End Facts.

(** C7, the claim as it stands fails on the Daily Mail loop: of three
    addresses the second cannot be fetched, and the counter moves from 1
    to 3, not to 4; the Guardian loop moves it from 0 to 3. *)
Lemma numbering_counterexample :
  let urls := ["https://i.dailymail.co.uk/1s/a.png";
               "https://i.dailymail.co.uk/1s/missing.jpg";
               "https://i.dailymail.co.uk/1s/b.jpg"] in
  (@DailyMail.download_images_sequential Plain.lib Plain.net urls "out" 1
     Plain.start).1 = Ok (["dailymail_1.png"; "dailymail_2.jpg"], 3)
  /\ snd <$> (@DailyMail.download_images_sequential Plain.lib Plain.net urls
                 "out" 1 Plain.start).1
     <> Ok (1 + Z.of_nat (length urls))
  /\ (@Guardian.save_all Plain.lib Plain.net "out" urls 0 Plain.start).1
     = Ok (["guardian_1.png"; "guardian_2.jpg"; "guardian_3.jpg"], 3).
Proof.
  intros urls. split; [vm_compute; reflexivity|].
  split; [vm_compute; discriminate | vm_compute; reflexivity].
Qed.

(** The theorem on the same three addresses. *)
Lemma numbering_policies_witness :
  let urls := ["https://i.dailymail.co.uk/1s/a.png";
               "https://i.dailymail.co.uk/1s/missing.jpg";
               "https://i.dailymail.co.uk/1s/b.jpg"] in
  Forall (fun u => is_Some (@urlparse Plain.lib u)) urls
  /\ exists saved io',
      @DailyMail.download_images_sequential Plain.lib Plain.net urls "out" 1
        Plain.start = (Ok (saved, 1 + Z.of_nat (length saved)), io').
Proof.
  intros urls.
  assert (Hurls : Forall (fun u => is_Some (@urlparse Plain.lib u)) urls).
  { repeat constructor; eexists; reflexivity. }
  split; [exact Hurls|].
  destruct (@numbering_policies Plain.lib Plain.net "out" urls 1 Plain.start
              Hurls) as (_ & (saved & io' & Heq & _) & _).
  exists saved, io'. exact Heq.
Defined.

(** C8 at a Guardian page whose only image cannot be fetched: the
    failure is printed, and the name of the file that was never written
    is returned all the same, so the row counts one image. *)
Lemma guardian_failed_download_named :
  let url := "https://i.guim.co.uk/img/media/missing.jpg?width=300&s=0a1b" in
  let r := @Guardian.save_all Plain.lib Plain.net "out" [url] 0 Plain.start in
  r.1 = Ok (["guardian_1.jpg"], 1)
  /\ stdout r.2 = ["[x]  " +:+ url +:+ " :: HTTP Error 404: Not Found"]
  /\ Guardian.row "https://www.theguardian.com/world/2024/x" ["guardian_1.jpg"]
     = ("https://www.theguardian.com/world/2024/x", 1, ["guardian_1.jpg"])
  /\ (@DailyMail.download_images_sequential Plain.lib Plain.net [url] "out" 1
        Plain.start).1 = Ok ([], 1).
Proof. intros url r. repeat split; vm_compute; reflexivity. Qed.

End Numbering.

(** * File names *)

Module FileNames.
Import Py Lib Re PyFacts.

(** No character of [s] is [c]. *)
Fixpoint no_char (c : ascii) (s : string) : bool :=
  match s with
  | EmptyString => true
  | String b s' => negb (Ascii.eqb b c) && no_char c s'
  end.

Lemma ci_prefix_sound s p m r :
  ci_prefix s p = Some (m, r) -> s = m +:+ r /\ lower m = p.
Proof.
  revert s m r. induction p as [|a p IH]; intros s m r Hs; simpl in Hs.
  - inversion Hs; subst. split; reflexivity.
  - destruct s as [|b s]; [discriminate|].
    destruct (Ascii.eqb a (lower_char b)) eqn:Hab; [|discriminate].
    destruct (ci_prefix s p) as [[m' r']|] eqn:Hp; [|discriminate].
    simpl in Hs. inversion Hs; subst.
    destruct (IH _ _ _ Hp) as [-> <-].
    apply Ascii.eqb_eq in Hab. subst a. split; reflexivity.
Qed.

Lemma ci_prefix_lower s r : ci_prefix (s +:+ r) (lower s) = Some (s, r).
Proof.
  induction s as [|c s IH]; [reflexivity|].
  rewrite app_cons. simpl. rewrite Ascii.eqb_refl, IH. reflexivity.
Qed.

Lemma ext_at_other c s : c <> "."%char -> ext_at (String c s) = None.
Proof.
  intros Hc. destruct c as [[] [] [] [] [] [] [] []];
    try reflexivity. congruence.
Qed.

Lemma ext_at_range s g :
  ext_at s = Some g -> lower g ∈ ["jpg"; "jpeg"; "png"; "webp"].
Proof.
  destruct s as [|c r]; [discriminate|].
  destruct (ascii_dec c ".") as [->|Hc];
    [|rewrite (ext_at_other _ _ Hc); discriminate].
  unfold ext_at. intros Hg.
  apply first_of_Some in Hg as (alt & Hin & Halt).
  destruct (ci_prefix r alt) as [[m r']|] eqn:E; [|discriminate].
  apply ci_prefix_sound in E as [_ E].
  destruct (at_dollar r' || next_is (Ascii.eqb "?") r'); [|discriminate].
  injection Halt as <-. rewrite E. exact Hin.
Qed.

Lemma IMG_EXT_RE_search_range name g :
  IMG_EXT_RE_search name = Some g ->
  lower g ∈ ["jpg"; "jpeg"; "png"; "webp"].
Proof.
  induction name as [|c name IH]; cbn [IMG_EXT_RE_search].
  - discriminate.
  - destruct (ext_at (String c name)) as [g'|] eqn:E.
    + intros [= <-]. eapply ext_at_range; eassumption.
    + exact IH.
Qed.

(** At the last dot of a name whose ending is one of the four known
    ones, the pattern matches and captures the ending. *)
Lemma ext_at_known e :
  lower e ∈ ["jpg"; "jpeg"; "png"; "webp"] ->
  ext_at (String "." e) = Some e.
Proof.
  intros He. pose proof (ci_prefix_lower e EmptyString) as Hp.
  rewrite app_empty_r in Hp.
  unfold ext_at. cbn [first_of].
  repeat (apply elem_of_cons in He; destruct He as [He|He]);
    [..|by apply elem_of_nil in He]; rewrite He in Hp.
  - rewrite Hp. reflexivity.
  - destruct e as [|c1 [|c2 [|c3 [|c4 [|]]]]]; try discriminate He.
    simpl in He. injection He as H1 H2 H3 H4.
    assert (ci_prefix (String c1 (String c2 (String c3 (String c4 "")))) "jpg"
            = None) as ->.
    { simpl. rewrite H1, H2, H3. reflexivity. }
    rewrite Hp. reflexivity.
  - destruct e as [|c1 e]; [discriminate He|].
    simpl in He. injection He as H1 H2.
    assert (ci_prefix (String c1 e) "jpg" = None) as ->
      by (simpl; rewrite H1; reflexivity).
    assert (ci_prefix (String c1 e) "jpeg" = None) as ->
      by (simpl; rewrite H1; reflexivity).
    rewrite Hp. reflexivity.
  - destruct e as [|c1 e]; [discriminate He|].
    simpl in He. injection He as H1 H2.
    assert (ci_prefix (String c1 e) "jpg" = None) as ->
      by (simpl; rewrite H1; reflexivity).
    assert (ci_prefix (String c1 e) "jpeg" = None) as ->
      by (simpl; rewrite H1; reflexivity).
    assert (ci_prefix (String c1 e) "png" = None) as ->
      by (simpl; rewrite H1; reflexivity).
    rewrite Hp. reflexivity.
Qed.

Lemma IMG_EXT_RE_search_known stem e :
  no_char "." stem = true ->
  lower e ∈ ["jpg"; "jpeg"; "png"; "webp"] ->
  IMG_EXT_RE_search (stem +:+ String "." e) = Some e.
Proof.
  intros Hstem He. induction stem as [|c stem IH].
  - change (EmptyString +:+ String "." e) with (String "." e).
    cbn [IMG_EXT_RE_search]. rewrite (ext_at_known _ He). reflexivity.
  - simpl in Hstem. apply andb_true_iff in Hstem as [Hc Hstem].
    change (String c stem +:+ String "." e)
      with (String c (stem +:+ String "." e)).
    cbn [IMG_EXT_RE_search]. rewrite ext_at_other.
    + apply IH, Hstem.
    + intros ->. discriminate Hc.
Qed.

Lemma last_dot_none e : no_char "." e = true -> Guardian.last_dot e = None.
Proof.
  induction e as [|c e IH]; simpl; [reflexivity|].
  intros Hc. apply andb_true_iff in Hc as [Hc He]. rewrite (IH He).
  apply negb_true_iff in Hc. rewrite Hc. reflexivity.
Qed.

Lemma last_dot_app stem e :
  no_char "." e = true ->
  Guardian.last_dot (stem +:+ String "." e) = Some (stem, String "." e).
Proof.
  intros He. induction stem as [|c stem IH].
  - change (EmptyString +:+ String "." e) with (String "." e).
    cbn [Guardian.last_dot]. rewrite (last_dot_none _ He). reflexivity.
  - change (String c stem +:+ String "." e)
      with (String c (stem +:+ String "." e)).
    cbn [Guardian.last_dot]. rewrite IH. reflexivity.
Qed.

Lemma no_char_app c a b :
  no_char c (a +:+ b) = no_char c a && no_char c b.
Proof.
  induction a as [|x a IH]; [reflexivity|].
  rewrite app_cons. cbn [no_char]. rewrite IH, andb_assoc. reflexivity.
Qed.

Lemma lower_app a b : lower (a +:+ b) = lower a +:+ lower b.
Proof.
  induction a as [|x a IH]; [reflexivity|].
  rewrite app_cons. cbn [lower]. rewrite IH. reflexivity.
Qed.

Lemma known_no_dot e :
  lower e ∈ ["jpg"; "jpeg"; "png"; "webp"] -> no_char "." (lower e) = true.
Proof.
  intros He.
  repeat (apply elem_of_cons in He; destruct He as [->|He]; [reflexivity|]).
  by apply elem_of_nil in He.
Qed.

(** The line feed, before which [$] matches at the end of a text. *)
Definition line_feed : ascii := ascii_of_N 10.

(** In a text without question mark and line feed the pattern can only
    match at the very end. *)
Lemma ext_at_end s g :
  no_char "?" s = true -> no_char line_feed s = true ->
  ext_at s = Some g ->
  s = String "." g /\ lower g ∈ ["jpg"; "jpeg"; "png"; "webp"].
Proof.
  intros Hq Hn Hg. pose proof (ext_at_range _ _ Hg) as Hr.
  split; [|exact Hr].
  destruct s as [|c r]; [discriminate|].
  destruct (ascii_dec c ".") as [->|Hc];
    [|rewrite (ext_at_other _ _ Hc) in Hg; discriminate].
  unfold ext_at in Hg. apply first_of_Some in Hg as (alt & _ & Halt).
  destruct (ci_prefix r alt) as [[m r']|] eqn:E; [|discriminate].
  apply ci_prefix_sound in E as [-> _].
  destruct (at_dollar r' || next_is (Ascii.eqb "?") r') eqn:Hend;
    [|discriminate].
  injection Halt as <-. f_equal.
  cbn [no_char] in Hq, Hn. apply andb_true_iff in Hq as [_ Hq].
  apply andb_true_iff in Hn as [_ Hn].
  rewrite no_char_app in Hq, Hn.
  apply andb_true_iff in Hq as [_ Hq]. apply andb_true_iff in Hn as [_ Hn].
  destruct r' as [|x r'']; [by rewrite app_empty_r|]. exfalso.
  cbn [no_char] in Hq, Hn. apply andb_true_iff in Hq as [Hq _].
  apply andb_true_iff in Hn as [Hn _].
  apply orb_true_iff in Hend as [Hend|Hend].
  - cbn [at_dollar] in Hend. destruct r''; [|discriminate].
    apply Ascii.eqb_eq in Hend. subst x. discriminate Hn.
  - cbn [next_is] in Hend. apply Ascii.eqb_eq in Hend. subst x.
    discriminate Hq.
Qed.

(** The ending of such a name is found whatever stands before it. *)
Lemma IMG_EXT_RE_search_end stem e : forall name,
  no_char "?" name = true -> no_char line_feed name = true ->
  name = stem +:+ String "." e ->
  lower e ∈ ["jpg"; "jpeg"; "png"; "webp"] ->
  IMG_EXT_RE_search name = Some e.
Proof.
  induction stem as [|c stem IH]; intros name Hq Hn -> He.
  - change (EmptyString +:+ String "." e) with (String "." e).
    cbn [IMG_EXT_RE_search]. rewrite (ext_at_known _ He). reflexivity.
  - rewrite app_cons in *. cbn [IMG_EXT_RE_search].
    destruct (ext_at (String c (stem +:+ String "." e))) as [g|] eqn:Hg.
    + exfalso. apply ext_at_end in Hg as [Hg Hr]; [|assumption..].
      injection Hg as -> <-. apply known_no_dot in Hr.
      rewrite lower_app, no_char_app in Hr.
      apply andb_true_iff in Hr as [_ Hr]. discriminate Hr.
    + cbn [no_char] in Hq, Hn. apply andb_true_iff in Hq as [_ Hq].
      apply andb_true_iff in Hn as [_ Hn]. by apply IH.
Qed.

(** A name with no such ending has no match. *)
Lemma IMG_EXT_RE_search_other name :
  no_char "?" name = true -> no_char line_feed name = true ->
  (forall stem e, name = stem +:+ String "." e ->
     lower e ∉ ["jpg"; "jpeg"; "png"; "webp"]) ->
  IMG_EXT_RE_search name = None.
Proof.
  induction name as [|c name IH]; intros Hq Hn Hno; [reflexivity|].
  cbn [IMG_EXT_RE_search].
  destruct (ext_at (String c name)) as [g|] eqn:Hg.
  - exfalso. apply ext_at_end in Hg as [Hg Hr]; [|assumption..].
    apply (Hno EmptyString g); [exact Hg | exact Hr].
  - cbn [no_char] in Hq, Hn. apply andb_true_iff in Hq as [_ Hq].
    apply andb_true_iff in Hn as [_ Hn]. apply IH; [assumption..|].
    intros stem e ->. apply (Hno (String c stem) e). reflexivity.
Qed.

Section Facts.
Context `{PyLib} `{PyIO}.

(** C9, as amended.  A file is named by the prefix of its site, the
    counter and the extension.  For a last path component without
    question mark and line feed, the Daily Mail extension is its
    ending when that is one of jpg, jpeg, png and webp in any case
    (jpeg becoming jpg), whatever stands before the last dot, and
    [.jpg] for every other name, gif included.  The Guardian extension
    is the lower-cased text from the last dot of the component on when
    that is one of the five of [IMG_EXTS], jpeg staying jpeg, and
    [.jpg] otherwise: for another ending, for a name without a dot and
    for a name that only starts with dots. *)
Theorem extension_rules (u : string) (p : parsed) :
  urlparse u = Some p ->
  let name := basename (path p) in
  (exists ext,
     DailyMail._ext_from_url u = Ok ext
     /\ ext ∈ [".jpg"; ".png"; ".webp"]
     /\ forall outdir saved idx io w',
          download u (path_join outdir ("dailymail_" +:+ pretty idx +:+ ext))
            (the_world io) = (None, w') ->
          (DailyMail.download_one outdir (saved, idx) u io).1
          = Ok (saved ++ ["dailymail_" +:+ pretty idx +:+ ext], idx + 1))
  /\ (no_char "?" name = true -> no_char line_feed name = true ->
      (forall stem e,
         name = stem +:+ String "." e ->
         lower e ∈ ["jpg"; "jpeg"; "png"; "webp"] ->
         DailyMail._ext_from_url u
         = Ok ("." +:+ (if String.eqb (lower e) "jpeg" then "jpg"
                        else lower e)))
      /\ ((forall stem e,
             name = stem +:+ String "." e ->
             lower e ∉ ["jpg"; "jpeg"; "png"; "webp"]) ->
          DailyMail._ext_from_url u = Ok ".jpg"))
  /\ (exists ext,
        Guardian.safe_ext u = Ok ext /\ ext ∈ Guardian.IMG_EXTS
        /\ forall outdir idx io,
             (Guardian.save_image outdir u idx io).1
             = Ok ("guardian_" +:+ pretty idx +:+ ext))
  /\ (forall stem e,
        name = stem +:+ String "." e -> no_char "." e = true ->
        Guardian.safe_ext u
        = Ok (if Guardian.all_dots stem then ".jpg"
              else if bool_decide (lower (String "." e) ∈ Guardian.IMG_EXTS)
              then lower (String "." e) else ".jpg"))
  /\ (no_char "." name = true -> Guardian.safe_ext u = Ok ".jpg").
Proof.
  intros Hp. cbv zeta.
  assert (Hdm : exists ext, DailyMail._ext_from_url u = Ok ext
                            /\ ext ∈ [".jpg"; ".png"; ".webp"]).
  { unfold DailyMail._ext_from_url. rewrite Hp. cbv zeta.
    generalize (basename (path p)). intros name.
    destruct (if nonempty name then IMG_EXT_RE_search name else None)
      as [g|] eqn:Hg; [|eexists; split; [reflexivity | in_list]].
    assert (lower g ∈ ["jpg"; "jpeg"; "png"; "webp"]) as Hr.
    { destruct (nonempty name); [|discriminate].
      eapply IMG_EXT_RE_search_range; eassumption. }
    eexists; split; [reflexivity|].
    repeat (apply elem_of_cons in Hr; destruct Hr as [Hr|Hr]);
      [..|by apply elem_of_nil in Hr]; rewrite Hr; simpl; in_list. }
  assert (Hgu : exists ext, Guardian.safe_ext u = Ok ext
                            /\ ext ∈ Guardian.IMG_EXTS).
  { unfold Guardian.safe_ext. rewrite Hp. cbv zeta.
    eexists; split; [reflexivity|]. case_bool_decide; [assumption|].
    unfold Guardian.IMG_EXTS. in_list. }
  split; [|split; [|split; [|split]]].
  - destruct Hdm as (ext & Hext & Hin). exists ext.
    split; [exact Hext|]. split; [exact Hin|].
    intros outdir saved idx io w' Hd.
    rewrite (Numbering.download_one_saved _ _ _ _ _ _ _ Hext Hd). reflexivity.
  - intros Hq Hn. unfold DailyMail._ext_from_url. rewrite Hp. cbv zeta.
    revert Hq Hn. generalize (basename (path p)). intros name Hq Hn. split.
    + intros stem e Hname He.
      rewrite (IMG_EXT_RE_search_end stem e name Hq Hn Hname He).
      subst name. destruct stem; reflexivity.
    + intros Hno. rewrite (IMG_EXT_RE_search_other name Hq Hn Hno).
      destruct (nonempty name); reflexivity.
  - destruct Hgu as (ext & Hext & Hin). exists ext.
    split; [exact Hext|]. split; [exact Hin|].
    intros outdir idx io.
    destruct (Numbering.save_image_name outdir u idx ext io Hext)
      as (line & w' & ->). reflexivity.
  - intros stem e Hname He.
    unfold Guardian.safe_ext, Guardian.splitext_ext. rewrite Hp. cbv zeta.
    rewrite Hname, (last_dot_app _ _ He).
    destruct (Guardian.all_dots stem); reflexivity.
  - intros Hname.
    unfold Guardian.safe_ext, Guardian.splitext_ext. rewrite Hp. cbv zeta.
    rewrite (last_dot_none _ Hname). reflexivity.
Qed.

End Facts.

(** C9, the claim as it stands fails in both scripts: the Daily Mail
    script saves a gif as [.jpg], and the Guardian script keeps [.jpeg]. *)
Lemma extension_counterexample :
  @DailyMail._ext_from_url Plain.lib "https://i.dailymail.co.uk/1s/2024/a.gif"
  = Ok ".jpg"
  /\ @Guardian.safe_ext Plain.lib "https://i.guim.co.uk/img/media/a.jpeg?s=0a1b"
     = Ok ".jpeg".
Proof. split; vm_compute; reflexivity. Qed.

(** The theorem at two addresses of the image hosts, the first with a
    dot before the ending. *)
Lemma extension_rules_witness :
  @DailyMail._ext_from_url Plain.lib
    "https://i.dailymail.co.uk/1s/2024/photo.v2.JPEG" = Ok ".jpg"
  /\ @Guardian.safe_ext Plain.lib "https://i.guim.co.uk/img/media/a.PNG?s=0a1b"
     = Ok ".png"
  /\ (@Guardian.save_image Plain.lib Plain.net "out"
        "https://i.guim.co.uk/img/media/README?s=0a1b" 7 Plain.start).1
     = Ok "guardian_7.jpg".
Proof.
  split; [|split].
  - refine (proj1 (proj1 (proj2 (@extension_rules Plain.lib Plain.net
      "https://i.dailymail.co.uk/1s/2024/photo.v2.JPEG" _ eq_refl))
      eq_refl eq_refl) "photo.v2" "JPEG" eq_refl _).
    vm_compute. in_list.
  - refine (proj1 (proj2 (proj2 (proj2 (@extension_rules Plain.lib Plain.net
      "https://i.guim.co.uk/img/media/a.PNG?s=0a1b" _ eq_refl)))) "a" "PNG"
      eq_refl eq_refl).
  - destruct (proj1 (proj2 (proj2 (@extension_rules Plain.lib Plain.net
      "https://i.guim.co.uk/img/media/README?s=0a1b" _ eq_refl))))
      as (ext & Hext & _ & Hname).
    pose proof (proj2 (proj2 (proj2 (proj2 (@extension_rules Plain.lib
      Plain.net "https://i.guim.co.uk/img/media/README?s=0a1b" _ eq_refl))))
      eq_refl) as Hjpg.
    rewrite Hjpg in Hext. injection Hext as <-. apply Hname.
Defined.

End FileNames.
(** * Region tracking *)

Module Regions.
Import Py Lib Re PyFacts.

(** Every character of [s] is white space. *)
Fixpoint allspace (s : string) : bool :=
  match s with
  | EmptyString => true
  | String c s' => isspace c && allspace s'
  end.

Lemma split_go_nil cur s :
  split_go cur s = [] -> cur = EmptyString /\ allspace s = true.
Proof.
  revert cur. induction s as [|c s IH]; intros cur; cbn [split_go allspace].
  - destruct cur; [auto | discriminate].
  - destruct (isspace c).
    + destruct cur; [|discriminate]. intros Hs. apply IH in Hs as [_ Hs]. auto.
    + intros Hs. apply IH in Hs as [Hs _]. discriminate.
Qed.

Lemma rstrip_allspace s : allspace (rstrip s) = true -> rstrip s = EmptyString.
Proof.
  induction s as [|c s IH]; cbn [rstrip]; [reflexivity|].
  destruct (rstrip s) as [|c' r] eqn:Hr.
  - destruct (isspace c) eqn:Hc; [reflexivity|].
    cbn [allspace]. rewrite Hc. discriminate.
  - cbn [allspace]. intros Hall.
    apply andb_true_iff in Hall as [_ Hall].
    cbn [allspace] in IH. specialize (IH Hall). discriminate.
Qed.

(** A token that [strip] leaves non-empty has a first field. *)
Lemma split_strip_cons part :
  nonempty (strip part) = true ->
  exists u rest, split (strip part) = u :: rest.
Proof.
  intros Hne. destruct (split (strip part)) as [|u rest] eqn:Hs; [|eauto].
  apply split_go_nil in Hs as [_ Hs]. apply rstrip_allspace in Hs.
  unfold strip in Hne. rewrite Hs in Hne. discriminate.
Qed.

Lemma allspace_lstrip s : allspace s = true -> lstrip s = EmptyString.
Proof.
  induction s as [|c s IH]; cbn [allspace lstrip]; [reflexivity|].
  intros Hs. apply andb_true_iff in Hs as [-> Hs]. auto.
Qed.

Lemma lstrip_allspace s : lstrip s = EmptyString -> allspace s = true.
Proof.
  induction s as [|c s IH]; cbn [allspace lstrip]; [reflexivity|].
  destruct (isspace c); [exact IH | discriminate].
Qed.

Lemma rstrip_empty_allspace s : rstrip s = EmptyString -> allspace s = true.
Proof.
  induction s as [|c s IH]; cbn [allspace rstrip]; [reflexivity|].
  destruct (rstrip s); [|discriminate].
  destruct (isspace c); [auto | discriminate].
Qed.

Lemma lstrip_suffix_allspace s :
  allspace (lstrip s) = true -> allspace s = true.
Proof.
  induction s as [|c s IH]; cbn [allspace lstrip]; [reflexivity|].
  destruct (isspace c) eqn:Hc; [exact IH|].
  cbn [allspace]. rewrite Hc. discriminate.
Qed.

(** [strip] leaves nothing exactly of the texts that are all white
    space. *)
Lemma strip_empty s : strip s = EmptyString <-> allspace s = true.
Proof.
  unfold strip. split.
  - intros Hs. apply lstrip_suffix_allspace, rstrip_empty_allspace, Hs.
  - intros Hs. rewrite (allspace_lstrip _ Hs). reflexivity.
Qed.


Lemma last_snoc_top (stack : list bool) (b : bool) :
  DailyMail.top (stack ++ [b]) = b.
Proof. unfold DailyMail.top. rewrite last_snoc. reflexivity. Qed.

Lemma pop_snoc {A} (l : list A) (x : A) : pop (l ++ [x]) = Ok l.
Proof. unfold pop. rewrite last_snoc, removelast_last. reflexivity. Qed.

Lemma pop_nonnil {A} (l : list A) :
  nonnil l = true -> pop l = Ok (removelast l).
Proof.
  intros Hl. unfold pop. destruct (last l) eqn:E; [reflexivity|].
  apply last_None in E. subst l. discriminate.
Qed.

Section DailyMailTotal.
Context `{PyLib}.
Import DailyMail.

Lemma descriptor_total bits : exists w d, descriptor bits = Ok (w, d).
Proof.
  unfold descriptor. destruct bits as [|b0 [|b1 bits]]; [eauto | eauto |].
  destruct (endswith (lower b1) "w").
  - destruct (py_int_cases (drop_last (lower b1))) as [[n ->]| ->];
      simpl; eauto.
  - destruct (endswith (lower b1) "x"); [|eauto].
    unfold py_float. destruct (float_of_str _); simpl; eauto.
Qed.

(** [_parse_srcset] returns on every text: the first field it indexes
    exists, and both conversions are guarded. *)
Lemma parse_part_total out part : exists out', parse_part out part = Ok out'.
Proof.
  unfold parse_part. destruct (nonempty (strip part)) eqn:Hne; [|eauto].
  destruct (split_strip_cons part Hne) as (u & rest & ->).
  destruct (descriptor_total (u :: rest)) as (w & d & ->). simpl. eauto.
Qed.

Lemma parse_srcset_total srcset : exists l, _parse_srcset srcset = Ok l.
Proof.
  unfold _parse_srcset. destruct (nonempty srcset); [|eauto].
  destruct (foldM_total parse_part (fun _ => True) (split_on "," srcset))
    with (acc := @nil candidate) as (l & Hl & _); [|exact I|eauto].
  intros b x _. destruct (parse_part_total b x) as [b' Hb]. eauto.
Qed.

Lemma with_hint_nil {A} (hint : candidate -> option A) l :
  with_hint hint l = [] -> Forall (fun c => hint c = None) l.
Proof.
  induction l as [|c l IH]; cbn [with_hint]; [constructor|].
  destruct (hint c) eqn:Hc; intros Hl; [discriminate Hl|].
  constructor; auto.
Qed.

(** [_pick_largest] resolves the address of one candidate of a
    non-empty list: each [max] runs on a non-empty list, and only
    [urljoin] can raise. *)
Lemma pick_largest_total candidates base_url :
  candidates <> [] ->
  exists c, c ∈ candidates
    /\ _pick_largest candidates base_url
       = Some <$> py_urljoin base_url (url c).
Proof.
  intros Hne. unfold _pick_largest.
  destruct candidates as [|c0 cs]; [congruence|]. cbn [nonnil].
  assert (Hmax : forall {A K} (gt : K -> K -> bool) (key : A -> K) l b,
            max_from gt key b l ∈ b :: l).
  { intros A K gt key l. induction l as [|x l IH]; intros b; cbn [max_from].
    - left.
    - destruct (gt (key x) (key b)).
      + right. apply IH.
      + specialize (IH b). apply elem_of_cons in IH as [->|IH];
          [left | right; right; exact IH]. }
  assert (Hin : forall {A} (hint : candidate -> option A) l p,
            p ∈ with_hint hint l -> p.1 ∈ l).
  { intros A hint l p. induction l as [|c l IH]; cbn [with_hint].
    - intros Hp. by apply elem_of_nil in Hp.
    - destruct (hint c).
      + intros Hp. apply elem_of_cons in Hp as [->|Hp];
          [left | right; auto].
      + intros Hp. right. auto. }
  destruct (with_hint width (c0 :: cs)) as [|p ps] eqn:Hw; cbn [nonnil].
  - destruct (with_hint density (c0 :: cs)) as [|p ps] eqn:Hx; cbn [nonnil].
    + cbn [map max_key]. rewrite bind_Ok.
      pose proof (Hmax _ _ Z.gtb _score_url (map url cs) (url c0)) as Hm.
      change (url c0 :: map url cs) with (map url (c0 :: cs)) in Hm.
      apply list_elem_of_fmap in Hm as (c & Hc & Hin').
      exists c. split; [exact Hin'|]. rewrite <- Hc. reflexivity.
    + cbn [max_key]. rewrite bind_Ok. eexists. split; [|reflexivity].
      apply (Hin _ density). rewrite Hx. apply Hmax.
  - cbn [max_key]. rewrite bind_Ok. eexists. split; [|reflexivity].
    apply (Hin _ width). rewrite Hw. apply Hmax.
Qed.

Lemma img_candidates_total st a : exists l, img_candidates st a = Ok l.
Proof.
  unfold img_candidates.
  match goal with |- context [foldM ?f ?c0 ?keys] =>
    destruct (foldM_total f (fun _ => True) keys) with (acc := c0)
      as (c1 & -> & _); [|exact I|]
  end.
  - intros b key _. destruct (truthy (get a key)); [|eauto].
    destruct (parse_srcset_total (or_empty (get a key))) as [l ->].
    simpl. eauto.
  - simpl. eauto.
Qed.

(** The image branch of the Daily Mail handler raises exactly when the
    selected address does not resolve: the tag is an [img] in a
    wrapper, it has candidates, and [urljoin] refuses the address of
    the one [_pick_largest] selects. *)
Definition unresolved (base_url : string) (st : state) (e : event) : Prop :=
  exists tag attrs cands c,
    e = StartTag tag attrs
    /\ String.eqb (lower tag) "img" = true
    /\ top (stack_in_wrap st) = true
    /\ img_candidates st (dict attrs) = Ok cands
    /\ c ∈ cands
    /\ _pick_largest cands base_url = Some <$> py_urljoin base_url (url c)
    /\ urljoin base_url (url c) = None.

(** A Daily Mail handler returns, having only appended to [imgs], or
    raises [ValueError] for an address that does not resolve; no [pop],
    index or [max] meets an empty list. *)
Lemma step_total base_url st e :
  (exists st', step base_url st e = Ok st'
     /\ exists more, imgs st' = imgs st ++ more)
  \/ (step base_url st e = Raise ValueError /\ unresolved base_url st e).
Proof.
  assert (Hsame : exists more, imgs st = imgs st ++ more)
    by (exists []; by rewrite app_nil_r).
  destruct e as [tag attrs|tag|data]; cbn [step]; [| |eauto].
  - unfold handle_starttag. cbv zeta.
    destruct (String.eqb (lower tag) "div"); [eauto|].
    destruct (String.eqb (lower tag) "picture"); [eauto|].
    destruct (String.eqb (lower tag) "source" && top (stack_in_picture st)).
    { destruct (truthy _); [|eauto].
      match goal with |- context [_parse_srcset ?s] =>
        destruct (parse_srcset_total s) as [l ->] end.
      simpl. eauto. }
    destruct (String.eqb (lower tag) "img") eqn:Eimg; [|eauto].
    destruct (top (stack_in_wrap st)) eqn:Etop; [|eauto].
    destruct (img_candidates_total st (dict attrs)) as [l Hl0]. rewrite Hl0.
    rewrite bind_Ok.
    destruct (nonnil l) eqn:Hl; [|eauto].
    apply nonnil_true in Hl.
    destruct (pick_largest_total l base_url Hl) as (c & Hc & Hpick).
    rewrite Hpick. unfold py_urljoin.
    destruct (urljoin base_url (url c)) as [r|] eqn:Hjoin.
    + left. cbn [fmap result_fmap mbind result_bind].
      destruct (truthy (Some r)); eauto.
    + right. split; [reflexivity|].
      exists tag, attrs, l, c. auto 10.
  - unfold handle_endtag. cbv zeta.
    destruct (String.eqb (lower tag) "div").
    { destruct (nonnil (stack_in_wrap st)) eqn:Hs; [|eauto].
      rewrite (pop_nonnil _ Hs). simpl. eauto. }
    destruct (String.eqb (lower tag) "picture"); [|eauto].
    destruct (nonnil (stack_in_picture st)) eqn:Hs;
      [rewrite (pop_nonnil _ Hs)|]; simpl; eauto.
Qed.

(** A run returns, having only appended to [imgs], or raises
    [ValueError] at a token whose selected address does not resolve. *)
Lemma feed_total base_url events : forall st,
  (exists st', feed base_url st events = Ok st'
     /\ exists more, imgs st' = imgs st ++ more)
  \/ (feed base_url st events = Raise ValueError
      /\ exists pre e rest st1,
           events = pre ++ e :: rest
           /\ feed base_url st pre = Ok st1
           /\ unresolved base_url st1 e).
Proof.
  unfold feed. induction events as [|e events IH]; intros st; cbn [foldM].
  - left. exists st. split; [reflexivity|]. exists []. by rewrite app_nil_r.
  - destruct (step_total base_url st e) as [(st1 & Hstep & more1 & H1)|[Hstep He]].
    + rewrite Hstep, bind_Ok.
      destruct (IH st1) as [(st2 & -> & more2 & H2)
                           |(-> & pre & e' & rest & st2 & -> & Hpre & He')].
      * left. exists st2. split; [reflexivity|]. exists (more1 ++ more2).
        rewrite H2, H1, app_assoc. reflexivity.
      * right. split; [reflexivity|].
        exists (e :: pre), e', rest, st2. split; [reflexivity|].
        split; [|exact He']. cbn [foldM]. rewrite Hstep, bind_Ok. exact Hpre.
    + rewrite Hstep. right. split; [reflexivity|].
      exists [], e, events, st. auto.
Qed.

End DailyMailTotal.

Section GuardianCounters.
Context `{PyLib}.
Import Guardian.

(** No counter is negative. *)
Definition counters_nonneg (st : state) : Prop :=
  0 <= in_main st /\ 0 <= in_article st /\ 0 <= in_lightbox st
  /\ 0 <= in_figure st /\ 0 <= in_picture st /\ 0 <= in_noscript st.

(** The counters of two states agree. *)
Definition same_counters (st st' : state) : Prop :=
  in_main st' = in_main st /\ in_article st' = in_article st
  /\ in_lightbox st' = in_lightbox st /\ in_figure st' = in_figure st
  /\ in_picture st' = in_picture st /\ in_noscript st' = in_noscript st.

Lemma on_pos n : on n = true -> 0 <= n -> 1 <= n.
Proof. unfold on. intros Hon Hn. apply negb_true_iff, Z.eqb_neq in Hon. lia. Qed.

(** [_consider] returns unless [urljoin] refuses the address:
    [upgrade_guardian_url] parses an address that [keep_guardian_cdn]
    has parsed before.  It leaves the counters and the picture's
    candidate alone and only appends to [images]. *)
Lemma consider_total base st url :
  (exists st', _consider base st url = Ok st'
     /\ same_counters st st' /\ picture_best st' = picture_best st
     /\ exists more, images st' = images st ++ more)
  \/ (_consider base st url = Raise ValueError
      /\ urljoin base (or_empty url) = None).
Proof.
  assert (Hsame : exists st', Ok st = Ok st'
    /\ same_counters st st' /\ picture_best st' = picture_best st
    /\ exists more, images st' = images st ++ more).
  { exists st. repeat split. exists []. by rewrite app_nil_r. }
  unfold _consider. destruct (truthy url); [|left; exact Hsame].
  unfold py_urljoin.
  destruct (urljoin base (or_empty url)) as [r|]; [|right; by split].
  left. rewrite bind_Ok.
  destruct (startswith r "http://" || startswith r "https://");
    [|exact Hsame].
  destruct (keep_guardian_cdn r) eqn:Hkeep; [|exact Hsame].
  unfold keep_guardian_cdn in Hkeep. unfold upgrade_guardian_url.
  destruct (urlparse r) as [p|]; [|discriminate].
  match goal with |- context [mbind _ ?m] =>
    assert (exists v, m = Ok v) as [v ->]
  end.
  { destruct (negb (contains r "i.guim.co.uk")); [eauto|].
    destruct (contains (lower (query p)) "s="); eauto. }
  rewrite bind_Ok. case_bool_decide; [exact Hsame|].
  eexists. split; [reflexivity|]. repeat split. simpl. eauto.
Qed.

(** What [_consider] leaves alone, when it returns. *)
Lemma consider_Ok base st url st' :
  _consider base st url = Ok st' ->
  same_counters st st' /\ picture_best st' = picture_best st
  /\ exists more, images st' = images st ++ more.
Proof.
  intros Hc. destruct (consider_total base st url)
    as [(st1 & Hst1 & Hprops)|[Hr _]]; [|congruence].
  rewrite Hc in Hst1. injection Hst1 as <-. exact Hprops.
Qed.

End GuardianCounters.

End Regions.

(** * The Guardian counters *)

Module Counters.
Import Py Lib Re PyFacts Regions.

Ltac break_ifs :=
  repeat match goal with
  | |- context [if ?b then _ else _] => destruct b
  end.

Section Facts.
Context `{PyLib}.
Import Guardian.

Lemma open_regions_nonneg st tag a :
  counters_nonneg st -> counters_nonneg (open_regions st tag a).
Proof.
  unfold counters_nonneg, open_regions. intros Hst.
  break_ifs; simpl; lia.
Qed.

Lemma open_regions_images st tag a :
  images (open_regions st tag a) = images st
  /\ _seen (open_regions st tag a) = _seen st.
Proof. unfold open_regions. break_ifs; split; reflexivity. Qed.

(** The selection among the parts of a srcset returns or raises
    [ValueError]: for a number [int] refuses, or an address [urljoin]
    refuses. *)
Lemma best_loop_cases base parts : forall b n,
  (exists r, best_loop base parts b n = Ok r)
  \/ best_loop base parts b n = Raise ValueError.
Proof.
  induction parts as [|part parts IH]; intros b n; cbn [best_loop]; [eauto|].
  destruct (CANDIDATE_match part) as [[[u d] unit]|].
  - destruct (py_int_cases d) as [[size ->]| ->]; [|by right].
    rewrite bind_Ok. destruct (size >? n); [|apply IH].
    unfold py_urljoin. destruct (urljoin base u); [|by right].
    rewrite bind_Ok. apply IH.
  - cbv zeta. destruct (nonempty (strip part)); [|apply IH].
    unfold py_urljoin. destruct (urljoin base (strip part)); cbn; eauto.
Qed.

Lemma best_from_srcset_cases srcset base :
  (exists r, best_from_srcset srcset base = Ok r)
  \/ best_from_srcset srcset base = Raise ValueError.
Proof.
  unfold best_from_srcset. destruct (nonempty srcset); [|eauto].
  apply best_loop_cases.
Qed.

Lemma pick_from_attrs_cases base a :
  (exists r, _pick_from_attrs base a = Ok r)
  \/ _pick_from_attrs base a = Raise ValueError.
Proof.
  unfold _pick_from_attrs.
  assert (Hf : forall l,
    (exists r, first_ofM (fun k =>
       if truthy (get a k) then
         u ← best_from_srcset (or_empty (get a k)) base;
         Ok (if truthy u then u else None)
       else Ok None) l = Ok r)
    \/ first_ofM (fun k =>
       if truthy (get a k) then
         u ← best_from_srcset (or_empty (get a k)) base;
         Ok (if truthy u then u else None)
       else Ok None) l = Raise ValueError).
  { induction l as [|k l IH]; cbn [first_ofM]; [eauto|].
    destruct (truthy (get a k)).
    - destruct (best_from_srcset_cases (or_empty (get a k)) base)
        as [[u ->]| ->]; [|by right].
      rewrite !bind_Ok. destruct (if truthy u then u else None); eauto.
    - rewrite bind_Ok. exact IH. }
  destruct (Hf ["srcset"; "data-srcset"]) as [[r ->]| ->]; [|by right].
  rewrite bind_Ok. destruct r; [eauto|].
  destruct (first_of _ _); eauto.
Qed.

(** [capture] returns, the counters as they were and [images] only
    appended to, or raises [ValueError]. *)
Lemma capture_total base st tag a :
  (exists st' r, capture base st tag a = Ok (st', r)
     /\ same_counters st st'
     /\ exists more, images st' = images st ++ more)
  \/ capture base st tag a = Raise ValueError.
Proof.
  assert (Hsame : forall r : bool, exists st' r', Ok (st, r) = Ok (st', r')
    /\ same_counters st st' /\ exists more, images st' = images st ++ more).
  { intros r. exists st, r. repeat split. exists []. by rewrite app_nil_r. }
  unfold capture.
  destruct (in_scope st && bool_decide (tag ∈ ["img"; "source"]));
    [|left; apply Hsame].
  destruct (pick_from_attrs_cases base a) as [[[u sz] ->]| ->]; [|by right].
  rewrite bind_Ok. cbn [fst]. cbv zeta.
  destruct (truthy u); [|left; apply Hsame].
  destruct (on (in_picture st)).
  - left. destruct (picture_best st) as [[u' hint]|].
    + destruct (_ >? hint); [|apply Hsame].
      eexists _, _. split; [reflexivity|]. repeat split.
      exists []. by rewrite app_nil_r.
    + eexists _, _. split; [reflexivity|]. repeat split.
      exists []. by rewrite app_nil_r.
  - destruct (consider_total base st u) as [(st' & -> & Hc & _ & Hi)|[-> _]];
      [|by right].
    left. rewrite bind_Ok. eauto.
Qed.

Lemma capture_Ok base st tag a st' r :
  capture base st tag a = Ok (st', r) ->
  same_counters st st' /\ exists more, images st' = images st ++ more.
Proof.
  intros Hc. destruct (capture_total base st tag a)
    as [(st1 & r1 & H1 & Hprops)|Hr]; [|congruence].
  rewrite Hc in H1. injection H1 as <- <-. exact Hprops.
Qed.

(** A Guardian handler returns or raises [ValueError] or, in the style
    block, [TypeError]. *)
Lemma step_cases base st e :
  (exists st', step base st e = Ok st')
  \/ step base st e = Raise ValueError
  \/ step base st e = Raise TypeError.
Proof.
  destruct e as [tag attrs|tag|data]; cbn [step].
  - unfold handle_starttag. cbv zeta.
    destruct (capture_total base (open_regions st tag (dict attrs)) tag
                (dict attrs)) as [(st1 & r & -> & _)| ->]; [|auto].
    rewrite bind_Ok. cbn [fst snd]. destruct r; [eauto|].
    unfold style_image. destruct (in_scope st1); [|eauto].
    destruct (dict attrs !! "style") as [[style|]|]; [|auto|eauto].
    destruct (style_search style) as [g|]; [|eauto].
    destruct (consider_total base st1 (Some g)) as [(st2 & -> & _)|[-> _]];
      eauto.
  - unfold handle_endtag.
    destruct (String.eqb tag "picture" && on (in_picture st)).
    + unfold _commit_picture_best. destruct (picture_best st) as [[u hint]|].
      * destruct (consider_total base st (Some u)) as [(st1 & -> & _)|[-> _]];
          [|auto].
        rewrite !bind_Ok. eauto.
      * rewrite !bind_Ok. eauto.
    + rewrite bind_Ok. eauto.
  - unfold handle_data.
    destruct (in_scope st && on (in_noscript st) && nonempty (strip data));
      [|eauto].
    cbv zeta. generalize (img_finditer 0 (html_unescape data)). intros l.
    revert st. induction l as [|g l IH]; intros st; cbn [foldM]; [eauto|].
    destruct (consider_total base st (Some g)) as [(st1 & -> & _)|[-> _]];
      [|auto].
    rewrite bind_Ok. apply IH.
Qed.

(** A Guardian run returns or raises [ValueError] or [TypeError]. *)
Lemma feed_cases base events : forall st,
  (exists st', feed base st events = Ok st')
  \/ feed base st events = Raise ValueError
  \/ feed base st events = Raise TypeError.
Proof.
  unfold feed. induction events as [|e events IH]; intros st; cbn [foldM];
    [eauto|].
  destruct (step_cases base st e) as [[st1 ->]|[-> | ->]]; auto.
  rewrite bind_Ok. apply IH.
Qed.

(** The Guardian handlers keep every counter at zero or above: each
    decrement is guarded by the counter being non-zero. *)
Lemma step_nonneg base st e st' :
  counters_nonneg st -> step base st e = Ok st' -> counters_nonneg st'.
Proof.
  intros Hst. destruct e as [tag attrs|tag|data]; cbn [step].
  - unfold handle_starttag. cbv zeta.
    pose proof (open_regions_nonneg st tag (dict attrs) Hst) as H1.
    destruct (capture base (open_regions st tag (dict attrs)) tag
                (dict attrs)) as [[st1 r]|] eqn:Hcap; [|discriminate].
    apply capture_Ok in Hcap as [Hc _].
    rewrite bind_Ok. cbn [fst snd].
    assert (H2 : counters_nonneg st1).
    { unfold counters_nonneg, same_counters in *.
      destruct Hc as (-> & -> & -> & -> & -> & ->). exact H1. }
    destruct r; [intros [= <-]; exact H2|].
    unfold style_image. destruct (in_scope st1); [|intros [= <-]; exact H2].
    destruct (dict attrs !! "style") as [[style|]|];
      [|discriminate|intros [= <-]; exact H2].
    destruct (style_search style) as [g|]; [|intros [= <-]; exact H2].
    intros Hcons. apply consider_Ok in Hcons as [Hc2 _].
    unfold counters_nonneg, same_counters in *.
    destruct Hc2 as (-> & -> & -> & -> & -> & ->). exact H2.
  - unfold handle_endtag.
    destruct (if String.eqb tag "picture" && on (in_picture st)
              then st' ← _commit_picture_best base st;
                   Ok (set_in_picture st' (in_picture st' - 1))
              else Ok st) as [st1|] eqn:Hpic; [|discriminate].
    assert (H1 : counters_nonneg st1).
    { destruct (String.eqb tag "picture" && on (in_picture st)) eqn:Hp;
        [|injection Hpic as <-; exact Hst].
      apply andb_true_iff in Hp as [_ Hp].
      unfold _commit_picture_best in Hpic.
      destruct (picture_best st) as [[u hint]|].
      - destruct (_consider base st (Some u)) as [st2|] eqn:Hcons;
          [|discriminate].
        apply consider_Ok in Hcons as [Hc _].
        rewrite !bind_Ok in Hpic. injection Hpic as <-.
        unfold counters_nonneg, same_counters in *.
        destruct Hc as (Hc1 & Hc2 & Hc3 & Hc4 & Hc5 & Hc6).
        pose proof (on_pos _ Hp). simpl. lia.
      - rewrite bind_Ok in Hpic. injection Hpic as <-.
        unfold counters_nonneg in *.
        pose proof (on_pos _ Hp). simpl. lia. }
    rewrite bind_Ok. intros [= <-]. clear Hst Hpic.
    unfold counters_nonneg in *.
    repeat match goal with
    | |- context [if ?b && on ?n then _ else _] =>
        let E := fresh "E" in
        destruct b; cbn [andb];
        [destruct (on n) eqn:E; [pose proof (on_pos _ E); clear E|clear E]|]
    end; simpl in *; lia.
  - unfold handle_data.
    destruct (in_scope st && on (in_noscript st) && nonempty (strip data));
      [|intros [= <-]; exact Hst].
    generalize (img_finditer 0 (html_unescape data)). intros l.
    revert st Hst. induction l as [|g l IH]; intros st Hst; cbn [foldM].
    + intros [= <-]; exact Hst.
    + destruct (_consider base st (Some g)) as [st1|] eqn:Hcons;
        [|discriminate].
      apply consider_Ok in Hcons as [Hc _].
      rewrite bind_Ok. apply IH.
      unfold counters_nonneg, same_counters in *.
      destruct Hc as (-> & -> & -> & -> & -> & ->). exact Hst.
Qed.

(** In every state a run reaches from the start, no counter is
    negative. *)
Lemma feed_nonneg base events : forall st st',
  counters_nonneg st -> feed base st events = Ok st' -> counters_nonneg st'.
Proof.
  unfold feed. induction events as [|e events IH]; intros st st' Hst;
    cbn [foldM].
  - intros [= <-]. exact Hst.
  - destruct (step base st e) as [st1|] eqn:Hstep; [|discriminate].
    rewrite bind_Ok. apply IH. eapply step_nonneg; eassumption.
Qed.

End Facts.

(** C5 at a lightbox that holds a caption [div] before its image: the
    end tag of the caption takes the lightbox counter back to zero, the
    image that follows is taken to be outside and is dropped, and the
    end tag of the lightbox itself finds nothing to close.  With the
    caption after the image, the image is collected. *)
Lemma lightbox_closed_by_inner_div :
  let base := "https://www.theguardian.com/world/2024/x" in
  let box := StartTag "div" [("id", Some "gu-lightbox"); ("role", Some "dialog")] in
  let caption := [StartTag "div" [("class", Some "caption")]; EndTag "div"] in
  let img := StartTag "img"
    [("src", Some "https://i.guim.co.uk/img/media/a.jpg?width=300&s=0a1b")] in
  (Guardian.in_lightbox <$>
     @Guardian.feed Plain.lib base Guardian.init (box :: caption)) = Ok 0
  /\ @Guardian.extract_guardian_images Plain.lib base
       (box :: caption ++ [img; EndTag "div"]) = Ok []
  /\ @Guardian.extract_guardian_images Plain.lib base
       (box :: img :: caption ++ [EndTag "div"])
     = Ok ["https://i.guim.co.uk/img/media/a.jpg?width=300&s=0a1b"].
Proof. intros. repeat split; vm_compute; reflexivity. Qed.

(** C10 at an [img] tag of a lightbox that has a background image in
    its style and no [src]: the handler returns before it looks at the
    style, and nothing is collected; the same style on a [span] is
    collected. *)
Lemma style_skipped_on_img_without_src :
  let base := "https://www.theguardian.com/world/2024/x" in
  let box := StartTag "div" [("id", Some "gu-lightbox")] in
  let style := ("style", Some
    "background-image:url(https://i.guim.co.uk/img/media/a.jpg?width=300&s=0a1b)") in
  @Guardian.extract_guardian_images Plain.lib base
    [box; StartTag "img" [style]] = Ok []
  /\ @Guardian.extract_guardian_images Plain.lib base
       [box; StartTag "span" [style]]
     = Ok ["https://i.guim.co.uk/img/media/a.jpg?width=300&s=0a1b"].
Proof. intros. split; vm_compute; reflexivity. Qed.

End Counters.

(** * The candidate parsers *)

Module Parsers.
Import Py Lib Re PyFacts Regions.

Section Facts.
Context `{PyLib}.
Import DailyMail.

(** Following the specification: an integer width from the text before
    a final [w], no hint when the text is no integer. *)
Definition spec_width (number : string) : option Z :=
  match py_int number with
  | Ok n => Some n
  | Raise _ => None
  end.

(** Following the specification: the hints of a token by its suffix,
    the second white-space field in lower case. *)
Definition spec_hints (suffix : option string) : option Z * option float :=
  match suffix with
  | Some sfx =>
      if endswith (lower sfx) "w"
      then (spec_width (drop_last (lower sfx)), None)
      else if endswith (lower sfx) "x"
      then (None, float_of_str (drop_last (lower sfx)))
      else (None, None)
  | None => (None, None)
  end.

(** Following the specification: the candidate of one comma-delimited
    token, none for a token that is empty or white space. *)
Definition spec_token (part : string) : option candidate :=
  match split (strip part) with
  | [] => None
  | u :: rest =>
      let '(w, d) := spec_hints (head rest) in Some (u, w, d)
  end.

(** Following the specification: the candidates of a descriptor text,
    token by token in the order of the text. *)
Definition spec_parse (srcset : string) : list candidate :=
  omap spec_token (split_on "," srcset).

Lemma descriptor_spec u rest :
  descriptor (u :: rest) = Ok (spec_hints (head rest)).
Proof.
  unfold descriptor, spec_hints. destruct rest as [|b1 rest]; [reflexivity|].
  cbn [head]. destruct (endswith (lower b1) "w").
  - unfold spec_width.
    destruct (py_int_cases (drop_last (lower b1))) as [[n ->]| ->];
      reflexivity.
  - destruct (endswith (lower b1) "x"); [|reflexivity].
    unfold py_float. destruct (float_of_str _); reflexivity.
Qed.

Lemma parse_part_spec out part :
  parse_part out part = Ok (out ++ option_list (spec_token part)).
Proof.
  unfold parse_part, spec_token.
  destruct (nonempty (strip part)) eqn:Hne.
  - destruct (split_strip_cons part Hne) as (u & rest & ->).
    cbn [index0]. rewrite bind_Ok, descriptor_spec, bind_Ok.
    destruct (spec_hints (head rest)) as [w d]. reflexivity.
  - destruct (strip part); [|discriminate].
    cbn [split split_go option_list]. by rewrite app_nil_r.
Qed.

Lemma parse_loop_spec parts : forall out,
  foldM parse_part out parts = Ok (out ++ omap spec_token parts).
Proof.
  induction parts as [|part parts IH]; intros out; cbn [foldM].
  - by rewrite app_nil_r.
  - rewrite parse_part_spec, bind_Ok, IH, <- app_assoc. f_equal. f_equal.
    simpl. destruct (spec_token part); reflexivity.
Qed.

Lemma split_on_allspace s :
  allspace s = true -> split_on "," s = [s].
Proof.
  induction s as [|c s IH]; cbn [split_on allspace]; [reflexivity|].
  intros Hs. apply andb_true_iff in Hs as [Hc Hs]. rewrite (IH Hs).
  destruct (Ascii.eqb c ",") eqn:E; [|reflexivity].
  apply Ascii.eqb_eq in E. subst c. discriminate Hc.
Qed.

(** The Daily Mail parser returns, for every text, the candidates of
    its comma-delimited tokens in the order of the text: the first
    white-space field is the address, a second field ending in w gives
    an integer width, one ending in x a float density, and a field that
    is missing or does not convert gives no hint; a text that is empty
    or white space gives no candidate, and no text makes it raise. *)
Lemma parse_srcset_spec (srcset : string) :
  _parse_srcset srcset = Ok (spec_parse srcset)
  /\ (allspace srcset = true -> _parse_srcset srcset = Ok []).
Proof.
  assert (Hparse : _parse_srcset srcset = Ok (spec_parse srcset)).
  { unfold _parse_srcset, spec_parse. destruct srcset as [|c s]; [reflexivity|].
    cbn [nonempty]. apply parse_loop_spec. }
  split; [exact Hparse|].
  intros Hs. rewrite Hparse. unfold spec_parse.
  rewrite (split_on_allspace _ Hs). unfold spec_token. simpl.
  apply strip_empty in Hs. rewrite Hs. reflexivity.
Qed.

End Facts.

(** C4 at the text [a.jpg 1.5x, b.jpg 2x].  The Daily Mail parser makes
    two candidates of it, with densities 1.5 and 2, and its selector
    takes the second.  In the Guardian script the pattern of a
    candidate accepts digits only before the unit, so the first part is
    no candidate: [best_from_srcset] returns at once with the whole
    part, suffix included, resolved as an address, and never looks at
    the second part.  With the density written [1x] the same text gives
    the second address.  An image of a lightbox with such a text is
    dropped by the host filter or collected under an address that names
    no image. *)
Lemma srcset_fraction_taken_whole :
  let base := "https://www.theguardian.com/world/2024/x" in
  let srcset := "a.jpg 1.5x, b.jpg 2x" in
  let cdn := "https://i.guim.co.uk/img/media/" in
  let box := StartTag "div" [("id", Some "gu-lightbox")] in
  @DailyMail._parse_srcset Plain.lib srcset
  = Ok [("a.jpg", None, Some (Plain.Dec 15 1));
        ("b.jpg", None, Some (Plain.Dec 2 0))]
  /\ (@DailyMail._parse_srcset Plain.lib srcset
        ≫= fun cands => @DailyMail._pick_largest Plain.lib cands base)
     = Ok (Some "https://www.theguardian.com/world/2024/b.jpg")
  /\ CANDIDATE_match "a.jpg 1.5x" = None
  /\ @Guardian.best_from_srcset Plain.lib srcset base
     = Ok (Some "https://www.theguardian.com/world/2024/a.jpg 1.5x")
  /\ @Guardian.best_from_srcset Plain.lib "a.jpg 1x, b.jpg 2x" base
     = Ok (Some "https://www.theguardian.com/world/2024/b.jpg")
  /\ @Guardian.extract_guardian_images Plain.lib base
       [box; StartTag "img"
          [("srcset", Some (cdn +:+ "a.jpg?s=0a 1.5x, " +:+ cdn
                            +:+ "b.jpg?s=0b 2x"))]]
     = Ok ["https://i.guim.co.uk/img/media/a.jpg?s=0a 1.5x"].
Proof. intros. repeat split; vm_compute; reflexivity. Qed.

End Parsers.
(** * Region scoping of image tags *)

Module Scoping.
Import Py Lib Re PyFacts Regions.

Section DailyMailFacts.
Context `{PyLib}.
Import DailyMail.

Lemma dedup_go_elem (l : list string) : forall (seen : gset string) out x,
  (forall y, y ∈ seen <-> y ∈ out) ->
  x ∈ (fold_left (fun '(seen, out) u =>
         if bool_decide (u ∈ (seen : gset string)) then (seen, out)
         else ({[u]} ∪ seen, out ++ [u])) l (seen, out)).2
  <-> x ∈ out \/ x ∈ l.
Proof.
  induction l as [|u l IH]; intros seen out x Hinv; cbn [fold_left].
  - simpl. split; [auto|]. intros [Hx|Hx]; [exact Hx|by apply elem_of_nil in Hx].
  - case_bool_decide as Hu.
    + rewrite (IH seen out x Hinv). rewrite elem_of_cons.
      split; [tauto|]. intros [Hx|[->|Hx]]; [tauto| |tauto].
      left. apply Hinv, Hu.
    + rewrite (IH ({[u]} ∪ seen) (out ++ [u]) x).
      * rewrite elem_of_app, (elem_of_cons l), list_elem_of_singleton. tauto.
      * intros y. rewrite elem_of_union, elem_of_singleton, elem_of_app,
          list_elem_of_singleton, Hinv. tauto.
Qed.

(** The loop that removes repeats keeps exactly the members. *)
Lemma elem_of_dedup (l : list string) (x : string) : x ∈ dedup l <-> x ∈ l.
Proof.
  unfold dedup. rewrite dedup_go_elem.
  - split; [intros [Hx|Hx]; [by apply elem_of_nil in Hx|exact Hx]|auto].
  - intros y. split; intros Hy; [by apply not_elem_of_empty in Hy
                                 |by apply elem_of_nil in Hy].
Qed.

Lemma img_outside base_url st attrs :
  top (stack_in_wrap st) = false ->
  handle_starttag base_url st "img" attrs = Ok st.
Proof.
  intros Htop. unfold handle_starttag.
  change (lower "img") with "img". cbv zeta.
  change (String.eqb "img" "div") with false.
  change (String.eqb "img" "picture") with false.
  change (String.eqb "img" "source") with false.
  change (String.eqb "img" "img") with true. cbn [andb].
  rewrite Htop. reflexivity.
Qed.

(** The loop over the plain attributes keeps what it has and adds the
    value of every attribute that is set. *)
Lemma plain_candidates a keys : forall c1 : list candidate,
  let out := fold_left (fun cands key =>
               if truthy (get a key)
               then cands ++ [(or_empty (get a key), None, None)]
               else cands) keys c1 in
  c1 ⊆ out
  /\ forall key, key ∈ keys -> truthy (get a key) = true ->
       (or_empty (get a key), None, None) ∈ out.
Proof.
  induction keys as [|k keys IH]; intros c1; cbn [fold_left]; cbv zeta.
  - split; [done|]. intros key Hk. by apply elem_of_nil in Hk.
  - match goal with |- context [fold_left ?f keys ?c] =>
      destruct (IH c) as [Hsub Hkeys]
    end.
    cbv zeta in Hsub, Hkeys. split.
    + intros x Hx. apply Hsub. destruct (truthy (get a k)); [|exact Hx].
      apply elem_of_app. by left.
    + intros key Hk Ht. apply elem_of_cons in Hk as [->|Hk]; [|auto].
      apply Hsub. rewrite Ht. apply elem_of_app. right.
      by apply list_elem_of_singleton.
Qed.

(** The loop over the srcset attributes returns; it keeps what it has
    and adds the candidates of every attribute that is set. *)
Lemma srcset_candidates a keys : forall c0 : list candidate,
  exists c1,
    foldM (fun cands key =>
             if truthy (get a key) then
               more ← _parse_srcset (or_empty (get a key)); Ok (cands ++ more)
             else Ok cands) c0 keys = Ok c1
    /\ c0 ⊆ c1
    /\ forall key, key ∈ keys -> truthy (get a key) = true ->
         exists l, _parse_srcset (or_empty (get a key)) = Ok l /\ l ⊆ c1.
Proof.
  induction keys as [|k keys IH]; intros c0; cbn [foldM].
  - exists c0. split; [reflexivity|]. split; [done|].
    intros key Hk. by apply elem_of_nil in Hk.
  - destruct (truthy (get a k)) eqn:Ht.
    + destruct (parse_srcset_total (or_empty (get a k))) as [l Hl].
      rewrite Hl, !bind_Ok.
      destruct (IH (c0 ++ l)) as (c1 & -> & Hsub & Hkeys).
      exists c1. split; [reflexivity|]. split.
      * intros x Hx. apply Hsub, elem_of_app. by left.
      * intros key Hk Hkt. apply elem_of_cons in Hk as [->|Hk]; [|auto].
        exists l. split; [exact Hl|].
        intros x Hx. apply Hsub, elem_of_app. by right.
    + rewrite bind_Ok. destruct (IH c0) as (c1 & -> & Hsub & Hkeys).
      exists c1. split; [reflexivity|]. split; [exact Hsub|].
      intros key Hk Hkt. apply elem_of_cons in Hk as [->|Hk]; [|auto].
      congruence.
Qed.

(** The candidates of an [img] tag: the value of every plain attribute
    that is set, and the candidates of every srcset attribute that is
    set. *)
Lemma img_candidates_spec st a :
  exists cands,
    img_candidates st a = Ok cands
    /\ (forall key, key ∈ ["data-src"; "data-original"; "data-image"; "src"] ->
        truthy (get a key) = true ->
        (or_empty (get a key), None, None) ∈ cands)
    /\ (forall key, key ∈ ["srcset"; "data-srcset"] ->
        truthy (get a key) = true ->
        exists l, _parse_srcset (or_empty (get a key)) = Ok l /\ l ⊆ cands).
Proof.
  unfold img_candidates. cbv zeta.
  match goal with |- context [foldM _ ?c0 ?keys] =>
    destruct (srcset_candidates a keys c0) as (c1 & -> & _ & Hsrcset)
  end.
  rewrite bind_Ok.
  destruct (plain_candidates a
              ["data-src"; "data-original"; "data-image"; "src"] c1)
    as [Hsub Hplain].
  cbv zeta in Hsub, Hplain.
  eexists. split; [reflexivity|]. split; [exact Hplain|].
  intros key Hk Ht. destruct (Hsrcset key Hk Ht) as (l & Hl & Hin).
  exists l. split; [exact Hl|]. intros x Hx. apply Hsub, Hin, Hx.
Qed.

(** The handler on an [img] tag inside a wrapper. *)
Lemma img_inside base_url st attrs :
  top (stack_in_wrap st) = true ->
  handle_starttag base_url st "img" attrs
  = (candidates ← img_candidates st (dict attrs);
     if nonnil candidates then
       best ← _pick_largest candidates base_url;
       if truthy best then
         Ok (State (imgs st ++ [or_empty best]) (stack_in_wrap st)
               (stack_in_picture st) (current_picture_srcsets st))
       else Ok st
     else Ok st).
Proof.
  intros Htop. unfold handle_starttag.
  change (lower "img") with "img". cbv zeta.
  change (String.eqb "img" "div") with false.
  change (String.eqb "img" "picture") with false.
  change (String.eqb "img" "source") with false.
  change (String.eqb "img" "img") with true. cbn [andb].
  rewrite Htop. reflexivity.
Qed.

End DailyMailFacts.

Section GuardianFacts.
Context `{PyLib}.
Import Guardian.

(** [_seen] holds exactly the addresses of [images]. *)
Definition seen_inv (st : state) : Prop :=
  forall x, x ∈ _seen st <-> x ∈ images st.

(** From [st] to [st'] addresses were only appended, and [_seen] kept
    up with [images]. *)
Definition ext (st st' : state) : Prop :=
  (exists more, images st' = images st ++ more)
  /\ (seen_inv st -> seen_inv st').

Lemma ext_refl st : ext st st.
Proof. split; [exists []; by rewrite app_nil_r | auto]. Qed.

Lemma ext_trans st1 st2 st3 : ext st1 st2 -> ext st2 st3 -> ext st1 st3.
Proof.
  intros [[m1 H1] I1] [[m2 H2] I2]. split; [|auto].
  exists (m1 ++ m2). rewrite H2, H1, app_assoc. reflexivity.
Qed.

Lemma ext_same st st' :
  images st' = images st -> _seen st' = _seen st -> ext st st'.
Proof.
  intros Hi Hs. split; [exists []; by rewrite app_nil_r|].
  unfold seen_inv. rewrite Hi, Hs. auto.
Qed.

Lemma consider_ext base st url st' :
  _consider base st url = Ok st' -> ext st st'.
Proof.
  unfold _consider. destruct (truthy url); [|intros [= <-]; apply ext_refl].
  destruct (py_urljoin base (or_empty url)) as [r|]; [|discriminate].
  rewrite bind_Ok.
  destruct (startswith r "http://" || startswith r "https://");
    [|intros [= <-]; apply ext_refl].
  destruct (keep_guardian_cdn r); [|intros [= <-]; apply ext_refl].
  destruct (upgrade_guardian_url r 2000) as [v|]; [|discriminate].
  rewrite bind_Ok. case_bool_decide as Hv; intros [= <-]; [apply ext_refl|].
  split; [eexists; reflexivity|]. unfold seen_inv. simpl. intros Hinv x.
  rewrite elem_of_union, elem_of_singleton, elem_of_app,
    list_elem_of_singleton, Hinv. tauto.
Qed.

Lemma capture_ext base st tag a st' r :
  capture base st tag a = Ok (st', r) -> ext st st'.
Proof.
  unfold capture.
  destruct (in_scope st && bool_decide (tag ∈ ["img"; "source"]));
    [|intros [= <- _]; apply ext_refl].
  destruct (_pick_from_attrs base a) as [[u sz]|]; [|discriminate].
  rewrite bind_Ok. cbn [fst]. cbv zeta.
  destruct (truthy u); [|intros [= <- _]; apply ext_refl].
  destruct (on (in_picture st)).
  - destruct (picture_best st) as [[u' hint]|].
    + destruct (_ >? hint); intros [= <- _];
        [apply ext_same; reflexivity | apply ext_refl].
    + intros [= <- _]. apply ext_same; reflexivity.
  - destruct (_consider base st u) as [st1|] eqn:Hc; [|discriminate].
    rewrite bind_Ok. intros [= <- _]. eapply consider_ext, Hc.
Qed.

Lemma fold_consider_ext base (l : list string) : forall st st',
  foldM (fun st g => _consider base st (Some g)) st l = Ok st' -> ext st st'.
Proof.
  induction l as [|g l IH]; intros st st'; cbn [foldM].
  - intros [= <-]. apply ext_refl.
  - destruct (_consider base st (Some g)) as [st1|] eqn:Hc; [|discriminate].
    rewrite bind_Ok. intros Hl. eapply ext_trans; [eapply consider_ext, Hc|].
    apply IH, Hl.
Qed.

(** Every Guardian handler only appends to [images] and keeps [_seen]
    in step with it. *)
Lemma step_ext base st e st' : step base st e = Ok st' -> ext st st'.
Proof.
  destruct e as [tag attrs|tag|data]; cbn [step].
  - unfold handle_starttag. cbv zeta.
    destruct (Counters.open_regions_images st tag (dict attrs)) as [Hi Hs].
    pose proof (ext_same _ _ Hi Hs) as H0.
    destruct (capture base (open_regions st tag (dict attrs)) tag (dict attrs))
      as [[st1 r]|] eqn:Hc; [|discriminate].
    rewrite bind_Ok. cbn [fst snd]. apply capture_ext in Hc.
    pose proof (ext_trans _ _ _ H0 Hc) as H1.
    destruct r; [intros [= <-]; exact H1|].
    unfold style_image. destruct (in_scope st1); [|intros [= <-]; exact H1].
    destruct (dict attrs !! "style") as [[style|]|];
      [|discriminate|intros [= <-]; exact H1].
    destruct (style_search style) as [g|]; [|intros [= <-]; exact H1].
    intros Hc2. eapply ext_trans; [exact H1|]. eapply consider_ext, Hc2.
  - unfold handle_endtag.
    destruct (if String.eqb tag "picture" && on (in_picture st)
              then st' ← _commit_picture_best base st;
                   Ok (set_in_picture st' (in_picture st' - 1))
              else Ok st) as [st1|] eqn:H1; [|discriminate].
    rewrite bind_Ok. intros [= <-].
    assert (ext st st1) as Hext.
    { destruct (String.eqb tag "picture" && on (in_picture st));
        [|injection H1 as <-; apply ext_refl].
      unfold _commit_picture_best in H1.
      destruct (picture_best st) as [[u hint]|].
      - destruct (_consider base st (Some u)) as [st2|] eqn:Hc; [|discriminate].
        rewrite !bind_Ok in H1. injection H1 as <-.
        eapply ext_trans; [eapply consider_ext, Hc|].
        apply ext_same; reflexivity.
      - rewrite bind_Ok in H1. injection H1 as <-. apply ext_same; reflexivity. }
    eapply ext_trans; [exact Hext|]. apply ext_same.
    + Counters.break_ifs; reflexivity.
    + Counters.break_ifs; reflexivity.
  - unfold handle_data.
    destruct (in_scope st && on (in_noscript st) && nonempty (strip data));
      [|intros [= <-]; apply ext_refl].
    apply fold_consider_ext.
Qed.

Lemma feed_ext base events : forall st st',
  feed base st events = Ok st' -> ext st st'.
Proof.
  unfold feed. induction events as [|e events IH]; intros st st'; cbn [foldM].
  - intros [= <-]. apply ext_refl.
  - destruct (step base st e) as [st1|] eqn:Hstep; [|discriminate].
    rewrite bind_Ok. intros Hl. eapply ext_trans; [eapply step_ext, Hstep|].
    apply IH, Hl.
Qed.

Lemma seen_inv_init : seen_inv init.
Proof.
  intros x. simpl. split; intros Hx;
    [by apply not_elem_of_empty in Hx | by apply elem_of_nil in Hx].
Qed.

Lemma guardian_img_outside base st attrs :
  in_scope st = false -> handle_starttag base st "img" attrs = Ok st.
Proof.
  intros Hout. unfold handle_starttag. cbv zeta.
  assert (open_regions st "img" (dict attrs) = st) as ->.
  { unfold open_regions.
    change (String.eqb "img" "main") with false.
    change (String.eqb "img" "article") with false.
    change (String.eqb "img" "div") with false.
    change (String.eqb "img" "figure") with false.
    change (String.eqb "img" "picture") with false.
    change (String.eqb "img" "noscript") with false. reflexivity. }
  unfold capture. rewrite Hout. cbn [andb]. rewrite bind_Ok. cbn [fst snd].
  unfold style_image. rewrite Hout. reflexivity.
Qed.

Lemma upgrade_total r width :
  keep_guardian_cdn r = true -> exists v, upgrade_guardian_url r width = Ok v.
Proof.
  unfold keep_guardian_cdn, upgrade_guardian_url.
  destruct (urlparse r) as [p|]; [|discriminate]. intros _.
  destruct (negb (contains r "i.guim.co.uk")); [eauto|].
  destruct (contains (lower (query p)) "s="); eauto.
Qed.

(** An address of the image host that [_consider] is given is among the
    images afterwards, rewritten by [upgrade_guardian_url]. *)
Lemma consider_adds base st u r :
  seen_inv st -> nonempty u = true ->
  urljoin base u = Some r ->
  startswith r "http://" || startswith r "https://" = true ->
  keep_guardian_cdn r = true ->
  exists v st1,
    upgrade_guardian_url r 2000 = Ok v
    /\ _consider base st (Some u) = Ok st1 /\ v ∈ images st1.
Proof.
  intros Hinv Hne Hjoin Hhttp Hkeep.
  destruct (upgrade_total _ 2000 Hkeep) as [v Hv].
  unfold _consider. rewrite truthy_Some, Hne.
  change (or_empty (Some u)) with u.
  rewrite (py_urljoin_Some _ _ _ Hjoin), bind_Ok.
  rewrite Hhttp, Hkeep, Hv, bind_Ok.
  case_bool_decide as Hseen.
  - exists v, st. repeat split. apply Hinv, Hseen.
  - eexists v, _. repeat split. simpl.
    apply elem_of_app. right. apply list_elem_of_singleton. reflexivity.
Qed.

Lemma guardian_img_inside base st attrs u sz r :
  seen_inv st -> in_scope st = true -> in_picture st = 0 ->
  _pick_from_attrs base (dict attrs) = Ok (Some u, sz) -> nonempty u = true ->
  urljoin base u = Some r ->
  startswith r "http://" || startswith r "https://" = true ->
  keep_guardian_cdn r = true ->
  exists v st1,
    upgrade_guardian_url r 2000 = Ok v
    /\ v ∈ images st1 /\ seen_inv st1
    /\ handle_starttag base st "img" attrs = style_image base st1 (dict attrs).
Proof.
  intros Hinv Hin Hpic Hpick Hne Hjoin Hhttp Hkeep.
  destruct (consider_adds base st u r Hinv Hne Hjoin Hhttp Hkeep)
    as (v & st1 & Hv & Hc & Hmem).
  exists v, st1. split; [exact Hv|]. split; [exact Hmem|].
  split; [apply (consider_ext _ _ _ _ Hc), Hinv|].
  unfold handle_starttag. cbv zeta.
  assert (open_regions st "img" (dict attrs) = st) as ->.
  { unfold open_regions.
    change (String.eqb "img" "main") with false.
    change (String.eqb "img" "article") with false.
    change (String.eqb "img" "div") with false.
    change (String.eqb "img" "figure") with false.
    change (String.eqb "img" "picture") with false.
    change (String.eqb "img" "noscript") with false. reflexivity. }
  unfold capture. rewrite Hin.
  change (bool_decide ("img" ∈ ["img"; "source"])) with true. cbn [andb].
  rewrite Hpick, bind_Ok. cbn [fst]. cbv zeta.
  rewrite truthy_Some, Hne, Hpic.
  change (on 0) with false. cbv beta iota. rewrite Hc, !bind_Ok.
  reflexivity.
Qed.

End GuardianFacts.

Section Claim.
Context `{PyLib}.

(** C3, as amended.  In both scripts an [img] tag met while the parser
    is outside its region changes nothing: the page gives the same
    addresses with the tag and without it.  In the Daily Mail script an
    [img] tag met inside an image-wrap [div] has as candidates the
    value of each of its attributes data-src, data-original, data-image
    and src that is set and the candidates of each of srcset and
    data-srcset that is set; with no candidate it changes nothing, and
    otherwise one candidate is selected: if [urljoin] refuses its
    address the run raises [ValueError], and if it resolves the address
    is in the result of the page, unless a later tag of the page raises
    that error.  In the Guardian script the region is a [figure] of the
    article or the lightbox, not the article itself: there an [img] tag
    outside any [picture], whose chosen address resolves to an http
    address of the image host, has that address, as rewritten, in the
    result of the page, unless the page raises [ValueError] or
    [TypeError]; the address chosen for a tag without srcset is its
    [src]. *)
Theorem region_scoping (base : string) (pre post : list event)
    (attrs : list (string * option string)) :
  (forall st, DailyMail.feed base DailyMail.init pre = Ok st ->
     (DailyMail.top (DailyMail.stack_in_wrap st) = false ->
      DailyMail.extract_image_urls base (pre ++ StartTag "img" attrs :: post)
      = DailyMail.extract_image_urls base (pre ++ post))
     /\ (DailyMail.top (DailyMail.stack_in_wrap st) = true ->
         exists cands,
           DailyMail.img_candidates st (dict attrs) = Ok cands
           /\ (forall key,
               key ∈ ["data-src"; "data-original"; "data-image"; "src"] ->
               truthy (get (dict attrs) key) = true ->
               (or_empty (get (dict attrs) key), None, None) ∈ cands)
           /\ (forall key, key ∈ ["srcset"; "data-srcset"] ->
               truthy (get (dict attrs) key) = true ->
               exists l,
                 DailyMail._parse_srcset (or_empty (get (dict attrs) key))
                 = Ok l /\ l ⊆ cands)
           /\ (cands = [] ->
               DailyMail.extract_image_urls base
                 (pre ++ StartTag "img" attrs :: post)
               = DailyMail.extract_image_urls base (pre ++ post))
           /\ (cands <> [] ->
               exists c, c ∈ cands
                 /\ DailyMail._pick_largest cands base
                    = Some <$> py_urljoin base (DailyMail.url c)
                 /\ (urljoin base (DailyMail.url c) = None ->
                     DailyMail.extract_image_urls base
                       (pre ++ StartTag "img" attrs :: post)
                     = Raise ValueError)
                 /\ (forall u, urljoin base (DailyMail.url c) = Some u ->
                     nonempty u = true ->
                     (exists result,
                        DailyMail.extract_image_urls base
                          (pre ++ StartTag "img" attrs :: post) = Ok result
                        /\ u ∈ result)
                     \/ (DailyMail.extract_image_urls base
                           (pre ++ StartTag "img" attrs :: post)
                         = Raise ValueError
                         /\ exists st1 mid e rest st2,
                              DailyMail.step base st (StartTag "img" attrs)
                              = Ok st1
                              /\ post = mid ++ e :: rest
                              /\ DailyMail.feed base st1 mid = Ok st2
                              /\ unresolved base st2 e)))))
  /\ (forall st, Guardian.feed base Guardian.init pre = Ok st ->
     (Guardian.in_scope st = false ->
      Guardian.extract_guardian_images base
        (pre ++ StartTag "img" attrs :: post)
      = Guardian.extract_guardian_images base (pre ++ post))
     /\ (Guardian.in_scope st = true -> Guardian.in_picture st = 0 ->
         forall u sz r,
         Guardian._pick_from_attrs base (dict attrs) = Ok (Some u, sz) ->
         nonempty u = true ->
         urljoin base u = Some r ->
         startswith r "http://" || startswith r "https://" = true ->
         Guardian.keep_guardian_cdn r = true ->
         exists v,
           Guardian.upgrade_guardian_url r 2000 = Ok v
           /\ ((exists result,
                  Guardian.extract_guardian_images base
                    (pre ++ StartTag "img" attrs :: post) = Ok result
                  /\ v ∈ result)
               \/ Guardian.extract_guardian_images base
                    (pre ++ StartTag "img" attrs :: post) = Raise ValueError
               \/ Guardian.extract_guardian_images base
                    (pre ++ StartTag "img" attrs :: post) = Raise TypeError)))
  /\ (truthy (get (dict attrs) "srcset") = false ->
      truthy (get (dict attrs) "data-srcset") = false ->
      truthy (get (dict attrs) "src") = true ->
      Guardian._pick_from_attrs base (dict attrs)
      = Ok (get (dict attrs) "src", 0)).
Proof.
  split; [|split].
  - intros st Hpre.
    assert (Hrun : forall l,
      DailyMail.extract_image_urls base (pre ++ l)
      = (st' ← foldM (DailyMail.step base) st l;
         Ok (DailyMail.dedup (DailyMail.imgs st')))).
    { intros l. unfold DailyMail.extract_image_urls, DailyMail.feed.
      rewrite foldM_app. fold (DailyMail.feed base DailyMail.init pre).
      rewrite Hpre, bind_Ok. reflexivity. }
    split.
    + intros Hout. rewrite !Hrun. cbn [foldM DailyMail.step].
      rewrite (img_outside base st attrs Hout), bind_Ok. reflexivity.
    + intros Hin.
      destruct (img_candidates_spec st (dict attrs))
        as (cands & Hc & Hplain & Hsrcset).
      exists cands. split; [exact Hc|]. split; [exact Hplain|].
      split; [exact Hsrcset|].
      pose proof (img_inside base st attrs Hin) as Hstep.
      rewrite Hc, bind_Ok in Hstep. split.
      * intros ->. rewrite !Hrun. cbn [foldM DailyMail.step].
        rewrite Hstep. reflexivity.
      * intros Hne. destruct (pick_largest_total cands base Hne)
          as (c & Hcin & Hpick).
        exists c. split; [exact Hcin|]. split; [exact Hpick|].
        apply nonnil_true in Hne. rewrite Hne, Hpick in Hstep. split.
        -- intros Hjoin. rewrite Hrun. cbn [foldM DailyMail.step].
           rewrite Hstep, (py_urljoin_None _ _ Hjoin). reflexivity.
        -- intros u Hjoin Hu.
           rewrite (py_urljoin_Some _ _ _ Hjoin) in Hstep.
           cbn [fmap result_fmap] in Hstep.
           rewrite bind_Ok, truthy_Some, Hu in Hstep.
           change (or_empty (Some u)) with u in Hstep.
           rewrite Hrun. cbn [foldM]. cbn [DailyMail.step].
           rewrite Hstep, bind_Ok.
           match goal with |- context [foldM _ ?s post] =>
             destruct (feed_total base post s)
               as [(st2 & Hpost & more & Himgs)
                  |(Hpost & mid & e & rest & st2 & Hsplit & Hmid & He)]
           end; unfold DailyMail.feed in Hpost; rewrite Hpost.
           ++ left. eexists. split; [reflexivity|].
              apply elem_of_dedup. rewrite Himgs. simpl.
              apply elem_of_app. left. apply elem_of_app. right.
              apply list_elem_of_singleton. reflexivity.
           ++ right. split; [reflexivity|].
              eexists _, mid, e, rest, st2. split; [reflexivity|]. auto.
  - intros st Hpre. split.
    + intros Hout. unfold Guardian.extract_guardian_images, Guardian.feed.
      rewrite !foldM_app. fold (Guardian.feed base Guardian.init pre).
      rewrite Hpre, !bind_Ok. cbn [foldM Guardian.step].
      rewrite (guardian_img_outside base st attrs Hout), bind_Ok. reflexivity.
    + intros Hin Hpic u sz r Hpick Hne Hjoin Hhttp Hkeep.
      assert (Hinv : seen_inv st).
      { apply (feed_ext _ _ _ _ Hpre), seen_inv_init. }
      destruct (guardian_img_inside base st attrs u sz r Hinv Hin Hpic Hpick
                  Hne Hjoin Hhttp Hkeep) as (v & st1 & Hv & Hmem & _ & Hstep).
      exists v. split; [exact Hv|].
      unfold Guardian.extract_guardian_images.
      destruct (Counters.feed_cases base
                  (pre ++ StartTag "img" attrs :: post) Guardian.init)
        as [[st3 Hrun]|[-> | ->]]; [|auto|auto].
      left. rewrite Hrun. eexists. split; [reflexivity|].
      revert Hrun. unfold Guardian.feed.
      rewrite foldM_app. fold (Guardian.feed base Guardian.init pre).
      rewrite Hpre, bind_Ok. cbn [foldM Guardian.step]. rewrite Hstep.
      destruct (Guardian.style_image base st1 (dict attrs)) as [st2|] eqn:Hsty;
        [|discriminate].
      rewrite bind_Ok. intros Hpost.
      assert (ext st1 st2) as [[m2 H2] _].
      { unfold Guardian.style_image in Hsty.
        destruct (Guardian.in_scope st1);
          [|injection Hsty as <-; apply ext_refl].
        destruct (dict attrs !! "style") as [[style|]|];
          [|discriminate|injection Hsty as <-; apply ext_refl].
        destruct (style_search style);
          [eapply consider_ext, Hsty|injection Hsty as <-; apply ext_refl]. }
      destruct (feed_ext base post st2 st3 Hpost) as [[m3 H3] _].
      rewrite H3, H2. apply elem_of_app. left. apply elem_of_app. left.
      exact Hmem.
  - intros Hs Hd Hsrc. unfold Guardian._pick_from_attrs.
    cbn [first_ofM]. rewrite Hs, Hd, !bind_Ok. cbn [first_of].
    rewrite Hsrc. destruct (get (dict attrs) "src"); [reflexivity|].
    discriminate Hsrc.
Qed.

End Claim.

(** C3, the claim as it stands fails on the Guardian script: an [img]
    tag inside the article, with an address of the image host, is not
    collected unless a [figure] encloses it. *)
Lemma region_scoping_counterexample :
  let base := "https://www.theguardian.com/world/2024/x" in
  let img := StartTag "img"
    [("src", Some "https://i.guim.co.uk/img/media/a.jpg?width=300&s=0a1b")] in
  (Guardian.in_article <$>
     @Guardian.feed Plain.lib base Guardian.init
       [StartTag "main" []; StartTag "article" []]) = Ok 1
  /\ @Guardian.extract_guardian_images Plain.lib base
       [StartTag "main" []; StartTag "article" []; img;
        EndTag "article"; EndTag "main"] = Ok []
  /\ @Guardian.extract_guardian_images Plain.lib base
       [StartTag "main" []; StartTag "article" []; StartTag "figure" []; img;
        EndTag "figure"; EndTag "article"; EndTag "main"]
     = Ok ["https://i.guim.co.uk/img/media/a.jpg?width=300&s=0a1b"].
Proof. intros. repeat split; vm_compute; reflexivity. Qed.

(** The theorem on a page of each script.  Daily Mail: an image before
    the image-wrap [div] changes nothing; inside it, after a caption,
    an image that has only a data-src is collected, and one whose
    address does not resolve makes the run raise.  Guardian: an image
    of the article before the figure changes nothing; inside the figure
    an image of the image host is collected. *)
Lemma region_scoping_witness :
  let base := "https://www.dailymail.co.uk/news/article-1/x.html" in
  let gbase := "https://www.theguardian.com/world/2024/x" in
  let wrap := StartTag "div" [("class", Some "image-wrap")] in
  let caption := [StartTag "p" []; Data "A caption"; EndTag "p"] in
  let lazy := [("class", Some "blkBorder"); ("data-src", Some "a.jpg")] in
  let bad := [("src", Some "http://[")] in
  let photo :=
    [("src", Some "https://i.guim.co.uk/img/media/a.jpg?width=300&s=0a1b")] in
  let top := [StartTag "main" []; StartTag "article" []] in
  (@DailyMail.extract_image_urls Plain.lib base
     (caption ++ StartTag "img" lazy :: [wrap; EndTag "div"])
   = @DailyMail.extract_image_urls Plain.lib base
       (caption ++ [wrap; EndTag "div"]))
  /\ (exists result,
        @DailyMail.extract_image_urls Plain.lib base
          ((wrap :: caption) ++ StartTag "img" lazy :: [EndTag "div"])
        = Ok result
        /\ "https://www.dailymail.co.uk/news/article-1/a.jpg" ∈ result)
  /\ (@DailyMail.extract_image_urls Plain.lib base
        ((wrap :: caption) ++ StartTag "img" bad :: [EndTag "div"])
      = Raise ValueError)
  /\ (@Guardian.extract_guardian_images Plain.lib gbase
        (top ++ StartTag "img" photo :: [EndTag "article"])
      = @Guardian.extract_guardian_images Plain.lib gbase
          (top ++ [EndTag "article"]))
  /\ (exists result,
        @Guardian.extract_guardian_images Plain.lib gbase
          ((top ++ [StartTag "figure" []])
           ++ StartTag "img" photo :: [EndTag "figure"]) = Ok result
        /\ "https://i.guim.co.uk/img/media/a.jpg?width=300&s=0a1b" ∈ result).
Proof.
  intros base gbase wrap caption lazy bad photo top.
  split; [|split; [|split; [|split]]].
  - destruct (@region_scoping Plain.lib base caption [wrap; EndTag "div"] lazy)
      as [Hdm _].
    exact (proj1 (Hdm _ eq_refl) eq_refl).
  - destruct (@region_scoping Plain.lib base (wrap :: caption) [EndTag "div"]
                lazy) as [Hdm _].
    destruct (proj2 (Hdm _ eq_refl) eq_refl)
      as (cands & Hc & _ & _ & _ & Hsel).
    injection Hc as <-.
    destruct (Hsel ltac:(discriminate)) as (c & Hcin & _ & _ & Hin).
    apply list_elem_of_singleton in Hcin. subst c.
    destruct (Hin _ eq_refl eq_refl) as [Hres|[Hraise _]];
      [exact Hres | discriminate Hraise].
  - destruct (@region_scoping Plain.lib base (wrap :: caption) [EndTag "div"]
                bad) as [Hdm _].
    destruct (proj2 (Hdm _ eq_refl) eq_refl)
      as (cands & Hc & _ & _ & _ & Hsel).
    injection Hc as <-.
    destruct (Hsel ltac:(discriminate)) as (c & Hcin & _ & Hraise & _).
    apply list_elem_of_singleton in Hcin. subst c.
    exact (Hraise eq_refl).
  - destruct (@region_scoping Plain.lib gbase top [EndTag "article"] photo)
      as (_ & Hg & _).
    exact (proj1 (Hg _ eq_refl) eq_refl).
  - destruct (@region_scoping Plain.lib gbase (top ++ [StartTag "figure" []])
                [EndTag "figure"] photo) as (_ & Hg & Hpick).
    destruct (proj2 (Hg _ eq_refl) eq_refl eq_refl
                "https://i.guim.co.uk/img/media/a.jpg?width=300&s=0a1b" 0
                "https://i.guim.co.uk/img/media/a.jpg?width=300&s=0a1b"
                (Hpick eq_refl eq_refl eq_refl)
                eq_refl eq_refl eq_refl eq_refl)
      as (v & Hv & [Hres|[Hraise|Hraise]]);
      [|discriminate Hraise|discriminate Hraise].
    injection Hv as <-. exact Hres.
Defined.

End Scoping.
(** * The picture element *)

Module PictureCommit.
Import Py Lib Re PyFacts Regions.

(** The fragment of the specification: a [picture] with two [source]
    elements of 400w and 900w and an [img] fallback. *)
Definition picture_fragment : list event :=
  [StartTag "picture" [];
   StartTag "source" [("srcset", Some "a.jpg 400w")];
   StartTag "source" [("srcset", Some "b.jpg 900w")];
   StartTag "img" [("src", Some "c.jpg")];
   EndTag "picture"].

Section Facts.
Context `{PyLib}.

Lemma dailymail_fragment base st b :
  DailyMail.top (DailyMail.stack_in_wrap st) = true ->
  urljoin base "b.jpg" = Some b -> nonempty b = true ->
  DailyMail.feed base st picture_fragment
  = Ok (DailyMail.State (DailyMail.imgs st ++ [b])
          (DailyMail.stack_in_wrap st) (DailyMail.stack_in_picture st) []).
Proof.
  intros Htop Hjoin Hb. destruct st as [im wrap pic cur].
  cbn [DailyMail.stack_in_wrap DailyMail.stack_in_picture DailyMail.imgs]
    in Htop |- *.
  unfold DailyMail.feed, picture_fragment. cbn [foldM DailyMail.step].
  (* <picture> *)
  change (DailyMail.handle_starttag base (DailyMail.State im wrap pic cur)
            "picture" [])
    with (Ok (DailyMail.State im wrap (pic ++ [true]) [])).
  rewrite bind_Ok.
  (* <source srcset="a.jpg 400w"> *)
  assert (DailyMail.handle_starttag base
            (DailyMail.State im wrap (pic ++ [true]) []) "source"
            [("srcset", Some "a.jpg 400w")]
          = Ok (DailyMail.State im wrap (pic ++ [true])
                  [("a.jpg", Some 400, None)])) as ->.
  { unfold DailyMail.handle_starttag. cbn [DailyMail.stack_in_picture].
    rewrite last_snoc_top. vm_compute. reflexivity. }
  rewrite bind_Ok.
  (* <source srcset="b.jpg 900w"> *)
  assert (DailyMail.handle_starttag base
            (DailyMail.State im wrap (pic ++ [true])
               [("a.jpg", Some 400, None)]) "source"
            [("srcset", Some "b.jpg 900w")]
          = Ok (DailyMail.State im wrap (pic ++ [true])
                  [("a.jpg", Some 400, None); ("b.jpg", Some 900, None)]))
    as ->.
  { unfold DailyMail.handle_starttag. cbn [DailyMail.stack_in_picture].
    rewrite last_snoc_top. vm_compute. reflexivity. }
  rewrite bind_Ok.
  (* <img src="c.jpg"> *)
  assert (DailyMail.handle_starttag base
            (DailyMail.State im wrap (pic ++ [true])
               [("a.jpg", Some 400, None); ("b.jpg", Some 900, None)]) "img"
            [("src", Some "c.jpg")]
          = Ok (DailyMail.State (im ++ [b]) wrap
                  (pic ++ [true])
                  [("a.jpg", Some 400, None); ("b.jpg", Some 900, None)]))
    as ->.
  { assert (Hc : DailyMail.img_candidates
              (DailyMail.State im wrap (pic ++ [true])
                 [("a.jpg", Some 400, None); ("b.jpg", Some 900, None)])
              (dict [("src", Some "c.jpg")])
            = Ok [("a.jpg", Some 400, None); ("b.jpg", Some 900, None);
                  ("c.jpg", None, None)]).
    { unfold DailyMail.img_candidates. cbn [DailyMail.stack_in_picture].
      rewrite nonnil_snoc. vm_compute. reflexivity. }
    assert (Hp : DailyMail._pick_largest
              [("a.jpg", Some 400, None); ("b.jpg", Some 900, None);
               ("c.jpg", None, None)] base
            = Some <$> py_urljoin base "b.jpg")
      by (vm_compute; reflexivity).
    unfold DailyMail.handle_starttag.
    change (lower "img") with "img". cbv zeta.
    change (String.eqb "img" "div") with false.
    change (String.eqb "img" "picture") with false.
    change (String.eqb "img" "source") with false.
    change (String.eqb "img" "img") with true.
    cbn [andb DailyMail.stack_in_wrap]. rewrite Htop, Hc, bind_Ok.
    cbn [nonnil]. rewrite Hp, (py_urljoin_Some _ _ _ Hjoin).
    cbn [fmap result_fmap]. rewrite bind_Ok, truthy_Some, Hb. reflexivity. }
  rewrite bind_Ok.
  (* </picture> *)
  unfold DailyMail.handle_endtag. change (lower "picture") with "picture".
  change (String.eqb "picture" "div") with false.
  change (String.eqb "picture" "picture") with true. cbv iota.
  cbn [DailyMail.stack_in_picture]. rewrite nonnil_snoc, pop_snoc.
  reflexivity.
Qed.

Import Guardian.

(** [_consider] neither reads nor writes the counters and the
    picture's candidate. *)
Lemma consider_frame base st k pb url :
  _consider base (set_picture_best (set_in_picture st k) pb) url
  = (fun st' => set_picture_best (set_in_picture st' k) pb)
      <$> _consider base st url.
Proof.
  unfold _consider. destruct (truthy url); [|reflexivity].
  destruct (py_urljoin base (or_empty url)) as [r|]; [|reflexivity].
  rewrite !bind_Ok.
  destruct (startswith _ "http://" || startswith _ "https://");
    [|reflexivity].
  destruct (keep_guardian_cdn _); [|reflexivity].
  destruct (upgrade_guardian_url _ 2000) as [v|]; [|reflexivity].
  rewrite !bind_Ok. cbn [_seen set_picture_best set_in_picture].
  case_bool_decide; reflexivity.
Qed.

Lemma style_none base s (a : gmap string (option string)) :
  a !! "style" = None -> style_image base s a = Ok s.
Proof.
  intros Ha. unfold style_image. rewrite Ha. destruct (in_scope s); reflexivity.
Qed.

Lemma srcset_single base u r d unit n :
  urljoin base u = Some r ->
  forall srcset, CANDIDATE_match srcset = Some (u, d, unit) ->
  py_int d = Ok n -> (n >? -1) = true ->
  SRCSET_SPLIT_split (strip srcset) = [srcset] -> nonempty srcset = true ->
  best_from_srcset srcset base = Ok (Some r).
Proof.
  intros Hjoin srcset Hm Hint Hn Hsplit Hne. unfold best_from_srcset.
  rewrite Hne, Hsplit. cbn [best_loop].
  rewrite Hm, Hint, bind_Ok, Hn, (py_urljoin_Some _ _ _ Hjoin). reflexivity.
Qed.

Lemma guardian_fragment base st a b :
  in_scope st = true -> 0 <= in_picture st ->
  urljoin base "a.jpg" = Some a -> urljoin base "b.jpg" = Some b ->
  nonempty a = true -> nonempty b = true ->
  feed base st picture_fragment
  = (st' ← _consider base st (Some a); Ok (set_picture_best st' None)).
Proof.
  intros Hin Hpic Hja Hjb Ha Hb.
  assert (Hon : on (in_picture st + 1) = true).
  { unfold on. apply negb_true_iff, Z.eqb_neq. lia. }
  set (s1 := set_picture_best (set_in_picture st (in_picture st + 1)) None).
  set (s2 := set_picture_best (set_in_picture st (in_picture st + 1))
               (Some (a, 2))).
  assert (Hin1 : in_scope s1 = true) by exact Hin.
  assert (Hin2 : in_scope s2 = true) by exact Hin.
  unfold feed, picture_fragment. cbn [foldM step].
  (* <picture> *)
  assert (handle_starttag base st "picture" [] = Ok s1) as ->.
  { unfold handle_starttag. cbv zeta.
    assert (open_regions st "picture" (dict []) = s1) as ->.
    { unfold open_regions.
      change (String.eqb "picture" "main") with false.
      change (String.eqb "picture" "article") with false.
      change (String.eqb "picture" "div") with false.
      change (String.eqb "picture" "figure") with false.
      change (String.eqb "picture" "picture") with true.
      change (String.eqb "picture" "noscript") with false.
      cbn [andb]. cbv iota. rewrite Hin. reflexivity. }
    unfold capture. rewrite Hin1.
    change (bool_decide ("picture" ∈ ["img"; "source"])) with false.
    cbn [andb]. rewrite bind_Ok. cbn [fst snd].
    rewrite style_none by reflexivity. reflexivity. }
  rewrite bind_Ok.
  assert (Hopen : forall s tag d,
            String.eqb tag "main" = false -> String.eqb tag "article" = false ->
            String.eqb tag "div" = false -> String.eqb tag "figure" = false ->
            String.eqb tag "picture" = false ->
            String.eqb tag "noscript" = false -> open_regions s tag d = s).
  { intros s tag d E1 E2 E3 E4 E5 E6. unfold open_regions.
    rewrite E1, E2, E3, E4, E5, E6. reflexivity. }
  (* <source srcset="a.jpg 400w"> *)
  assert (handle_starttag base s1 "source" [("srcset", Some "a.jpg 400w")]
          = Ok s2) as ->.
  { unfold handle_starttag. cbv zeta. rewrite Hopen by reflexivity.
    unfold capture. rewrite Hin1.
    change (bool_decide ("source" ∈ ["img"; "source"])) with true.
    cbn [andb].
    assert (_pick_from_attrs base (dict [("srcset", Some "a.jpg 400w")])
            = Ok (Some a, 1)) as ->.
    { unfold _pick_from_attrs. cbn [first_ofM].
      change (get (dict [("srcset", Some "a.jpg 400w")]) "srcset")
        with (Some "a.jpg 400w").
      change (truthy (Some "a.jpg 400w")) with true. cbv iota.
      change (or_empty (Some "a.jpg 400w")) with "a.jpg 400w".
      rewrite (srcset_single base "a.jpg" a "400" (Some "w"%char) 400 Hja
                 "a.jpg 400w"); [|reflexivity..].
      rewrite !bind_Ok, !truthy_Some, Ha. reflexivity. }
    rewrite bind_Ok. cbn [fst]. cbv zeta.
    rewrite truthy_Some, Ha. change (in_picture s1) with (in_picture st + 1).
    rewrite Hon. change (picture_best s1) with (@None (string * Z)).
    change (bool_decide (is_Some (dict [("srcset", Some "a.jpg 400w")]
                                    !! "srcset"))) with true.
    cbn [orb]. cbv iota. rewrite bind_Ok. cbn [fst snd].
    rewrite style_none by reflexivity. reflexivity. }
  rewrite bind_Ok.
  (* <source srcset="b.jpg 900w"> *)
  assert (handle_starttag base s2 "source" [("srcset", Some "b.jpg 900w")]
          = Ok s2) as ->.
  { unfold handle_starttag. cbv zeta. rewrite Hopen by reflexivity.
    unfold capture. rewrite Hin2.
    change (bool_decide ("source" ∈ ["img"; "source"])) with true.
    cbn [andb].
    assert (_pick_from_attrs base (dict [("srcset", Some "b.jpg 900w")])
            = Ok (Some b, 1)) as ->.
    { unfold _pick_from_attrs. cbn [first_ofM].
      change (get (dict [("srcset", Some "b.jpg 900w")]) "srcset")
        with (Some "b.jpg 900w").
      change (truthy (Some "b.jpg 900w")) with true. cbv iota.
      change (or_empty (Some "b.jpg 900w")) with "b.jpg 900w".
      rewrite (srcset_single base "b.jpg" b "900" (Some "w"%char) 900 Hjb
                 "b.jpg 900w"); [|reflexivity..].
      rewrite !bind_Ok, !truthy_Some, Hb. reflexivity. }
    rewrite bind_Ok. cbn [fst]. cbv zeta.
    rewrite truthy_Some, Hb. change (in_picture s2) with (in_picture st + 1).
    rewrite Hon.
    change (picture_best s2) with (Some (a, 2)).
    change (bool_decide (is_Some (dict [("srcset", Some "b.jpg 900w")]
                                    !! "srcset"))) with true.
    cbn [orb]. cbv iota. change (2 >? 2) with false. cbv iota.
    rewrite bind_Ok. cbn [fst snd].
    rewrite style_none by reflexivity. reflexivity. }
  rewrite bind_Ok.
  (* <img src="c.jpg"> *)
  assert (handle_starttag base s2 "img" [("src", Some "c.jpg")] = Ok s2) as ->.
  { unfold handle_starttag. cbv zeta. rewrite Hopen by reflexivity.
    unfold capture. rewrite Hin2.
    change (bool_decide ("img" ∈ ["img"; "source"])) with true.
    cbn [andb].
    change (_pick_from_attrs base (dict [("src", Some "c.jpg")]))
      with (Ok (Some "c.jpg", 0)).
    rewrite bind_Ok. cbn [fst]. cbv zeta.
    cbn [truthy]. change (in_picture s2) with (in_picture st + 1).
    rewrite Hon.
    change (picture_best s2) with (Some (a, 2)).
    change (bool_decide (is_Some (dict [("src", Some "c.jpg")] !! "srcset")))
      with false.
    change (bool_decide (is_Some (dict [("src", Some "c.jpg")]
                                    !! "data-srcset"))) with false.
    cbn [orb]. cbv iota. change (1 >? 2) with false. cbv iota.
    rewrite bind_Ok. cbn [fst snd].
    rewrite style_none by reflexivity. reflexivity. }
  rewrite bind_Ok.
  (* </picture> *)
  unfold handle_endtag.
  change (String.eqb "picture" "picture") with true.
  change (String.eqb "picture" "noscript") with false.
  change (String.eqb "picture" "figure") with false.
  change (String.eqb "picture" "article") with false.
  change (String.eqb "picture" "main") with false.
  change (String.eqb "picture" "div") with false.
  change (in_picture s2) with (in_picture st + 1). rewrite Hon.
  cbn [andb]. unfold _commit_picture_best.
  change (picture_best s2) with (Some (a, 2)).
  cbv iota. unfold s2. rewrite consider_frame.
  destruct (_consider base st (Some a)) as [st'|e] eqn:Hc; [|reflexivity].
  apply consider_Ok in Hc as (Hsame & Hpb & _).
  cbn [fmap result_fmap]. rewrite !bind_Ok. cbv iota zeta.
  destruct Hsame as (E1 & E2 & E3 & E4 & E5 & E6).
  destruct st' as [im' se' m' ar' lb' fg' pc' ns' pb'].
  cbn in *. subst. unfold set_in_picture, set_picture_best. cbn.
  rewrite Z.add_simpl_r. reflexivity.
Qed.

(** C2, as amended.  In the Daily Mail script the fragment, met inside
    an image-wrap [div], adds exactly one address, the 900w one.  In the
    Guardian script the fragment, met inside a figure or the lightbox,
    hands exactly one address to [_consider]: the one of the first
    [source], the 400w one, since a later candidate has to outrank the
    earlier by kind and both come from a srcset; the page gains that
    address if it passes the host filter and is new, and nothing
    otherwise.  The addresses are those [urljoin] gives for [a.jpg] and
    [b.jpg]; the run over the fragment ends as the call of [_consider]
    does, which returns when the address it is given resolves. *)
Theorem picture_commit (base : string) :
  (forall st b,
     DailyMail.top (DailyMail.stack_in_wrap st) = true ->
     urljoin base "b.jpg" = Some b -> nonempty b = true ->
     DailyMail.feed base st picture_fragment
     = Ok (DailyMail.State (DailyMail.imgs st ++ [b])
             (DailyMail.stack_in_wrap st) (DailyMail.stack_in_picture st) []))
  /\ (forall st a b,
     in_scope st = true -> 0 <= in_picture st ->
     urljoin base "a.jpg" = Some a -> urljoin base "b.jpg" = Some b ->
     nonempty a = true -> nonempty b = true ->
     feed base st picture_fragment
     = (st' ← _consider base st (Some a); Ok (set_picture_best st' None))
     /\ forall r, urljoin base a = Some r ->
        exists st',
          _consider base st (Some a) = Ok st'
          /\ feed base st picture_fragment = Ok (set_picture_best st' None)).
Proof.
  split; [apply dailymail_fragment|].
  intros st a b Hin Hpic Hja Hjb Ha Hb.
  pose proof (guardian_fragment base st a b Hin Hpic Hja Hjb Ha Hb) as Hrun.
  split; [exact Hrun|]. intros r Hr.
  destruct (consider_total base st (Some a)) as [(st' & Hc & _)|[_ Hnone]].
  - exists st'. split; [exact Hc|]. rewrite Hrun, Hc. reflexivity.
  - change (or_empty (Some a)) with a in Hnone. congruence.
Qed.

End Facts.

(** C2, the claim as it stands fails on the Guardian script.  On a
    Guardian page the fragment inside a figure of the article gives no
    address, the relative ones resolving to the page's host; on a page
    of the image host it gives the 400w address, not the 900w one. *)
Lemma picture_commit_counterexample :
  let page := "https://www.theguardian.com/world/2024/x" in
  let cdn := "https://i.guim.co.uk/img/media/x" in
  let figure := [StartTag "main" []; StartTag "article" []; StartTag "figure" []] in
  @Guardian.extract_guardian_images Plain.lib page (figure ++ picture_fragment)
  = Ok []
  /\ @Guardian.extract_guardian_images Plain.lib cdn (figure ++ picture_fragment)
     = Ok ["https://i.guim.co.uk/img/media/a.jpg?width=2000&dpr=2"]
  /\ @Guardian.extract_guardian_images Plain.lib cdn (figure ++ picture_fragment)
     <> Ok ["https://i.guim.co.uk/img/media/b.jpg"].
Proof.
  intros. split; [vm_compute; reflexivity|].
  split; [vm_compute; reflexivity | vm_compute; discriminate].
Qed.

(** The theorem on a Daily Mail page. *)
Lemma picture_commit_witness :
  let base := "https://www.dailymail.co.uk/news/article-1/x.html" in
  let st := DailyMail.State [] [true] [] [] in
  @DailyMail.feed Plain.lib base st picture_fragment
  = Ok (DailyMail.State
          ["https://www.dailymail.co.uk/news/article-1/b.jpg"] [true] [] []).
Proof.
  intros base st.
  exact (proj1 (@picture_commit Plain.lib base) st _ eq_refl eq_refl eq_refl).
Defined.

End PictureCommit.

(** * The size pattern in file names *)

Module SizePattern.
Import Py Lib Re PyFacts.

Fixpoint alldigits (s : string) : bool :=
  match s with
  | EmptyString => true
  | String c s' => isdigit c && alldigits s'
  end.

Lemma digit_cases (c : ascii) :
  isdigit c = true ->
  int_space c = false /\ c <> "-"%char /\ c <> "+"%char
  /\ Ascii.eqb c "_" = false.
Proof.
  destruct c as [[] [] [] [] [] [] [] []]; intros Hc;
    first [discriminate Hc | repeat split; discriminate].
Qed.

Lemma int_lstrip_digits d : alldigits d = true -> int_lstrip d = d.
Proof.
  destruct d as [|c d]; cbn [alldigits int_lstrip]; [reflexivity|].
  intros Hd. apply andb_true_iff in Hd as [Hc _].
  by rewrite (proj1 (digit_cases c Hc)).
Qed.

Lemma int_rstrip_digits d : alldigits d = true -> int_rstrip d = d.
Proof.
  induction d as [|c d IH]; cbn [alldigits int_rstrip]; [reflexivity|].
  intros Hd. apply andb_true_iff in Hd as [Hc Hd]. rewrite (IH Hd).
  destruct d; [|reflexivity]. by rewrite (proj1 (digit_cases c Hc)).
Qed.

Lemma int_digits_all d : forall acc seen,
  alldigits d = true -> seen || nonempty d = true ->
  int_digits acc seen d
  = Some (fold_left (fun acc c => 10 * acc + digit_value c)
            (list_ascii_of_string d) acc).
Proof.
  induction d as [|c d IH]; intros acc seen;
    cbn [alldigits int_digits list_ascii_of_string fold_left nonempty].
  - rewrite orb_false_r. by intros _ ->.
  - intros Hd _. apply andb_true_iff in Hd as [Hc Hd]. rewrite Hc.
    apply IH; [exact Hd | reflexivity].
Qed.

Lemma count_digits_all d :
  alldigits d = true -> count_digits d = N.of_nat (String.length d).
Proof.
  induction d as [|c d IH]; cbn [alldigits count_digits String.length];
    [reflexivity|].
  intros Hd. apply andb_true_iff in Hd as [Hc Hd].
  rewrite Hc, (IH Hd). lia.
Qed.

(** [int] on a group of digits: the value of the digits, unless there
    are more than [max_str_digits] of them. *)
Lemma py_int_digits d :
  alldigits d = true -> nonempty d = true ->
  py_int d
  = if (max_str_digits <? N.of_nat (String.length d))%N
    then Raise ValueError else Ok (int_of_digits d).
Proof.
  intros Hd Hne. unfold py_int. cbv zeta.
  rewrite (int_lstrip_digits d Hd), (int_rstrip_digits d Hd).
  assert (Hsig : match d with
                 | String "-" r => (true, r)
                 | String "+" r => (false, r)
                 | r => (false, r)
                 end = (false, d)).
  { destruct d as [|c r]; [reflexivity|].
    cbn [alldigits] in Hd. apply andb_true_iff in Hd as [Hc _].
    destruct (digit_cases c Hc) as (_ & Hm & Hp & _).
    destruct c as [[] [] [] [] [] [] [] []]; congruence. }
  rewrite Hsig. cbn [fst snd].
  rewrite (int_digits_all d 0 false Hd Hne), (count_digits_all d Hd).
  reflexivity.
Qed.
















End SizePattern.

(** * The candidate selectors *)

Module Selector.
Import Py Lib Re PyFacts Regions SizePattern.







Section DailyMailSelector.
Context `{PyLib}.
Import DailyMail.







End DailyMailSelector.

Section GuardianSelector.
Context `{PyLib}.
Import Guardian.


Definition digits_of (part : string) : string :=
  match CANDIDATE_match part with
  | Some (_, d, _) => d
  | None => EmptyString
  end.

(** The number a part of a srcset competes with in [best_from_srcset],
    when the part is a candidate. *)
Definition size_of (part : string) : option Z :=
  match CANDIDATE_match part with
  | Some (_, d, _) => Some (int_of_digits d)
  | None => None
  end.

Definition size_z (part : string) : Z := default 0 (size_of part).

(** [int] converts the digits of the part: there are at most
    [max_str_digits] of them. *)
Definition converts (part : string) : Prop :=
  (N.of_nat (String.length (digits_of part)) <= max_str_digits)%N.




Lemma span_digits s d r : span isdigit s = (d, r) -> alldigits d = true.
Proof.
  revert d r. induction s as [|c s IH]; intros d r; cbn [span].
  - intros [= <- _]. reflexivity.
  - destruct (isdigit c) eqn:Hc.
    + destruct (span isdigit s) as [a b]. intros [= <- _].
      cbn [alldigits]. rewrite Hc. eapply IH. reflexivity.
    + intros [= <- _]. reflexivity.
Qed.

Lemma digit_value_nonneg c : isdigit c = true -> 0 <= digit_value c.
Proof.
  unfold isdigit, digit_value. intros Hc.
  apply andb_true_iff in Hc as [Hc _]. apply N.leb_le in Hc. lia.
Qed.

Lemma int_of_digits_nonneg d : alldigits d = true -> 0 <= int_of_digits d.
Proof.
  unfold int_of_digits.
  assert (forall acc, 0 <= acc -> alldigits d = true ->
            0 <= fold_left (fun acc c => 10 * acc + digit_value c)
                   (list_ascii_of_string d) acc) as Hgen.
  { induction d as [|c d IH]; intros acc Hacc; cbn [alldigits
      list_ascii_of_string fold_left]; [auto|].
    intros Hd. apply andb_true_iff in Hd as [Hc Hd].
    apply IH; [|exact Hd]. pose proof (digit_value_nonneg c Hc). lia. }
  apply Hgen. lia.
Qed.

(** The second group of the candidate pattern is a non-empty group of
    digits. *)
Lemma candidate_digits part u d unit :
  CANDIDATE_match part = Some (u, d, unit) ->
  alldigits d = true /\ nonempty d = true.
Proof.
  unfold CANDIDATE_match.
  destruct (span (fun c => negb (isspace c)) (lstrip part)) as [u' s2].
  destruct (span isspace s2) as [ws s3].
  destruct (span isdigit s3) as [d' s4] eqn:Hd.
  apply span_digits in Hd.
  destruct (match s4 with
            | String c r =>
                if Ascii.eqb c "w" || Ascii.eqb c "x"
                then (Some c, r) else (None, s4)
            | EmptyString => (None, s4)
            end) as [unit' s5].
  destruct (nonempty u' && nonempty ws && nonempty d'
            && negb (nonempty (lstrip s5))) eqn:Hall; [|discriminate].
  intros [= _ <- _]. split; [exact Hd|].
  apply andb_true_iff in Hall as [Hall _].
  apply andb_true_iff in Hall as [_ Hall]. exact Hall.
Qed.

Lemma candidate_size_nonneg part u d unit :
  CANDIDATE_match part = Some (u, d, unit) -> 0 <= int_of_digits d.
Proof.
  intros Hm. apply int_of_digits_nonneg.
  apply (candidate_digits _ _ _ _ Hm).
Qed.

(** [int] on the digits of a candidate: their value when it converts
    them, and [ValueError] otherwise. *)
Lemma candidate_int part u d unit :
  CANDIDATE_match part = Some (u, d, unit) ->
  (converts part /\ py_int d = Ok (size_z part))
  \/ (~ converts part /\ py_int d = Raise ValueError).
Proof.
  intros Hm. destruct (candidate_digits _ _ _ _ Hm) as [Hd Hne].
  rewrite (py_int_digits d Hd Hne).
  unfold converts, digits_of, size_z, size_of. rewrite Hm. cbn [default].
  destruct (max_str_digits <? N.of_nat (String.length d))%N eqn:E.
  - right. apply N.ltb_lt in E. split; [lia | reflexivity].
  - left. apply N.ltb_ge in E. split; [exact E | reflexivity].
Qed.



End GuardianSelector.

Section Claim.
Context `{PyLib}.


End Claim.



End Selector.

(** * Further properties: the results of a page *)

Module Results.
Import Py Lib Re PyFacts Regions Scoping.

Section DailyMailResults.
Context `{PyLib}.
Import DailyMail.

Lemma dedup_snoc (l : list string) (x : string) :
  dedup (l ++ [x]) = if bool_decide (x ∈ l) then dedup l else dedup l ++ [x].
Proof.
  unfold dedup at 1. rewrite fold_left_app. cbn [fold_left].
  pose proof (elem_of_dedup l x) as Hx. unfold dedup in Hx |- *.
  assert (Hinv : forall (l : list string) (seen : gset string) out,
    (forall y, y ∈ seen <-> y ∈ out) ->
    forall y,
      y ∈ (fold_left (fun '(seen, out) u =>
             if bool_decide (u ∈ (seen : gset string)) then (seen, out)
             else ({[u]} ∪ seen, out ++ [u])) l (seen, out)).1
      <-> y ∈ (fold_left (fun '(seen, out) u =>
             if bool_decide (u ∈ (seen : gset string)) then (seen, out)
             else ({[u]} ∪ seen, out ++ [u])) l (seen, out)).2).
  { clear. induction l as [|u l IH]; intros seen out Hinv y; cbn [fold_left].
    - apply Hinv.
    - case_bool_decide; apply IH; [exact Hinv|].
      intros z. rewrite elem_of_union, elem_of_singleton, elem_of_app,
        list_elem_of_singleton, Hinv. tauto. }
  specialize (Hinv l ∅ [] (fun y => conj
    (fun H => False_ind _ (not_elem_of_empty y H))
    (fun H => False_ind _ (proj1 (elem_of_nil y) H))) x).
  destruct (fold_left _ l (∅, [])) as [seen out]. cbn [fst snd] in *.
  destruct (bool_decide (x ∈ seen)) eqn:E1, (bool_decide (x ∈ l)) eqn:E2;
    try reflexivity.
  - apply bool_decide_eq_true in E1. apply bool_decide_eq_false in E2. tauto.
  - apply bool_decide_eq_false in E1. apply bool_decide_eq_true in E2. tauto.
Qed.

(** X1.  The loop of [extract_image_urls] that removes repeats keeps the
    first occurrence of every address, in the order of first
    occurrence: no address is repeated or lost, a further address is
    appended exactly when it is new, and a second pass changes
    nothing. *)
Theorem dedup_first_occurrences (l : list string) :
  NoDup (dedup l)
  /\ (forall x, x ∈ dedup l <-> x ∈ l)
  /\ (forall x, dedup (l ++ [x])
                = if bool_decide (x ∈ l) then dedup l else dedup l ++ [x])
  /\ dedup (dedup l) = dedup l.
Proof.
  split; [|split; [apply elem_of_dedup|split; [apply dedup_snoc|]]].
  - induction l as [|x l IH] using rev_ind; [constructor|].
    rewrite dedup_snoc. case_bool_decide as Hx; [exact IH|].
    apply NoDup_app. split; [exact IH|]. split; [|apply NoDup_singleton].
    intros y Hy Hy'. apply list_elem_of_singleton in Hy' as ->.
    apply (proj1 (elem_of_dedup _ _)) in Hy. exact (Hx Hy).
  - induction l as [|x l IH] using rev_ind; [reflexivity|].
    rewrite dedup_snoc. case_bool_decide as Hx; [exact IH|].
    rewrite dedup_snoc, IH. rewrite bool_decide_false; [reflexivity|].
    rewrite elem_of_dedup. exact Hx.
Qed.

Lemma dedup_NoDup (l : list string) : NoDup (dedup l).
Proof.
  induction l as [|x l IH] using rev_ind; [constructor|].
  rewrite dedup_snoc. case_bool_decide as Hx; [exact IH|].
  apply NoDup_app. split; [exact IH|]. split; [|apply NoDup_singleton].
  intros y Hy Hy'. apply list_elem_of_singleton in Hy' as ->.
  apply (proj1 (elem_of_dedup _ _)) in Hy. exact (Hx Hy).
Qed.

(** The handler raises at an [img] tag whose selected address
    [urljoin] refuses. *)
Lemma unresolved_raises base_url st e :
  unresolved base_url st e -> step base_url st e = Raise ValueError.
Proof.
  intros (tag & attrs & cands & c & -> & Himg & Htop & Hc & Hin & Hpick & Hj).
  cbn [step]. unfold handle_starttag. cbv zeta.
  apply String.eqb_eq in Himg. rewrite Himg.
  change (String.eqb "img" "div") with false.
  change (String.eqb "img" "picture") with false.
  change (String.eqb "img" "source") with false.
  change (String.eqb "img" "img") with true. cbn [andb].
  rewrite Htop, Hc, bind_Ok.
  assert (nonnil cands = true) as ->.
  { apply nonnil_true. intros ->. by apply elem_of_nil in Hin. }
  rewrite Hpick, (py_urljoin_None _ _ Hj). reflexivity.
Qed.

(** X2.  The Daily Mail parser raises nothing but [ValueError], and
    that only at an [img] tag inside a wrapper whose selected address
    [urljoin] refuses; such a tag, once reached, does raise.  No [pop]
    meets an empty stack, no index or [max] an empty list.  A run that
    returns has only appended to [imgs], and what
    [extract_image_urls] returns has no repeats. *)
Theorem dailymail_raises_only_unresolved (base_url : string)
    (events : list event) (st : state) :
  ((exists st' more,
      feed base_url st events = Ok st' /\ imgs st' = imgs st ++ more)
   \/ (feed base_url st events = Raise ValueError
       /\ exists pre e rest st1,
            events = pre ++ e :: rest
            /\ feed base_url st pre = Ok st1
            /\ unresolved base_url st1 e))
  /\ (forall pre e rest st1,
        events = pre ++ e :: rest -> feed base_url st pre = Ok st1 ->
        unresolved base_url st1 e ->
        feed base_url st events = Raise ValueError)
  /\ ((exists urls,
         extract_image_urls base_url events = Ok urls /\ NoDup urls)
      \/ extract_image_urls base_url events = Raise ValueError).
Proof.
  split; [|split].
  - destruct (feed_total base_url events st)
      as [(st' & Hfeed & more & Hm)|Hraise]; [left; eauto | right; exact Hraise].
  - intros pre e rest st1 -> Hpre He. unfold feed in *.
    rewrite foldM_app, Hpre, bind_Ok. cbn [foldM].
    by rewrite (unresolved_raises _ _ _ He).
  - unfold extract_image_urls.
    destruct (feed_total base_url events init) as [(st' & -> & _)|[-> _]];
      [|by right].
    left. rewrite bind_Ok. eexists. split; [reflexivity|]. apply dedup_NoDup.
Qed.

End DailyMailResults.

Section GuardianResults.
Context `{PyLib}.
Import Guardian.

(** A property of the images found that [_consider] keeps is kept by
    every handler: nothing else touches [images] and [_seen]. *)
Lemma step_found (P : list string -> gset string -> Prop) base :
  (forall st url st', P (images st) (_seen st) ->
     _consider base st url = Ok st' -> P (images st') (_seen st')) ->
  forall st e st', P (images st) (_seen st) ->
    step base st e = Ok st' -> P (images st') (_seen st').
Proof.
  intros Hcons st e st' HP.
  assert (Hfold : forall l st st', P (images st) (_seen st) ->
    foldM (fun st g => _consider base st (Some g)) st l = Ok st' ->
    P (images st') (_seen st')).
  { clear st st' HP. induction l as [|g l IH]; intros st st' HP; cbn [foldM].
    - intros [= <-]. exact HP.
    - destruct (_consider base st (Some g)) as [st1|] eqn:Hc; [|discriminate].
      rewrite bind_Ok. apply IH. eapply Hcons; eassumption. }
  destruct e as [tag attrs|tag|data]; cbn [step].
  - unfold handle_starttag. cbv zeta.
    destruct (Counters.open_regions_images st tag (dict attrs)) as [Hi Hs].
    rewrite <- Hi, <- Hs in HP. clear Hi Hs.
    set (st0 := open_regions st tag (dict attrs)) in *. clearbody st0.
    clear st. rename st0 into st.
    destruct (capture base st tag (dict attrs)) as [[st1 r]|] eqn:Hc;
      [|discriminate].
    rewrite bind_Ok. cbn [fst snd].
    assert (H1 : P (images st1) (_seen st1)).
    { unfold capture in Hc.
      destruct (in_scope st && bool_decide (tag ∈ ["img"; "source"]));
        [|injection Hc as <- _; exact HP].
      destruct (_pick_from_attrs base (dict attrs)) as [[u sz]|];
        [|discriminate].
      rewrite bind_Ok in Hc. cbn [fst] in Hc. cbv zeta in Hc.
      destruct (truthy u); [|injection Hc as <- _; exact HP].
      destruct (on (in_picture st)).
      - destruct (picture_best st) as [[u' hint]|].
        + destruct (_ >? hint); injection Hc as <- _; exact HP.
        + injection Hc as <- _. exact HP.
      - destruct (_consider base st u) as [st2|] eqn:Hc2; [|discriminate].
        rewrite bind_Ok in Hc. injection Hc as <- _.
        eapply Hcons; eassumption. }
    destruct r; [intros [= <-]; exact H1|].
    unfold style_image. destruct (in_scope st1); [|intros [= <-]; exact H1].
    destruct (dict attrs !! "style") as [[style|]|];
      [|discriminate|intros [= <-]; exact H1].
    destruct (style_search style) as [g|]; [|intros [= <-]; exact H1].
    intros Hc2. eapply Hcons; eassumption.
  - unfold handle_endtag.
    destruct (if String.eqb tag "picture" && on (in_picture st)
              then st' ← _commit_picture_best base st;
                   Ok (set_in_picture st' (in_picture st' - 1))
              else Ok st) as [st1|] eqn:H1; [|discriminate].
    rewrite bind_Ok. intros [= <-].
    assert (P (images st1) (_seen st1)) as HP1.
    { destruct (String.eqb tag "picture" && on (in_picture st));
        [|injection H1 as <-; exact HP].
      unfold _commit_picture_best in H1.
      destruct (picture_best st) as [[u hint]|].
      - destruct (_consider base st (Some u)) as [st2|] eqn:Hc; [|discriminate].
        rewrite !bind_Ok in H1. injection H1 as <-.
        exact (Hcons _ _ _ HP Hc).
      - rewrite bind_Ok in H1. injection H1 as <-. exact HP. }
    cbv zeta.
    repeat match goal with
    | |- context [if ?b then _ else _] => destruct b
    end; exact HP1.
  - unfold handle_data.
    destruct (in_scope st && on (in_noscript st) && nonempty (strip data));
      [|intros [= <-]; exact HP].
    apply Hfold, HP.
Qed.

Lemma feed_found (P : list string -> gset string -> Prop) base :
  (forall st url st', P (images st) (_seen st) ->
     _consider base st url = Ok st' -> P (images st') (_seen st')) ->
  forall events st st', P (images st) (_seen st) ->
    feed base st events = Ok st' -> P (images st') (_seen st').
Proof.
  intros Hcons. unfold feed.
  induction events as [|e events IH]; intros st st' HP; cbn [foldM].
  - intros [= <-]. exact HP.
  - destruct (step base st e) as [st1|] eqn:Hstep; [|discriminate].
    rewrite bind_Ok. apply IH. eapply step_found; eassumption.
Qed.

(** An address as [_consider] lets it through: resolved against the
    page it is an http or https address whose host ends in
    [i.guim.co.uk], and [u] is what the rewrite makes of it. *)
Definition passed (base u : string) : Prop :=
  exists url r,
    urljoin base url = Some r
    /\ startswith r "http://" || startswith r "https://" = true
    /\ keep_guardian_cdn r = true
    /\ upgrade_guardian_url r 2000 = Ok u.

(** X3.  Whatever the page, the images [extract_guardian_images]
    returns hold no address twice, and every one of them went through
    the scheme test, the host filter and the rewrite of [_consider]:
    an address of another host is never returned. *)
Theorem guardian_results_filtered (page_url : string) (page : list event)
    (result : list string) :
  extract_guardian_images page_url page = Ok result ->
  NoDup result /\ Forall (passed page_url) result.
Proof.
  unfold extract_guardian_images.
  destruct (feed page_url init page) as [st|] eqn:Hfeed; [|discriminate].
  intros [= <-].
  pose proof (feed_found
    (fun imgs seen => (forall x, x ∈ seen <-> x ∈ imgs) /\ NoDup imgs
                      /\ Forall (passed page_url) imgs) page_url) as Hinv.
  apply (Hinv) with (st' := st) (events := page) (st := init) in Hfeed.
  - tauto.
  - clear. intros st url st' (Hseen & Hnd & Hall). unfold _consider.
    destruct (truthy url); [|intros [= <-]; auto].
    destruct (py_urljoin page_url (or_empty url)) as [r|] eqn:Hjoin;
      [|discriminate].
    apply py_urljoin_Ok in Hjoin. rewrite bind_Ok.
    destruct (startswith r "http://" || startswith r "https://") eqn:Hhttp;
      [|intros [= <-]; auto].
    destruct (keep_guardian_cdn r) eqn:Hkeep; [|intros [= <-]; auto].
    destruct (upgrade_guardian_url r 2000) as [v|] eqn:Hv; [|discriminate].
    rewrite bind_Ok. case_bool_decide as Hnew; intros [= <-]; [auto|].
    cbn [images _seen set_images]. split; [|split].
    + intros x. rewrite elem_of_union, elem_of_singleton, elem_of_app,
        list_elem_of_singleton, Hseen. tauto.
    + apply NoDup_app. split; [exact Hnd|]. split; [|apply NoDup_singleton].
      intros y Hy Hy'. apply list_elem_of_singleton in Hy' as ->.
      apply Hnew, Hseen, Hy.
    + apply Forall_app. split; [exact Hall|]. constructor; [|constructor].
      exists (or_empty url), r. auto.
  - cbn. split; [|split; constructor].
    intros x. split; intros Hx;
      [by apply not_elem_of_empty in Hx | by apply elem_of_nil in Hx].
Qed.

(** X4.  From the start no counter of the Guardian parser ever goes
    below zero, and an end tag met while every counter is zero changes
    nothing. *)
Theorem guardian_counters_never_negative (base : string)
    (events : list event) (st : state) :
  feed base init events = Ok st ->
  Regions.counters_nonneg st
  /\ (forall st0 tag,
        in_main st0 = 0 -> in_article st0 = 0 -> in_lightbox st0 = 0 ->
        in_figure st0 = 0 -> in_picture st0 = 0 -> in_noscript st0 = 0 ->
        handle_endtag base st0 tag = Ok st0).
Proof.
  intros Hfeed. split.
  - eapply Counters.feed_nonneg; [|exact Hfeed].
    unfold counters_nonneg. cbn. lia.
  - intros st0 tag E1 E2 E3 E4 E5 E6. unfold handle_endtag.
    rewrite E5. change (on 0) with false. rewrite andb_false_r, bind_Ok.
    cbv zeta.
    rewrite E6; change (on 0) with false; rewrite andb_false_r; cbv iota.
    rewrite E4; change (on 0) with false; rewrite andb_false_r; cbv iota.
    rewrite E2; change (on 0) with false; rewrite andb_false_r; cbv iota.
    rewrite E1; change (on 0) with false; rewrite andb_false_r; cbv iota.
    rewrite E3; change (on 0) with false; rewrite andb_false_r; cbv iota.
    reflexivity.
Qed.

End GuardianResults.

(** The theorem at a wrapper that holds an image whose address
    [urljoin] refuses. *)
Lemma dailymail_raises_only_unresolved_witness :
  @DailyMail.feed Plain.lib "https://www.dailymail.co.uk/news/article-1/x.html"
    DailyMail.init
    [StartTag "div" [("class", Some "image-wrap")];
     StartTag "img" [("src", Some "http://[")]; EndTag "div"]
  = Raise ValueError.
Proof.
  apply (proj1 (proj2 (@dailymail_raises_only_unresolved Plain.lib
    "https://www.dailymail.co.uk/news/article-1/x.html"
    [StartTag "div" [("class", Some "image-wrap")];
     StartTag "img" [("src", Some "http://[")]; EndTag "div"]
    DailyMail.init))
    [StartTag "div" [("class", Some "image-wrap")]]
    (StartTag "img" [("src", Some "http://[")]) [EndTag "div"]
    _ eq_refl eq_refl).
  exists "img", [("src", Some "http://[")], [("http://[", None, None)],
    ("http://[", None, None).
  repeat split; try reflexivity. left.
Defined.

(** The theorems at a run of the Guardian parser. *)
Lemma guardian_results_filtered_witness :
  NoDup ["https://i.guim.co.uk/img/media/a.jpg?width=300&s=0a1b"]
  /\ Forall (@passed Plain.lib "https://www.theguardian.com/world/2024/x")
       ["https://i.guim.co.uk/img/media/a.jpg?width=300&s=0a1b"].
Proof.
  exact (@guardian_results_filtered Plain.lib
    "https://www.theguardian.com/world/2024/x"
    [StartTag "div" [("id", Some "gu-lightbox")];
     StartTag "img"
       [("src", Some "https://i.guim.co.uk/img/media/a.jpg?width=300&s=0a1b")];
     StartTag "img"
       [("src", Some "https://i.guim.co.uk/img/media/a.jpg?width=300&s=0a1b")]]
    _ eq_refl).
Defined.

Lemma guardian_counters_never_negative_witness :
  Regions.counters_nonneg
    (Guardian.State [] ∅ 1 1 0 0 0 0 None).
Proof.
  exact (proj1 (@guardian_counters_never_negative Plain.lib
    "https://www.theguardian.com/world/2024/x"
    [StartTag "main" []; StartTag "article" []; EndTag "figure"] _ eq_refl)).
Defined.

End Results.

(** * Further properties: pages without a region *)

Module NoRegion.
Import Py Lib Re PyFacts Regions.

(** A start tag [tag], in the spelling the parser hands over. *)
Definition opens (tag : string) (e : event) : bool :=
  match e with
  | StartTag t _ => String.eqb t tag
  | _ => false
  end.

Section DailyMailNoRegion.
Context `{PyLib}.
Import DailyMail.

(** A [div] start tag with [image-wrap] among the words of its class. *)
Definition opens_wrap (e : event) : bool :=
  match e with
  | StartTag tag attrs =>
      String.eqb (lower tag) "div"
      && bool_decide ("image-wrap"
           ∈ split (or_empty (default (Some EmptyString)
                                (dict attrs !! "class"))))
  | _ => false
  end.

Definition all_false (stack : list bool) : Prop := Forall (fun b => b = false) stack.

Lemma all_false_top stack : all_false stack -> top stack = false.
Proof.
  unfold top. intros Hall.
  destruct (last stack) as [b|] eqn:Hlast; [|reflexivity].
  apply last_Some in Hlast as [l' ->].
  apply Forall_app in Hall as [_ Hb]. by inversion Hb.
Qed.

Lemma all_false_pop stack s :
  all_false stack -> pop stack = Ok s -> all_false s.
Proof.
  intros Hall. destruct stack as [|b l] using rev_ind.
  - discriminate.
  - rewrite pop_snoc. intros [= <-]. apply Forall_app in Hall. tauto.
Qed.

Lemma step_no_wrap base st e st' :
  opens_wrap e = false ->
  all_false (stack_in_wrap st) -> imgs st = [] ->
  step base st e = Ok st' ->
  all_false (stack_in_wrap st') /\ imgs st' = [].
Proof.
  intros He Hall Himgs. destruct e as [tag attrs|tag|data]; cbn [step].
  - unfold handle_starttag. cbv zeta. cbn [opens_wrap] in He.
    destruct (String.eqb (lower tag) "div").
    + cbn [andb] in He. rewrite He. intros [= <-]. cbn.
      rewrite (all_false_top _ Hall). split; [|exact Himgs].
      apply Forall_app. split; [exact Hall|]. by constructor.
    + destruct (String.eqb (lower tag) "picture"); [intros [= <-]; auto|].
      destruct (String.eqb (lower tag) "source" && top (stack_in_picture st)).
      { destruct (truthy _); [|intros [= <-]; auto].
        destruct (_parse_srcset _); [|discriminate].
        rewrite bind_Ok. intros [= <-]. auto. }
      destruct (String.eqb (lower tag) "img"); [|intros [= <-]; auto].
      rewrite (all_false_top _ Hall). intros [= <-]. auto.
  - unfold handle_endtag. cbv zeta.
    destruct (String.eqb (lower tag) "div").
    + destruct (nonnil (stack_in_wrap st)); [|intros [= <-]; auto].
      destruct (pop (stack_in_wrap st)) as [s|] eqn:Hpop; [|discriminate].
      rewrite bind_Ok. intros [= <-]. cbn. split; [|exact Himgs].
      eapply all_false_pop; eassumption.
    + destruct (String.eqb (lower tag) "picture"); [|intros [= <-]; auto].
      destruct (if nonnil (stack_in_picture st) then _ else _);
        [|discriminate].
      rewrite bind_Ok. intros [= <-]. auto.
  - intros [= <-]. auto.
Qed.

(** X5.  A page none of whose [div] start tags has [image-wrap] among
    the words of its class gives no image at all, whatever else it
    holds. *)
Theorem dailymail_no_wrap_no_images (base_url : string) (page : list event) :
  forallb (fun e => negb (opens_wrap e)) page = true ->
  extract_image_urls base_url page = Ok [].
Proof.
  intros Hpage. unfold extract_image_urls.
  assert (Hrun : forall st0,
    all_false (stack_in_wrap st0) /\ imgs st0 = [] ->
    exists st, feed base_url st0 page = Ok st
               /\ all_false (stack_in_wrap st) /\ imgs st = []).
  { unfold feed. induction page as [|e page IH]; intros st0 H0; cbn [foldM].
    - eauto.
    - cbn [forallb] in Hpage. apply andb_true_iff in Hpage as [He Hpage].
      apply negb_true_iff in He. destruct H0 as [Hall Himgs].
      destruct (step_total base_url st0 e)
        as [(st1 & Hstep & _)|[_ (tag & attrs & cands & c & _ & _ & Htop & _)]].
      + rewrite Hstep, bind_Ok. apply (IH Hpage).
        eapply step_no_wrap; eassumption.
      + rewrite (all_false_top _ Hall) in Htop. discriminate. }
  destruct (Hrun init) as (st & -> & _ & Himgs);
    [split; [constructor|reflexivity]|].
  rewrite bind_Ok, Himgs. reflexivity.
Qed.

End DailyMailNoRegion.

Section GuardianNoRegion.
Context `{PyLib}.
Import Guardian.

(** A [div] start tag that opens the lightbox. *)
Definition opens_lightbox (e : event) : bool :=
  match e with
  | StartTag tag attrs =>
      String.eqb tag "div"
      && (bool_decide (get (dict attrs) "id" = Some "gu-lightbox")
          || bool_decide (get (dict attrs) "role" = Some "dialog"))
  | _ => false
  end.

(** No region is open and nothing was found; [m] and [a] say which of
    the counters of [main] and [article] are known to be zero. *)
Definition closed (m a : bool) (st : state) : Prop :=
  in_lightbox st = 0 /\ in_figure st = 0 /\ in_picture st = 0
  /\ in_noscript st = 0 /\ images st = []
  /\ (m = true -> in_main st = 0)
  /\ (m || a = true -> in_article st = 0).

Lemma closed_out m a st : closed m a st -> in_scope st = false.
Proof.
  unfold closed, in_scope. intros (-> & -> & _). reflexivity.
Qed.

Lemma step_closed (m a f : bool) base st e :
  opens_lightbox e = false ->
  (m = true -> opens "main" e = false) ->
  (a = true -> opens "article" e = false) ->
  (f = true -> opens "figure" e = false) ->
  m || a || f = true ->
  closed m a st ->
  exists st', step base st e = Ok st' /\ closed m a st'.
Proof.
  intros Hlb Hm Ha Hf Hmaf Hst.
  destruct e as [tag attrs|tag|data]; cbn [step].
  - unfold handle_starttag. cbv zeta.
    assert (Hopen : closed m a (open_regions st tag (dict attrs))).
    { cbn [opens_lightbox opens] in *.
      destruct Hst as (H1 & H2 & H3 & H4 & H5 & H6 & H7).
      unfold open_regions, in_scope.
      destruct (String.eqb tag "main") eqn:Emain.
      { apply String.eqb_eq in Emain as ->. cbn.
        destruct m; [by specialize (Hm eq_refl)|].
        unfold closed; cbn. repeat split; auto. discriminate. }
      destruct (String.eqb tag "article") eqn:Eart.
      { apply String.eqb_eq in Eart as ->. cbn.
        destruct (on (in_main st)) eqn:Eon; cbn.
        - destruct a; [by specialize (Ha eq_refl)|].
          destruct m; [rewrite (H6 eq_refl) in Eon; discriminate|].
          unfold closed; cbn. repeat split; auto; discriminate.
        - unfold closed; cbn. repeat split; auto. }
      cbn [andb]. rewrite Hlb.
      destruct (String.eqb tag "figure") eqn:Efig.
      { apply String.eqb_eq in Efig as ->. cbn [andb].
        rewrite H1. change (on 0) with false. rewrite orb_false_r.
        destruct (on (in_article st)) eqn:Eon.
        - destruct f; [by specialize (Hf eq_refl)|].
          rewrite orb_false_r in Hmaf. rewrite (H7 Hmaf) in Eon. discriminate.
        - cbn. unfold closed. repeat split; auto. }
      cbn [andb].
      do 2 (rewrite H2, H1; change (on 0 || on 0) with false;
            rewrite andb_false_r; cbv iota).
      unfold closed. repeat split; auto. }
    revert Hopen. generalize (open_regions st tag (dict attrs)).
    clear Hst st. intros st Hst.
    unfold capture. rewrite (closed_out _ _ _ Hst). cbn [andb].
    rewrite bind_Ok. cbn [fst snd]. unfold style_image.
    rewrite (closed_out _ _ _ Hst). eauto.
  - unfold handle_endtag.
    destruct Hst as (H1 & H2 & H3 & H4 & H5 & H6 & H7).
    rewrite H3. change (on 0) with false. rewrite andb_false_r, bind_Ok.
    cbv zeta.
    rewrite H4; change (on 0) with false; rewrite andb_false_r; cbv iota.
    rewrite H2; change (on 0) with false; rewrite andb_false_r; cbv iota.
    eexists. split; [reflexivity|]. unfold closed.
    destruct (String.eqb tag "article" && on (in_article st)) eqn:E1;
      destruct (String.eqb tag "main" && on (in_main st)) eqn:E2;
      cbn -[Z.sub]; rewrite ?E2; cbn -[Z.sub];
      rewrite ?H1; change (on 0) with false; rewrite ?andb_false_r;
      cbn -[Z.sub]; repeat split; auto; intros Hx.
    all: try (apply andb_true_iff in E1 as [_ E1]; rewrite (H7 Hx) in E1;
              discriminate).
    all: try (apply andb_true_iff in E2 as [_ E2]; rewrite (H6 Hx) in E2;
              discriminate).
  - unfold handle_data. rewrite (closed_out _ _ _ Hst). cbn [andb]. eauto.
Qed.

Lemma no_region_closed (page_url : string) (page : list event)
    (m a f : bool) :
  forallb (fun e => negb (opens_lightbox e)) page = true ->
  (m = true -> forallb (fun e => negb (opens "main" e)) page = true) ->
  (a = true -> forallb (fun e => negb (opens "article" e)) page = true) ->
  (f = true -> forallb (fun e => negb (opens "figure" e)) page = true) ->
  m || a || f = true ->
  extract_guardian_images page_url page = Ok [].
Proof.
  intros Hlb Hm Ha Hf Hmaf. unfold extract_guardian_images.
  assert (H0 : closed m a init) by (unfold closed; cbn; auto 10).
  assert (Hfeed : exists st, feed page_url init page = Ok st /\ closed m a st).
  { revert H0. generalize init. unfold feed.
    induction page as [|e page IH]; intros st Hst; cbn [foldM]; [eauto|].
    cbn [forallb] in *. apply andb_true_iff in Hlb as [Hlb1 Hlb].
    apply negb_true_iff in Hlb1.
    assert (Hm1 : m = true -> opens "main" e = false
                              /\ forallb (fun e => negb (opens "main" e)) page = true).
    { intros E. specialize (Hm E). apply andb_true_iff in Hm as [Hm ?].
      by apply negb_true_iff in Hm. }
    assert (Ha1 : a = true -> opens "article" e = false
                              /\ forallb (fun e => negb (opens "article" e)) page = true).
    { intros E. specialize (Ha E). apply andb_true_iff in Ha as [Ha ?].
      by apply negb_true_iff in Ha. }
    assert (Hf1 : f = true -> opens "figure" e = false
                              /\ forallb (fun e => negb (opens "figure" e)) page = true).
    { intros E. specialize (Hf E). apply andb_true_iff in Hf as [Hf ?].
      by apply negb_true_iff in Hf. }
    destruct (step_closed m a f page_url st e) as (st1 & -> & Hst1); auto.
    { intros E. apply Hm1, E. } { intros E. apply Ha1, E. }
    { intros E. apply Hf1, E. }
    rewrite bind_Ok. apply IH; auto.
    { intros E. apply Hm1, E. } { intros E. apply Ha1, E. }
    { intros E. apply Hf1, E. } }
  destruct Hfeed as (st & -> & Hst). cbn. f_equal. apply Hst.
Qed.

(** X6.  A Guardian page without a lightbox [div] gives no image if it
    has no [main], or no [article], or no [figure] start tag: the
    figure region opens only inside an article, and the article only
    inside [main]. *)
Theorem guardian_no_region_no_images (page_url : string)
    (page : list event) :
  forallb (fun e => negb (opens_lightbox e)) page = true ->
  forallb (fun e => negb (opens "main" e)) page = true
  \/ forallb (fun e => negb (opens "article" e)) page = true
  \/ forallb (fun e => negb (opens "figure" e)) page = true ->
  extract_guardian_images page_url page = Ok [].
Proof.
  intros Hlb [Hm|[Ha|Hf]].
  - apply (no_region_closed page_url page true false false); auto;
      discriminate.
  - apply (no_region_closed page_url page false true false); auto;
      discriminate.
  - apply (no_region_closed page_url page false false true); auto;
      discriminate.
Qed.

End GuardianNoRegion.

(** The theorem on a page whose only [div] has the class
    [image-wrapper]. *)
Lemma dailymail_no_wrap_no_images_witness :
  @DailyMail.extract_image_urls Plain.lib
    "https://www.dailymail.co.uk/news/article-1/x.html"
    [StartTag "div" [("class", Some "image-wrapper")];
     StartTag "img" [("src", Some "https://i.dailymail.co.uk/1s/a.jpg")];
     EndTag "div"] = Ok [].
Proof. apply dailymail_no_wrap_no_images. reflexivity. Defined.

(** The theorem on a page with a figure in [main] and no article. *)
Lemma guardian_no_region_no_images_witness :
  @Guardian.extract_guardian_images Plain.lib
    "https://www.theguardian.com/world/2024/x"
    [StartTag "main" []; StartTag "figure" [];
     StartTag "img"
       [("src", Some "https://i.guim.co.uk/img/media/a.jpg?width=300&s=0a1b")];
     EndTag "figure"; EndTag "main"] = Ok [].
Proof.
  apply guardian_no_region_no_images; [reflexivity|].
  right. left. reflexivity.
Defined.

End NoRegion.

(** * Further properties: descriptor texts *)

Module Srcsets.
Import Py Lib Re PyFacts Regions.

(** Every character of [s] satisfies [p]. *)
Fixpoint all_chars (p : ascii -> bool) (s : string) : bool :=
  match s with
  | EmptyString => true
  | String c s' => p c && all_chars p s'
  end.

(** White space or a comma: what [SRCSET_SPLIT] takes for a separator. *)
Definition separator (c : ascii) : bool := isspace c || Ascii.eqb c ",".

(** Neither white space nor a comma. *)
Definition address_char (c : ascii) : bool :=
  negb (isspace c) && negb (Ascii.eqb c ",").

Lemma allspace_all_chars s : allspace s = all_chars isspace s.
Proof. induction s as [|c s IH]; cbn; [reflexivity | by rewrite IH]. Qed.

Lemma all_chars_app p a b :
  all_chars p (a +:+ b) = all_chars p a && all_chars p b.
Proof.
  induction a as [|c a IH]; [reflexivity|].
  rewrite app_cons. cbn [all_chars]. rewrite IH, andb_assoc. reflexivity.
Qed.

Lemma all_chars_rev_app p s : forall acc,
  all_chars p (String.rev_app s acc) = all_chars p s && all_chars p acc.
Proof.
  induction s as [|c s IH]; intros acc; cbn [String.rev_app all_chars];
    [reflexivity|].
  rewrite IH. cbn [all_chars].
  destruct (p c), (all_chars p s); reflexivity.
Qed.

Lemma all_chars_rev p s : all_chars p (String.rev s) = all_chars p s.
Proof.
  unfold String.rev. rewrite all_chars_rev_app. cbn [all_chars].
  by rewrite andb_true_r.
Qed.

Lemma rev_app_nonempty s : forall acc,
  nonempty acc = true -> nonempty (String.rev_app s acc) = true.
Proof.
  induction s as [|c s IH]; intros acc Hacc; cbn [String.rev_app];
    [exact Hacc | by apply IH].
Qed.

Lemma all_chars_lstrip p s :
  all_chars p s = true -> all_chars p (lstrip s) = true.
Proof.
  induction s as [|c s IH]; cbn [lstrip all_chars]; [auto|].
  intros Hs. destruct (isspace c); [|exact Hs].
  apply andb_true_iff in Hs as [_ Hs]. auto.
Qed.

Lemma all_chars_rstrip p s :
  all_chars p s = true -> all_chars p (rstrip s) = true.
Proof.
  induction s as [|c s IH]; cbn [rstrip all_chars]; [auto|].
  intros Hs. apply andb_true_iff in Hs as [Hc Hs]. specialize (IH Hs).
  destruct (rstrip s) as [|c' r].
  - destruct (isspace c); [reflexivity|]. cbn. by rewrite Hc.
  - cbn [all_chars] in *. by rewrite Hc, IH.
Qed.

Lemma all_chars_strip p s :
  all_chars p s = true -> all_chars p (strip s) = true.
Proof. intros Hs. apply all_chars_rstrip, all_chars_lstrip, Hs. Qed.

Lemma separator_lstrip s :
  all_chars separator (lstrip s) = all_chars separator s.
Proof.
  induction s as [|c s IH]; cbn [lstrip all_chars]; [reflexivity|].
  destruct (isspace c) eqn:Hc; [|reflexivity].
  assert (separator c = true) as -> by (unfold separator; by rewrite Hc).
  exact IH.
Qed.

Lemma separator_rstrip s :
  all_chars separator (rstrip s) = all_chars separator s.
Proof.
  induction s as [|c s IH]; cbn [rstrip all_chars]; [reflexivity|].
  rewrite <- IH. destruct (rstrip s) as [|c' r]; [|reflexivity].
  destruct (isspace c) eqn:Hc; cbn [all_chars]; [|reflexivity].
  assert (separator c = true) as -> by (unfold separator; by rewrite Hc).
  reflexivity.
Qed.

Section GuardianSrcset.
Context `{PyLib}.
Import Guardian.

Lemma best_loop_some base parts : forall u n,
  best_loop base parts (Some u) n <> Ok None.
Proof.
  induction parts as [|p parts IH]; intros u n; cbn [best_loop];
    [discriminate|].
  destruct (CANDIDATE_match p) as [[[u' d] unit]|].
  - destruct (py_int d) as [size|]; [|discriminate]. rewrite bind_Ok.
    destruct (size >? n); [|apply IH].
    destruct (py_urljoin base u') as [r|]; [|discriminate].
    rewrite bind_Ok. apply IH.
  - cbv zeta. destruct (nonempty (strip p)); [|apply IH].
    destruct (py_urljoin base (strip p)); discriminate.
Qed.

Lemma blank_no_candidate p :
  allspace p = true -> CANDIDATE_match p = None.
Proof.
  intros Hp. unfold CANDIDATE_match. rewrite (allspace_lstrip _ Hp).
  reflexivity.
Qed.

Lemma best_loop_none base parts :
  best_loop base parts None (-1) = Ok None
  <-> Forall (fun p => allspace p = true) parts.
Proof.
  induction parts as [|p parts IH]; cbn [best_loop].
  - split; [constructor | reflexivity].
  - destruct (CANDIDATE_match p) as [[[u d] unit]|] eqn:Hc.
    + split.
      * pose proof (Selector.candidate_size_nonneg _ _ _ _ Hc) as Hd.
        assert (Hz : Selector.size_z p = int_of_digits d).
        { unfold Selector.size_z, Selector.size_of. by rewrite Hc. }
        destruct (Selector.candidate_int _ _ _ _ Hc) as [[_ ->]|[_ ->]];
          [|discriminate].
        rewrite bind_Ok.
        assert ((Selector.size_z p >? -1) = true) as -> by lia.
        destruct (py_urljoin base u) as [r|]; [|discriminate].
        rewrite bind_Ok. intros Hn. by apply best_loop_some in Hn.
      * intros Hall. apply Forall_cons in Hall as [Hp _].
        rewrite (blank_no_candidate _ Hp) in Hc. discriminate.
    + cbv zeta. destruct (nonempty (strip p)) eqn:Hne.
      * split.
        -- destruct (py_urljoin base (strip p)); discriminate.
        -- intros Hall. apply Forall_cons in Hall as [Hp _].
           apply strip_empty in Hp. rewrite Hp in Hne. discriminate.
      * rewrite IH. split.
        -- intros Hall. constructor; [|exact Hall].
           apply strip_empty. by destruct (strip p).
        -- intros Hall. by apply Forall_cons in Hall as [_ Hall].
Qed.

Lemma split_blank s : forall sep piece ws,
  allspace ws = true -> (sep = true -> piece = EmptyString) ->
  Forall (fun p => allspace p = true) (srcset_split_go sep piece ws s)
  <-> allspace piece = true /\ all_chars separator s = true.
Proof.
  induction s as [|c s IH]; intros sep piece ws Hws Hsep;
    cbn [srcset_split_go all_chars].
  - rewrite Forall_singleton, !allspace_all_chars, all_chars_rev,
      all_chars_app, <- !allspace_all_chars, Hws. cbn. tauto.
  - unfold separator at 1.
    destruct (Ascii.eqb c ",") eqn:Hc.
    + rewrite orb_true_r. cbn [andb]. rewrite Forall_cons, IH by auto.
      rewrite !allspace_all_chars, all_chars_rev. cbn. tauto.
    + rewrite orb_false_r. destruct (isspace c) eqn:Hsp; cbn [andb].
      * destruct sep.
        -- rewrite IH by auto. rewrite (Hsep eq_refl). tauto.
        -- rewrite IH; [tauto | cbn; by rewrite Hsp | discriminate].
      * rewrite IH; [|reflexivity|discriminate].
        cbn [allspace]. rewrite Hsp. cbn.
        split; [intros [? _]; discriminate | intros [_ ?]; discriminate].
Qed.

(** X7.  [best_from_srcset] returns no address exactly for a text of
    white space and commas only, the empty text included: for any other
    text it returns an address or raises [ValueError]. *)
Theorem best_from_srcset_none (srcset base_url : string) :
  (best_from_srcset srcset base_url = Ok None
   <-> all_chars separator srcset = true)
  /\ ((exists r, best_from_srcset srcset base_url = Ok (Some r))
      \/ best_from_srcset srcset base_url = Raise ValueError
      <-> all_chars separator srcset = false).
Proof.
  assert (Hnone : best_from_srcset srcset base_url = Ok None
                  <-> all_chars separator srcset = true).
  { unfold best_from_srcset. destruct srcset as [|c s]; [cbn; tauto|].
    cbn [nonempty]. rewrite best_loop_none. unfold SRCSET_SPLIT_split.
    rewrite split_blank by (reflexivity || discriminate).
    unfold strip. rewrite separator_rstrip, separator_lstrip. cbn [allspace].
    tauto. }
  split; [exact Hnone|].
  destruct (all_chars separator srcset) eqn:Hsep.
  - split; [|discriminate].
    rewrite (proj2 Hnone eq_refl). intros [[r Hr]|Hr]; discriminate.
  - split; [reflexivity|]. intros _.
    destruct (Counters.best_from_srcset_cases srcset base_url)
      as [[[r|] Hr]|Hr]; [left; eauto| |right; exact Hr].
    apply Hnone in Hr. discriminate.
Qed.

(** The loop over parts that are candidates or blank, when it returns,
    leaves the decision to the part that follows them. *)
Lemma best_loop_bare base pre p rest : forall b n,
  Forall (fun q => is_Some (CANDIDATE_match q) \/ strip q = EmptyString) pre ->
  CANDIDATE_match p = None -> nonempty (strip p) = true ->
  match best_loop base pre b n with
  | Ok _ =>
      best_loop base (pre ++ p :: rest) b n
      = Some <$> py_urljoin base (strip p)
  | Raise e => best_loop base (pre ++ p :: rest) b n = Raise e
  end.
Proof.
  induction pre as [|q pre IH]; intros b n Hpre Hp Hne; cbn [app best_loop].
  - rewrite Hp. cbv zeta. rewrite Hne. reflexivity.
  - apply Forall_cons in Hpre as [Hq Hpre].
    destruct (CANDIDATE_match q) as [[[u d] unit]|].
    + destruct (py_int d) as [size|]; [|reflexivity]. rewrite !bind_Ok.
      destruct (size >? n); [|apply IH; assumption].
      destruct (py_urljoin base u) as [r|]; [|reflexivity].
      rewrite !bind_Ok. apply IH; assumption.
    + destruct Hq as [[x Hx]|Hq]; [discriminate|].
      cbv zeta. rewrite Hq. cbn [nonempty]. apply IH; assumption.
Qed.

(** X8.  In [best_from_srcset] the first part that is neither a
    candidate nor blank decides the result.  When the loop over the
    parts before it returns, the call ends as [urljoin] on the text of
    that part does: it returns the text resolved against the page,
    whatever the numbers of the candidates before it and whatever
    follows it, or raises [ValueError] when [urljoin] refuses the text.
    When the loop over the parts before it raises, for a number that
    [int] refuses or an address that [urljoin] refuses, so does the
    call. *)
Theorem best_from_srcset_bare_address (srcset base_url : string)
    (pre : list string) (p : string) (rest : list string) :
  SRCSET_SPLIT_split (strip srcset) = pre ++ p :: rest ->
  Forall (fun q => is_Some (CANDIDATE_match q) \/ strip q = EmptyString) pre ->
  CANDIDATE_match p = None ->
  nonempty (strip p) = true ->
  (forall b, best_loop base_url pre None (-1) = Ok b ->
     best_from_srcset srcset base_url
     = Some <$> py_urljoin base_url (strip p))
  /\ (forall e, best_loop base_url pre None (-1) = Raise e ->
        best_from_srcset srcset base_url = Raise e).
Proof.
  intros Hsplit Hpre Hp Hne.
  assert (Hrun : best_from_srcset srcset base_url
                 = best_loop base_url (pre ++ p :: rest) None (-1)).
  { unfold best_from_srcset. destruct srcset as [|c s].
    - exfalso. cbn in Hsplit.
      destruct pre as [|q [|q' pre]]; try discriminate Hsplit.
      injection Hsplit as <- _. discriminate Hne.
    - cbn [nonempty]. rewrite Hsplit. reflexivity. }
  rewrite Hrun.
  pose proof (best_loop_bare base_url pre p rest None (-1) Hpre Hp Hne) as Hl.
  split.
  - intros b Hb. rewrite Hb in Hl. exact Hl.
  - intros e He. rewrite He in Hl. exact Hl.
Qed.

End GuardianSrcset.

Section DailyMailSrcset.
Context `{PyLib}.
Import DailyMail.

Lemma split_on_nonnil sep s : split_on sep s <> [].
Proof.
  destruct s as [|c s]; cbn [split_on]; [discriminate|].
  destruct (Ascii.eqb c sep); [discriminate|].
  destruct (split_on sep s); discriminate.
Qed.

Lemma split_on_app sep a b :
  split_on sep (a +:+ String sep b) = split_on sep a ++ split_on sep b.
Proof.
  induction a as [|c a IH].
  - cbn [String.append split_on]. change (EmptyString +:+ ?x) with x.
    cbn [split_on]. rewrite Ascii.eqb_refl. reflexivity.
  - rewrite app_cons. cbn [split_on]. rewrite IH.
    destruct (Ascii.eqb c sep); [reflexivity|].
    pose proof (split_on_nonnil sep a) as Hne.
    destruct (split_on sep a) as [|w ws]; [congruence | reflexivity].
Qed.

Lemma parse_srcset_tokens srcset :
  _parse_srcset srcset
  = Ok (omap Parsers.spec_token (split_on "," srcset)).
Proof.
  unfold _parse_srcset. destruct srcset as [|c s]; [reflexivity|].
  cbn [nonempty]. rewrite Parsers.parse_loop_spec. reflexivity.
Qed.

(** X9.  [_parse_srcset] returns on every text, and it reads the two
    sides of a comma independently: the candidates of [a,b] are those
    of [a] followed by those of [b]. *)
Theorem parse_srcset_concat (a b : string) :
  exists la lb,
    _parse_srcset a = Ok la /\ _parse_srcset b = Ok lb
    /\ _parse_srcset (a +:+ "," +:+ b) = Ok (la ++ lb).
Proof.
  eexists _, _. rewrite !parse_srcset_tokens.
  split; [reflexivity|]. split; [reflexivity|].
  change ("," +:+ b) with (String "," b).
  rewrite split_on_app, omap_app. reflexivity.
Qed.

Lemma split_on_no_sep sep s :
  Forall (fun part => all_chars (fun c => negb (Ascii.eqb c sep)) part = true)
    (split_on sep s).
Proof.
  induction s as [|c s IH]; cbn [split_on]; [by repeat constructor|].
  destruct (Ascii.eqb c sep) eqn:Hc; [by constructor|].
  destruct (split_on sep s) as [|w ws].
  { constructor; [cbn; by rewrite Hc | constructor]. }
  apply Forall_cons in IH as [Hw Hws]. constructor; [|exact Hws].
  cbn. by rewrite Hc, Hw.
Qed.

Lemma split_go_words (q : ascii -> bool) s : forall cur,
  all_chars (fun c => negb (isspace c) && q c) cur = true ->
  all_chars q s = true ->
  Forall (fun w => nonempty w = true
            /\ all_chars (fun c => negb (isspace c) && q c) w = true)
    (split_go cur s).
Proof.
  assert (Hrev : forall cur, cur <> EmptyString ->
            nonempty (String.rev cur) = true).
  { intros [|c cur] Hne; [congruence|]. unfold String.rev.
    cbn [String.rev_app]. by apply rev_app_nonempty. }
  induction s as [|c s IH]; intros cur Hcur Hs; cbn [split_go].
  - destruct cur as [|c' cur']; [constructor|].
    constructor; [|constructor]. split; [by apply Hrev|].
    by rewrite all_chars_rev.
  - cbn [all_chars] in Hs. apply andb_true_iff in Hs as [Hc Hs].
    destruct (isspace c) eqn:Hsp.
    + destruct cur as [|c' cur'].
      * apply IH; [reflexivity | exact Hs].
      * constructor; [|apply IH; [reflexivity | exact Hs]].
        split; [by apply Hrev | by rewrite all_chars_rev].
    + apply IH; [|exact Hs]. cbn [all_chars]. by rewrite Hsp, Hc, Hcur.
Qed.

(** X10.  Every candidate [_parse_srcset] returns has an address that
    is not empty and holds no white space and no comma, and there are
    at most as many candidates as comma-delimited parts. *)
Theorem parse_srcset_addresses (srcset : string) :
  exists l,
    _parse_srcset srcset = Ok l
    /\ Forall (fun c => nonempty (url c) = true
                 /\ all_chars address_char (url c) = true) l
    /\ (length l <= length (split_on "," srcset))%nat.
Proof.
  eexists. split; [apply parse_srcset_tokens|]. split.
  - pose proof (split_on_no_sep "," srcset) as Hparts.
    induction Hparts as [|part parts Hpart _ IH]; [constructor|].
    cbn [omap list_omap]. change (list_omap ?f ?l) with (omap f l).
    unfold Parsers.spec_token at 1.
    pose proof (split_go_words (fun c => negb (Ascii.eqb c ","))
                  (strip part) EmptyString eq_refl
                  (all_chars_strip _ _ Hpart)) as Hwords.
    fold (split (strip part)) in Hwords.
    destruct (split (strip part)) as [|u rest]; [exact IH|].
    destruct (Parsers.spec_hints (head rest)) as [w d].
    constructor; [|exact IH].
    apply Forall_cons in Hwords as [Hu _]. exact Hu.
  - generalize (split_on "," srcset). intros parts.
    induction parts as [|part parts IH]; [reflexivity|].
    cbn [omap list_omap]. change (list_omap ?f ?l) with (omap f l).
    destruct (Parsers.spec_token part); cbn [length]; lia.
Qed.

End DailyMailSrcset.

(** The theorem on a descriptor text whose second part has no number:
    the larger candidate before it is passed over. *)
Lemma best_from_srcset_bare_address_witness :
  @Guardian.best_from_srcset Plain.lib
    "https://i.guim.co.uk/a.jpg 800w, https://i.guim.co.uk/b.jpg"
    "https://www.theguardian.com/world/2024/x"
  = Ok (Some "https://i.guim.co.uk/b.jpg").
Proof.
  apply (proj1 (@best_from_srcset_bare_address Plain.lib
    "https://i.guim.co.uk/a.jpg 800w, https://i.guim.co.uk/b.jpg"
    "https://www.theguardian.com/world/2024/x"
    ["https://i.guim.co.uk/a.jpg 800w"] "https://i.guim.co.uk/b.jpg" []
    eq_refl
    ltac:(constructor; [left; eexists; reflexivity | constructor])
    eq_refl eq_refl) (Some "https://i.guim.co.uk/a.jpg")).
  reflexivity.
Defined.

End Srcsets.

(** * Further properties: the names of the files *)

Module Names.
Import Py Lib Re PyFacts Srcsets.

Definition no_dot (s : string) : bool :=
  all_chars (fun c => negb (Ascii.eqb c ".")) s.

(** The text starts with a dot. *)
Definition dotted (s : string) : bool := next_is (Ascii.eqb ".") s.

Lemma pretty_N_go_no_dot (x : N) : forall s,
  no_dot s = true -> no_dot (pretty_N_go x s) = true.
Proof.
  induction (N.lt_wf_0 x) as [x _ IH]. intros s Hs.
  assert (x = 0 \/ 0 < x)%N as [->|Hx] by lia.
  - by rewrite pretty_N_go_0.
  - rewrite pretty_N_go_step by done. apply IH.
    + by apply N.div_lt.
    + unfold no_dot. cbn [all_chars]. fold (no_dot s). rewrite Hs.
      unfold pretty_N_char. by repeat case_match.
Qed.

Lemma pretty_Z_no_dot (z : Z) : no_dot (pretty z) = true.
Proof.
  assert (HN : forall n : N, no_dot (pretty n) = true).
  { intros n. unfold pretty, pretty_N. case_decide; [reflexivity|].
    by apply pretty_N_go_no_dot. }
  destruct z as [|p|p]; [reflexivity | apply HN |].
  unfold pretty, pretty_Z. unfold no_dot.
  change (all_chars _ ("-" +:+ ?s)) with (no_dot s). apply HN.
Qed.

Lemma no_dot_cut a : forall b r r',
  no_dot a = true -> no_dot b = true -> dotted r = true -> dotted r' = true ->
  a +:+ r = b +:+ r' -> a = b.
Proof.
  induction a as [|c a IH]; intros [|c' b] r r' Ha Hb Hr Hr'.
  - reflexivity.
  - change (EmptyString +:+ r) with r. rewrite app_cons. intros ->.
    exfalso. unfold dotted in Hr. cbn [next_is] in Hr.
    apply Ascii.eqb_eq in Hr as <-. discriminate Hb.
  - change (EmptyString +:+ r') with r'. rewrite app_cons. intros <-.
    exfalso. unfold dotted in Hr'. cbn [next_is] in Hr'.
    apply Ascii.eqb_eq in Hr' as <-. discriminate Ha.
  - rewrite !app_cons. intros [= <- Heq].
    unfold no_dot in Ha, Hb. cbn [all_chars] in Ha, Hb.
    apply andb_true_iff in Ha as [_ Ha].
    apply andb_true_iff in Hb as [_ Hb].
    f_equal. exact (IH b r r' Ha Hb Hr Hr' Heq).
Qed.

Lemma app_inv_head_s (p a b : string) : p +:+ a = p +:+ b -> a = b.
Proof.
  induction p as [|c p IH]; [auto|]. rewrite !app_cons. intros [= Heq]. auto.
Qed.

(** Two names with the same stem and a dotted ending are equal only
    for the same number. *)
Lemma numbered_name_inj (stem : string) (i j : Z) (e e' : string) :
  dotted e = true -> dotted e' = true ->
  stem +:+ pretty i +:+ e = stem +:+ pretty j +:+ e' -> i = j.
Proof.
  intros He He' Heq. apply app_inv_head_s in Heq.
  apply (inj pretty).
  eapply no_dot_cut; [apply pretty_Z_no_dot.. | exact He | exact He' | exact Heq].
Qed.

Lemma NoDup_numbered (stem : string) (start : Z) (exts : list string) :
  Forall (fun e => dotted e = true) exts ->
  NoDup (imap (fun k e => stem +:+ pretty (start + Z.of_nat k) +:+ e) exts).
Proof.
  intros Hexts. apply NoDup_alt. intros i j x Hi Hj.
  rewrite list_lookup_imap in Hi, Hj.
  destruct (exts !! i) as [e|] eqn:Ei; [|discriminate].
  destruct (exts !! j) as [e'|] eqn:Ej; [|discriminate].
  injection Hi as <-. injection Hj as Hj.
  apply numbered_name_inj in Hj.
  - lia.
  - eapply Forall_lookup_1 in Hexts; [exact Hexts | exact Ej].
  - eapply Forall_lookup_1 in Hexts; [exact Hexts | exact Ei].
Qed.

Section Loops.
Context `{PyLib} `{PyIO}.

Lemma ext_from_url_dotted u ext :
  DailyMail._ext_from_url u = Ok ext -> dotted ext = true.
Proof.
  unfold DailyMail._ext_from_url. destruct (urlparse u) as [p|]; [|discriminate].
  cbv zeta. destruct (if nonempty _ then _ else _); intros [= <-]; reflexivity.
Qed.

Lemma safe_ext_dotted u ext :
  Guardian.safe_ext u = Ok ext -> dotted ext = true.
Proof.
  unfold Guardian.safe_ext. destruct (urlparse u) as [p|]; [|discriminate].
  cbv zeta. case_bool_decide as Hin; intros [= <-]; [|reflexivity].
  unfold Guardian.IMG_EXTS in Hin.
  repeat (apply elem_of_cons in Hin as [->|Hin]; [reflexivity|]).
  by apply elem_of_nil in Hin.
Qed.

(** The Daily Mail loop from any point: the files saved are numbered
    from the counter on without a gap, each with the ending of its
    address. *)
Lemma download_loop_names outdir urls :
  Forall (fun u => is_Some (urlparse u)) urls ->
  forall saved idx io,
  exists exts io',
    DailyMail.download_loop outdir (saved, idx) urls io
    = (Ok (saved ++ imap (fun k e =>
                      Numbering.dailymail_name (idx + Z.of_nat k) e) exts,
           idx + Z.of_nat (length exts)), io')
    /\ Forall (fun e => exists u,
                 u ∈ urls /\ DailyMail._ext_from_url u = Ok e) exts.
Proof.
  induction 1 as [|u urls Hu _ IH]; intros saved idx io.
  - exists [], io. cbn. rewrite app_nil_r, Z.add_0_r. split; constructor.
  - destruct (Numbering.urlparse_ext_from_url u Hu) as [ext Hext].
    cbn [DailyMail.download_loop]. unfold mbind at 1, IO_bind at 1.
    destruct (download u (path_join outdir (Numbering.dailymail_name idx ext))
                (the_world io)) as [[e|] w'] eqn:Hd.
    + rewrite (Numbering.download_one_failed _ _ _ _ _ _ _ _ Hext Hd).
      destruct (IH saved idx
        (IOState w' (stdout io ++ ["[warn] failed " +:+ u +:+ ": " +:+ e])))
        as (exts & io' & -> & Hexts).
      exists exts, io'. split; [reflexivity|].
      eapply Forall_impl; [exact Hexts|]. intros x (v & Hv & Hx).
      exists v. split; [by right | exact Hx].
    + rewrite (Numbering.download_one_saved _ _ _ _ _ _ _ Hext Hd).
      destruct (IH (saved ++ [Numbering.dailymail_name idx ext]) (idx + 1)
        (IOState w' (stdout io))) as (exts & io' & -> & Hexts).
      exists (ext :: exts), io'. rewrite <- app_assoc. cbn [imap length app].
      rewrite Z.add_0_r. split.
      * do 3 f_equal; [|lia]. do 2 f_equal. apply imap_ext. intros k x _. cbn.
        f_equal. lia.
      * constructor; [exists u; split; [by left | exact Hext]|].
        eapply Forall_impl; [exact Hexts|]. intros x (v & Hv & Hx).
        exists v. split; [by right | exact Hx].
Qed.

(** The Guardian loop from any point: the address at position [k]
    gets the number [idx + 1 + k] and the ending [safe_ext] gives
    it. *)
Lemma save_loop_names outdir img_urls :
  Forall (fun u => is_Some (urlparse u)) img_urls ->
  forall names idx io,
  exists exts io',
    Guardian.save_loop outdir (names, idx) img_urls io
    = (Ok (names ++ imap (fun k e =>
                      Numbering.guardian_name (idx + 1 + Z.of_nat k) e) exts,
           idx + Z.of_nat (length img_urls)), io')
    /\ Forall2 (fun u e => Guardian.safe_ext u = Ok e) img_urls exts.
Proof.
  induction 1 as [|u urls Hu _ IH]; intros names idx io.
  - exists [], io. cbn. rewrite app_nil_r, Z.add_0_r. split; constructor.
  - destruct (Numbering.urlparse_safe_ext u Hu) as [ext Hext].
    cbn [Guardian.save_loop]. unfold mbind at 1, IO_bind at 1.
    destruct (Numbering.save_image_name outdir u (idx + 1) ext io Hext)
      as (line & w' & ->).
    destruct (IH (names ++ [Numbering.guardian_name (idx + 1) ext]) (idx + 1)
      (IOState w' (stdout io ++ [line]))) as (exts & io' & -> & Hexts).
    exists (ext :: exts), io'. rewrite <- app_assoc. cbn [imap length app].
    rewrite Z.add_0_r. split.
    + do 3 f_equal; [|lia]. do 2 f_equal. apply imap_ext. intros k x _. cbn.
      f_equal. lia.
    + constructor; assumption.
Qed.

(** X11.  The files [download_images_sequential] reports as saved are
    numbered from [start_index] on without a gap, in the order they
    were saved; each has the ending of one of the addresses, and no
    name is used twice. *)
Theorem dailymail_names_consecutive (urls : list string) (outdir : string)
    (start_index : Z) (io : io_state) :
  Forall (fun u => is_Some (urlparse u)) urls ->
  exists saved io',
    DailyMail.download_images_sequential urls outdir start_index io
    = (Ok (saved, start_index + Z.of_nat (length saved)), io')
    /\ (forall k name, saved !! k = Some name ->
          exists u ext,
            u ∈ urls /\ DailyMail._ext_from_url u = Ok ext
            /\ name = "dailymail_" +:+ pretty (start_index + Z.of_nat k)
                        +:+ ext)
    /\ NoDup saved.
Proof.
  intros Hurls. unfold DailyMail.download_images_sequential.
  destruct (download_loop_names outdir urls Hurls [] start_index io)
    as (exts & io' & -> & Hexts).
  cbn [app].
  exists (imap (fun k e =>
            Numbering.dailymail_name (start_index + Z.of_nat k) e) exts), io'.
  split; [|split].
  - by rewrite length_imap.
  - intros k name Hk. rewrite list_lookup_imap in Hk.
    destruct (exts !! k) as [e|] eqn:Ek; [|discriminate].
    injection Hk as <-.
    eapply Forall_lookup_1 in Hexts as (u & Hu & He); [|exact Ek].
    exists u, e. auto.
  - apply (NoDup_numbered "dailymail_").
    eapply Forall_impl; [exact Hexts|]. intros e (u & _ & He).
    eapply ext_from_url_dotted, He.
Qed.

(** X12.  The Guardian loop names the address at position [k] of a
    page [guardian_<global_idx + 1 + k>] with the ending [safe_ext]
    gives it, whether the download completes or not; the names of a
    page are all different. *)
Theorem guardian_names_by_position (outdir : string)
    (img_urls : list string) (global_idx : Z) (io : io_state) :
  Forall (fun u => is_Some (urlparse u)) img_urls ->
  exists names io',
    Guardian.save_all outdir img_urls global_idx io
    = (Ok (names, global_idx + Z.of_nat (length img_urls)), io')
    /\ length names = length img_urls
    /\ (forall k u, img_urls !! k = Some u ->
          exists ext,
            Guardian.safe_ext u = Ok ext
            /\ names !! k
               = Some ("guardian_" +:+ pretty (global_idx + 1 + Z.of_nat k)
                         +:+ ext))
    /\ NoDup names.
Proof.
  intros Hurls. unfold Guardian.save_all.
  destruct (save_loop_names outdir img_urls Hurls [] global_idx io)
    as (exts & io' & -> & Hexts).
  cbn [app].
  exists (imap (fun k e =>
            Numbering.guardian_name (global_idx + 1 + Z.of_nat k) e) exts), io'.
  split; [reflexivity|]. split; [|split].
  - rewrite length_imap. symmetry. eapply Forall2_length, Hexts.
  - intros k u Hk.
    destruct (Forall2_lookup_l _ _ _ _ _ Hexts Hk) as (e & Ek & He).
    exists e. split; [exact He|].
    rewrite list_lookup_imap, Ek. reflexivity.
  - replace (imap _ exts) with
      (imap (fun k e => "guardian_" +:+ pretty ((global_idx + 1) + Z.of_nat k)
                          +:+ e) exts) by reflexivity.
    apply (NoDup_numbered "guardian_").
    clear -Hexts. induction Hexts as [|u e us es He _ IH]; constructor;
      [eapply safe_ext_dotted, He | exact IH].
Qed.

Lemma download_one_prefix outdir saved idx u io :
  DailyMail.download_one outdir (saved, idx) u io
  = match DailyMail.download_one outdir ([], idx) u io with
    | (Ok (s, i), io') => (Ok (saved ++ s, i), io')
    | (Raise e, io') => (Raise e, io')
    end.
Proof.
  unfold DailyMail.download_one, mbind, IO_bind, lift, try_download, print,
    mret, IO_ret.
  destruct (DailyMail._ext_from_url u) as [ext|]; [|reflexivity].
  destruct (download u _ (the_world io)) as [[e|] w'];
    [by rewrite app_nil_r | reflexivity].
Qed.

Lemma download_loop_prefix outdir urls : forall saved idx io,
  DailyMail.download_loop outdir (saved, idx) urls io
  = match DailyMail.download_loop outdir ([], idx) urls io with
    | (Ok (s, i), io') => (Ok (saved ++ s, i), io')
    | (Raise e, io') => (Raise e, io')
    end.
Proof.
  induction urls as [|u urls IH]; intros saved idx io;
    cbn [DailyMail.download_loop].
  - unfold mret, IO_ret. by rewrite app_nil_r.
  - unfold mbind, IO_bind.
    rewrite (download_one_prefix outdir saved).
    destruct (DailyMail.download_one outdir ([], idx) u io)
      as [[[s1 i1]|e] io1]; [|reflexivity].
    rewrite (IH (saved ++ s1)), (IH ([] ++ s1)).
    destruct (DailyMail.download_loop outdir ([], i1) urls io1)
      as [[[s2 i2]|e] io2]; [|reflexivity].
    by rewrite app_assoc.
Qed.

Lemma download_loop_app outdir urls1 urls2 : forall acc io,
  DailyMail.download_loop outdir acc (urls1 ++ urls2) io
  = match DailyMail.download_loop outdir acc urls1 io with
    | (Ok acc', io') => DailyMail.download_loop outdir acc' urls2 io'
    | (Raise e, io') => (Raise e, io')
    end.
Proof.
  induction urls1 as [|u urls1 IH]; intros acc io;
    cbn [app DailyMail.download_loop]; [reflexivity|].
  unfold mbind, IO_bind.
  destruct (DailyMail.download_one outdir acc u io) as [[acc1|e] io1];
    [apply IH | reflexivity].
Qed.

Lemma save_loop_prefix outdir urls : forall names idx io,
  Guardian.save_loop outdir (names, idx) urls io
  = match Guardian.save_loop outdir ([], idx) urls io with
    | (Ok (s, i), io') => (Ok (names ++ s, i), io')
    | (Raise e, io') => (Raise e, io')
    end.
Proof.
  induction urls as [|u urls IH]; intros names idx io;
    cbn [Guardian.save_loop].
  - unfold mret, IO_ret. by rewrite app_nil_r.
  - unfold mbind, IO_bind.
    destruct (Guardian.save_image outdir u (idx + 1) io)
      as [[name|e] io1]; [|reflexivity].
    rewrite (IH (names ++ [name])), (IH ([] ++ [name])).
    destruct (Guardian.save_loop outdir ([], idx + 1) urls io1)
      as [[[s2 i2]|e] io2]; [|reflexivity].
    by rewrite <- app_assoc.
Qed.

Lemma save_loop_app outdir urls1 urls2 : forall acc io,
  Guardian.save_loop outdir acc (urls1 ++ urls2) io
  = match Guardian.save_loop outdir acc urls1 io with
    | (Ok acc', io') => Guardian.save_loop outdir acc' urls2 io'
    | (Raise e, io') => (Raise e, io')
    end.
Proof.
  induction urls1 as [|u urls1 IH]; intros [names idx] io;
    cbn [app Guardian.save_loop]; [reflexivity|].
  unfold mbind, IO_bind.
  destruct (Guardian.save_image outdir u (idx + 1) io) as [[name|e] io1];
    [apply IH | reflexivity].
Qed.

(** X13.  Numbering carries over from page to page: running either
    download loop on the addresses of one page and then, from the
    counter it returns, on those of the next gives the names, the
    counter, the printed lines and the files that one run on all the
    addresses gives. *)
Theorem numbering_across_pages (outdir : string) (urls1 urls2 : list string)
    (start : Z) (io : io_state) :
  DailyMail.download_images_sequential (urls1 ++ urls2) outdir start io
  = match DailyMail.download_images_sequential urls1 outdir start io with
    | (Ok (saved1, idx1), io1) =>
        match DailyMail.download_images_sequential urls2 outdir idx1 io1 with
        | (Ok (saved2, idx2), io2) => (Ok (saved1 ++ saved2, idx2), io2)
        | (Raise e, io2) => (Raise e, io2)
        end
    | (Raise e, io1) => (Raise e, io1)
    end
  /\ Guardian.save_all outdir (urls1 ++ urls2) start io
     = match Guardian.save_all outdir urls1 start io with
       | (Ok (names1, idx1), io1) =>
           match Guardian.save_all outdir urls2 idx1 io1 with
           | (Ok (names2, idx2), io2) => (Ok (names1 ++ names2, idx2), io2)
           | (Raise e, io2) => (Raise e, io2)
           end
       | (Raise e, io1) => (Raise e, io1)
       end.
Proof.
  split.
  - unfold DailyMail.download_images_sequential. rewrite download_loop_app.
    destruct (DailyMail.download_loop outdir ([], start) urls1 io)
      as [[[s1 i1]|e] io1]; [|reflexivity].
    apply download_loop_prefix.
  - unfold Guardian.save_all. rewrite save_loop_app.
    destruct (Guardian.save_loop outdir ([], start) urls1 io)
      as [[[s1 i1]|e] io1]; [|reflexivity].
    apply save_loop_prefix.
Qed.

End Loops.

(** The theorems on pages of the two sites. *)
Lemma dailymail_names_consecutive_witness :
  exists saved io',
    @DailyMail.download_images_sequential Plain.lib Plain.net
      ["https://i.dailymail.co.uk/1s/a.png";
       "https://i.dailymail.co.uk/1s/missing.jpg";
       "https://i.dailymail.co.uk/1s/b.jpg"] "out" 7 Plain.start
    = (Ok (saved, 7 + Z.of_nat (length saved)), io')
    /\ NoDup saved.
Proof.
  destruct (@dailymail_names_consecutive Plain.lib Plain.net
    ["https://i.dailymail.co.uk/1s/a.png";
     "https://i.dailymail.co.uk/1s/missing.jpg";
     "https://i.dailymail.co.uk/1s/b.jpg"] "out" 7 Plain.start)
    as (saved & io' & Heq & _ & Hnd).
  - repeat constructor; eexists; reflexivity.
  - exists saved, io'. split; assumption.
Defined.

Lemma guardian_names_by_position_witness :
  exists names io',
    @Guardian.save_all Plain.lib Plain.net "out"
      ["https://i.guim.co.uk/img/media/a.png?width=300&s=0a1b";
       "https://i.guim.co.uk/img/media/missing.jpg?width=300&s=0a1b"]
      4 Plain.start
    = (Ok (names, 4 + Z.of_nat 2), io')
    /\ NoDup names.
Proof.
  destruct (@guardian_names_by_position Plain.lib Plain.net "out"
    ["https://i.guim.co.uk/img/media/a.png?width=300&s=0a1b";
     "https://i.guim.co.uk/img/media/missing.jpg?width=300&s=0a1b"]
    4 Plain.start) as (names & io' & Heq & _ & _ & Hnd).
  - repeat constructor; eexists; reflexivity.
  - exists names, io'. split; assumption.
Defined.

End Names.
(** * Further properties: the exceptions of the Guardian parser *)

Module Errors.
Import Py Lib Re PyFacts Regions.

Section GuardianErrors.
Context `{PyLib}.
Import Guardian.

(** Where a handler calls [urljoin] or [int]: at a start tag in scope,
    at the end of a [picture] whose candidate [urljoin] refuses, and
    at text of a [noscript] in scope. *)
Definition value_error_site (base : string) (st : state) (e : event)
    : Prop :=
  match e with
  | StartTag tag attrs => in_scope (open_regions st tag (dict attrs)) = true
  | EndTag tag =>
      tag = "picture" /\ on (in_picture st) = true
      /\ exists u hint, picture_best st = Some (u, hint)
                        /\ urljoin base u = None
  | Data data => in_scope st = true /\ on (in_noscript st) = true
  end.

(** The style block of a start tag. *)
Definition type_error_site (st : state) (e : event) : Prop :=
  exists tag attrs,
    e = StartTag tag attrs
    /\ dict attrs !! "style" = Some None
    /\ in_scope (open_regions st tag (dict attrs)) = true.

(** A handler call raises [TypeError] in the style block of a start
    tag, or [ValueError] where it calls [urljoin] or [int]. *)
Lemma step_raises base st e x :
  step base st e = Raise x ->
  (x = TypeError /\ type_error_site st e)
  \/ (x = ValueError /\ value_error_site base st e).
Proof.
  destruct e as [tag attrs|tag|data]; cbn [step].
  - unfold handle_starttag. cbv zeta.
    destruct (in_scope (open_regions st tag (dict attrs))) eqn:Hin.
    2:{ unfold capture. rewrite Hin. cbn [andb]. rewrite bind_Ok.
        cbn [fst snd]. unfold style_image. rewrite Hin. discriminate. }
    destruct (Counters.capture_total base (open_regions st tag (dict attrs))
                tag (dict attrs)) as [(st1 & r & Hc & Hsame & _)|Hc];
      rewrite Hc.
    2:{ intros [= <-]. right. split; [reflexivity|exact Hin]. }
    rewrite bind_Ok. cbn [fst snd].
    destruct r; [discriminate|].
    unfold style_image.
    destruct (in_scope st1); [|discriminate].
    destruct (dict attrs !! "style") as [[style|]|] eqn:Hstyle.
    + destruct (style_search style) as [g|]; [|discriminate].
      destruct (consider_total base st1 (Some g)) as [(st2 & -> & _)|[-> _]];
        [discriminate|].
      intros [= <-]. right. split; [reflexivity|exact Hin].
    + intros [= <-]. left. split; [reflexivity|]. exists tag, attrs. auto.
    + discriminate.
  - unfold handle_endtag.
    destruct (String.eqb tag "picture" && on (in_picture st)) eqn:Hpic.
    2:{ rewrite bind_Ok. discriminate. }
    apply andb_true_iff in Hpic as [Htag Hon].
    apply String.eqb_eq in Htag.
    unfold _commit_picture_best.
    destruct (picture_best st) as [[u hint]|] eqn:Hbest.
    + destruct (consider_total base st (Some u)) as [(st1 & -> & _)|[-> Hj]].
      * rewrite !bind_Ok. discriminate.
      * intros [= <-]. right. split; [reflexivity|].
        cbn [value_error_site]. eauto 10.
    + rewrite !bind_Ok. discriminate.
  - unfold handle_data.
    destruct (in_scope st) eqn:Hin; [|discriminate].
    destruct (on (in_noscript st)) eqn:Hns; [|discriminate].
    destruct (nonempty (strip data)); [|discriminate].
    cbn [andb]. cbv zeta.
    generalize (img_finditer 0 (html_unescape data)). intros l.
    assert (Hl : forall st0 y,
      foldM (fun st g => _consider base st (Some g)) st0 l = Raise y ->
      y = ValueError).
    { induction l as [|g l IH]; intros st0 y; cbn [foldM]; [discriminate|].
      destruct (consider_total base st0 (Some g)) as [(st1 & -> & _)|[-> _]].
      - rewrite bind_Ok. apply IH.
      - by intros [= <-]. }
    intros Hx. apply Hl in Hx as ->. right. split; [reflexivity|].
    cbn [value_error_site]. auto.
Qed.

(** X14.  The Guardian parser raises two exceptions only.  One is the
    [TypeError] of [re.search] on a [style] attribute without a value,
    at a start tag that is in a figure or in the lightbox once its own
    counters are raised.  The other is the [ValueError] of [urljoin]
    or [int], at a start tag in that scope, at the end of a [picture]
    whose candidate [urljoin] refuses, or at text of a [noscript] in
    scope.  Up to the token that raises, the page is read without an
    exception. *)
Theorem guardian_raises_type_or_value_error (base : string)
    (events : list event) (st : state) (x : exn) :
  feed base st events = Raise x ->
  exists pre e rest st1,
    events = pre ++ e :: rest
    /\ feed base st pre = Ok st1
    /\ step base st1 e = Raise x
    /\ ((x = TypeError /\ type_error_site st1 e)
        \/ (x = ValueError /\ value_error_site base st1 e)).
Proof.
  unfold feed. revert st.
  induction events as [|e events IH]; intros st; cbn [foldM]; [discriminate|].
  destruct (step base st e) as [st1|y] eqn:Hstep.
  - rewrite bind_Ok. intros Hx.
    destruct (IH st1 Hx) as (pre & e' & rest & st2 & -> & Hpre & He & Hsite).
    exists (e :: pre), e', rest, st2.
    split; [reflexivity|]. split; [|auto].
    cbn [foldM]. rewrite Hstep, bind_Ok. exact Hpre.
  - intros [= <-]. exists [], e, events, st.
    split; [reflexivity|]. split; [reflexivity|]. split; [exact Hstep|].
    apply (step_raises _ _ _ _ Hstep).
Qed.

(** X15.  A [style] attribute without a value does raise.  At a start
    tag in scope other than [img] and [source] the parser raises
    [TypeError] and the rest of the page is not read.  At an [img] or
    [source] tag in scope that has an address it does the same if the
    tag is inside a [picture] or [urljoin] accepts the address, and
    raises [ValueError] if the tag is outside any [picture] and
    [urljoin] refuses the address. *)
Theorem guardian_bare_style_raises (base : string) (pre rest : list event)
    (tag : string) (attrs : list (string * option string)) (st st1 : state) :
  feed base st pre = Ok st1 ->
  dict attrs !! "style" = Some None ->
  in_scope (open_regions st1 tag (dict attrs)) = true ->
  (tag ∉ ["img"; "source"] ->
   feed base st (pre ++ StartTag tag attrs :: rest) = Raise TypeError)
  /\ (forall u sz,
        tag ∈ ["img"; "source"] ->
        _pick_from_attrs base (dict attrs) = Ok (Some u, sz) ->
        nonempty u = true ->
        feed base st (pre ++ StartTag tag attrs :: rest)
        = if on (in_picture (open_regions st1 tag (dict attrs)))
          then Raise TypeError
          else match urljoin base u with
               | Some _ => Raise TypeError
               | None => Raise ValueError
               end).
Proof.
  intros Hpre Hstyle Hin.
  assert (Hrun : feed base st (pre ++ StartTag tag attrs :: rest)
                 = (st' ← handle_starttag base st1 tag attrs;
                    foldM (step base) st' rest)).
  { unfold feed in *. rewrite foldM_app, Hpre, bind_Ok. reflexivity. }
  rewrite Hrun. clear Hrun.
  assert (Hstyle_raises : forall st2,
    same_counters (open_regions st1 tag (dict attrs)) st2 ->
    style_image base st2 (dict attrs) = Raise TypeError).
  { intros st2 Hsame. unfold style_image.
    assert (in_scope st2 = true) as ->.
    { unfold in_scope in *. destruct Hsame as (_ & _ & -> & -> & _).
      exact Hin. }
    rewrite Hstyle. reflexivity. }
  split.
  - intros Htag. unfold handle_starttag. cbv zeta.
    unfold capture. rewrite Hin. cbn [andb].
    rewrite bool_decide_false by exact Htag.
    rewrite bind_Ok. cbn [fst snd]. rewrite Hstyle_raises; [reflexivity|].
    repeat split.
  - intros u sz Htag Hpick Hu. unfold handle_starttag. cbv zeta.
    unfold capture. rewrite Hin. cbn [andb].
    rewrite bool_decide_true by exact Htag.
    rewrite Hpick, bind_Ok. cbn [fst]. cbv zeta. rewrite truthy_Some, Hu.
    destruct (on (in_picture (open_regions st1 tag (dict attrs)))).
    + destruct (picture_best _) as [[u' hint]|];
        [destruct (_ >? hint)|]; rewrite bind_Ok; cbn [fst snd];
        (rewrite Hstyle_raises; [reflexivity|repeat split]).
    + destruct (consider_total base (open_regions st1 tag (dict attrs))
                  (Some u)) as [(st2 & Hc & Hsame & _)|[Hc Hj]];
        rewrite Hc.
      * unfold _consider in Hc. rewrite truthy_Some, Hu in Hc.
        change (or_empty (Some u)) with u in Hc.
        destruct (urljoin base u) as [r|] eqn:Hj.
        -- rewrite !bind_Ok. cbn [fst snd].
           rewrite (Hstyle_raises st2 Hsame). reflexivity.
        -- rewrite (py_urljoin_None _ _ Hj) in Hc. discriminate.
      * change (or_empty (Some u)) with u in Hj. rewrite Hj. reflexivity.
Qed.

End GuardianErrors.

(** The theorems on a page with a [div style] in the lightbox: the
    image after it is never reached. *)
Lemma guardian_bare_style_raises_witness :
  @Guardian.feed Plain.lib "https://www.theguardian.com/world/2024/x"
    Guardian.init
    ([StartTag "div" [("id", Some "gu-lightbox")]]
     ++ StartTag "div" [("style", None)]
     :: [StartTag "img"
           [("src",
             Some "https://i.guim.co.uk/img/media/a.jpg?width=300&s=0a1b")]])
  = Raise TypeError
  /\ @Guardian.feed Plain.lib "https://www.theguardian.com/world/2024/x"
       Guardian.init
       ([StartTag "div" [("id", Some "gu-lightbox")]]
        ++ StartTag "img" [("src", Some "http://["); ("style", None)] :: [])
     = Raise ValueError.
Proof.
  split.
  - apply (proj1 (@guardian_bare_style_raises Plain.lib
      "https://www.theguardian.com/world/2024/x"
      [StartTag "div" [("id", Some "gu-lightbox")]]
      [StartTag "img"
         [("src",
           Some "https://i.guim.co.uk/img/media/a.jpg?width=300&s=0a1b")]]
      "div" [("style", None)] Guardian.init
      (Guardian.State [] ∅ 0 0 1 0 0 0 None) eq_refl eq_refl eq_refl)).
    intros Hin. repeat (apply elem_of_cons in Hin as [Hin|Hin];
      [discriminate|]). by apply elem_of_nil in Hin.
  - apply (proj2 (@guardian_bare_style_raises Plain.lib
      "https://www.theguardian.com/world/2024/x"
      [StartTag "div" [("id", Some "gu-lightbox")]] []
      "img" [("src", Some "http://["); ("style", None)] Guardian.init
      (Guardian.State [] ∅ 0 0 1 0 0 0 None) eq_refl eq_refl eq_refl)
      "http://[" 0); [left | reflexivity | reflexivity].
Defined.

Lemma guardian_raises_type_or_value_error_witness :
  exists pre e rest st1,
    [StartTag "div" [("id", Some "gu-lightbox")];
     StartTag "img" [("srcset", Some "http://[ 1w, b.jpg 2w")];
     StartTag "div" [("style", None)]]
    = pre ++ e :: rest
    /\ @Guardian.feed Plain.lib "https://www.theguardian.com/world/2024/x"
         Guardian.init pre = Ok st1
    /\ @Guardian.step Plain.lib "https://www.theguardian.com/world/2024/x"
         st1 e = Raise ValueError
    /\ ((ValueError = TypeError /\ @type_error_site st1 e)
        \/ (ValueError = ValueError
            /\ @value_error_site Plain.lib
                 "https://www.theguardian.com/world/2024/x" st1 e)).
Proof.
  exact (@guardian_raises_type_or_value_error Plain.lib
    "https://www.theguardian.com/world/2024/x"
    [StartTag "div" [("id", Some "gu-lightbox")];
     StartTag "img" [("srcset", Some "http://[ 1w, b.jpg 2w")];
     StartTag "div" [("style", None)]] Guardian.init ValueError eq_refl).
Defined.

End Errors.

(** * Further properties: the lists of addresses *)

Module Loaders.
Import Py Lib Re PyFacts Regions.

Lemma rstrip_idem s : rstrip (rstrip s) = rstrip s.
Proof.
  induction s as [|c s IH]; cbn [rstrip]; [reflexivity|].
  destruct (rstrip s) as [|c' r] eqn:Hr.
  - destruct (isspace c) eqn:Hc; [reflexivity|]. cbn [rstrip]. by rewrite Hc.
  - change (rstrip (String c (String c' r)))
      with (match rstrip (String c' r) with
            | EmptyString =>
                if isspace c then EmptyString else String c EmptyString
            | r0 => String c r0
            end).
    rewrite IH. reflexivity.
Qed.

Lemma lstrip_head s c r : lstrip s = String c r -> isspace c = false.
Proof.
  induction s as [|b s IH]; cbn [lstrip]; [discriminate|].
  destruct (isspace b) eqn:Hb; [exact IH|]. intros [= <- _]. exact Hb.
Qed.

Lemma rstrip_head c s :
  isspace c = false -> exists r, rstrip (String c s) = String c r.
Proof.
  intros Hc. cbn [rstrip]. destruct (rstrip s); [rewrite Hc|]; eauto.
Qed.

(** [strip] leaves a stripped text as it is. *)
Lemma strip_idem s : strip (strip s) = strip s.
Proof.
  unfold strip. destruct (lstrip s) as [|c t] eqn:Hs; [reflexivity|].
  apply lstrip_head in Hs.
  destruct (rstrip_head c t Hs) as [r Hr]. rewrite Hr.
  cbn [lstrip]. rewrite Hs, <- Hr. apply rstrip_idem.
Qed.

Lemma contains_empty p : nonempty p = true -> contains EmptyString p = false.
Proof. destruct p; [discriminate | reflexivity]. Qed.

Lemma contains_cons c s p : contains s p = true -> contains (String c s) p = true.
Proof. intros Hs. cbn [contains]. rewrite Hs. apply orb_true_r. Qed.

Lemma contains_lstrip s p :
  nonempty p = true -> lstrip p = p ->
  contains s p = true -> contains (lstrip s) p = true.
Proof.
  intros Hne Hp. induction s as [|c s IH]; cbn [lstrip]; [auto|].
  destruct (isspace c) eqn:Hc; [|auto].
  intros Hs. apply IH. cbn [contains] in Hs.
  apply orb_true_iff in Hs as [Hs|Hs]; [|exact Hs].
  destruct p as [|a p']; [discriminate|].
  cbn [startswith] in Hs. apply andb_true_iff in Hs as [Ha _].
  apply Ascii.eqb_eq in Ha as ->.
  apply lstrip_head in Hp. congruence.
Qed.

Lemma startswith_nonempty s p :
  nonempty p = true -> startswith s p = true -> nonempty s = true.
Proof. destruct p, s; cbn; congruence. Qed.

Lemma startswith_rstrip p : forall s,
  nonempty p = true -> rstrip p = p ->
  startswith s p = true -> startswith (rstrip s) p = true.
Proof.
  induction p as [|a p IH]; intros s Hne Hp; [discriminate|].
  destruct s as [|b s]; [discriminate|]. cbn [startswith].
  intros Hs. apply andb_true_iff in Hs as [Hab Hs].
  apply Ascii.eqb_eq in Hab as <-.
  cbn [rstrip] in Hp. destruct (rstrip p) as [|c' r] eqn:Hr.
  - destruct (isspace a) eqn:Ha; [discriminate|]. injection Hp as <-.
    destruct (rstrip_head a s Ha) as [r ->]. cbn [startswith].
    by rewrite Ascii.eqb_refl.
  - injection Hp as Hp. subst p.
    specialize (IH s eq_refl eq_refl Hs).
    cbn [rstrip].
    pose proof (startswith_nonempty _ (String c' r) eq_refl IH) as Hn.
    destruct (rstrip s) as [|x y]; [discriminate|].
    cbn [startswith]. rewrite Ascii.eqb_refl. exact IH.
Qed.

Lemma contains_nonempty s p :
  nonempty p = true -> contains s p = true -> nonempty s = true.
Proof.
  intros Hp. destruct s; [|reflexivity]. by rewrite contains_empty.
Qed.

Lemma contains_rstrip s p :
  nonempty p = true -> rstrip p = p ->
  contains s p = true -> contains (rstrip s) p = true.
Proof.
  intros Hne Hp. induction s as [|c s IH]; [auto|].
  intros Hs. cbn [contains] in Hs. apply orb_true_iff in Hs as [Hs|Hs].
  - apply (startswith_rstrip p _ Hne Hp) in Hs.
    destruct (rstrip (String c s)); cbn [contains]; by rewrite Hs.
  - specialize (IH Hs). cbn [rstrip].
    pose proof (contains_nonempty _ _ Hne IH) as Hn.
    destruct (rstrip s) as [|x y]; [discriminate|].
    by apply contains_cons.
Qed.

Lemma contains_strip s p :
  nonempty p = true -> strip p = p -> lstrip p = p ->
  contains s p = true -> contains (strip s) p = true.
Proof.
  intros Hne Hp Hl Hs. unfold strip in *. rewrite Hl in Hp.
  apply contains_rstrip; [assumption..|]. by apply contains_lstrip.
Qed.

Lemma map_filter_sublist {A B} (f : A -> B) (p : A -> bool) (l : list A) :
  sublist (map f (List.filter p l)) (map f l).
Proof.
  induction l as [|x l IH]; cbn [List.filter map]; [constructor|].
  destruct (p x); cbn [map]; by constructor.
Qed.

(** X16.  The pages [main] of the Daily Mail script visits are the
    lines of the URL file with the surrounding white space removed, in
    the order of the file, the blank lines and the lines whose first
    visible character is [#] left out: every address is stripped, not
    empty and no comment. *)
Theorem dailymail_url_list (lines : list string) :
  sublist (DailyMail.read_urls lines) (map strip lines)
  /\ Forall (fun u => strip u = u /\ nonempty u = true
                      /\ startswith u "#" = false)
       (DailyMail.read_urls lines)
  /\ (forall line, line ∈ lines ->
        nonempty (strip line) = true -> startswith (strip line) "#" = false ->
        strip line ∈ DailyMail.read_urls lines).
Proof.
  unfold DailyMail.read_urls. split; [apply map_filter_sublist|]. split.
  - apply Forall_forall. intros u Hu.
    apply list_elem_of_In, in_map_iff in Hu as (line & <- & Hline).
    apply filter_In in Hline as [_ Hline].
    apply andb_true_iff in Hline as [Hne Hc].
    apply negb_true_iff in Hc. rewrite strip_idem. auto.
  - intros line Hin Hne Hc. apply list_elem_of_In, in_map, filter_In.
    split; [by apply list_elem_of_In|]. by rewrite Hne, Hc.
Qed.

Section GuardianLoader.
Context `{PyIO}.

(** X17.  [load_urls] of the Guardian script prints nothing for a file
    that exists and returns its lines stripped, in order, those left
    out that are blank or do not contain [theguardian.com]; every
    address returned is stripped, not empty and contains
    [theguardian.com].  Without the file it prints one line and
    returns the empty list. *)
Theorem guardian_url_list (path : string) (io : io_state) :
  (forall lines,
     exists urls,
       Guardian.load_urls (Some lines) path io = (Ok urls, io)
       /\ sublist urls (map strip lines)
       /\ Forall (fun u => strip u = u /\ nonempty u = true
                           /\ contains u "theguardian.com" = true) urls
       /\ (forall line, line ∈ lines -> nonempty (strip line) = true ->
             contains line "theguardian.com" = true -> strip line ∈ urls))
  /\ Guardian.load_urls None path io
     = (Ok [], IOState (the_world io)
                 (stdout io ++ ["[!] URL file not found: " +:+ path])).
Proof.
  split; [|reflexivity]. intros lines. eexists.
  split; [destruct io; reflexivity|].
  split; [apply map_filter_sublist|]. split.
  - apply Forall_forall. intros u Hu.
    apply list_elem_of_In, in_map_iff in Hu as (line & <- & Hline).
    apply filter_In in Hline as [_ Hline].
    apply andb_true_iff in Hline as [Hne Hc].
    rewrite strip_idem. split; [reflexivity|]. split; [exact Hne|].
    apply contains_strip; [reflexivity..|exact Hc].
  - intros line Hin Hne Hc. apply list_elem_of_In, in_map, filter_In.
    split; [by apply list_elem_of_In|]. by rewrite Hne, Hc.
Qed.

End GuardianLoader.
End Loaders.

(** * Further properties: the log *)

Module Reports.
Import Py Lib Re PyFacts Names.

(** The names of all the rows, in the order of the rows. *)
Definition names_of (rows : list (string * Z * list string)) : list string :=
  concat (map snd rows).

(** Every row counts its own names, [mx] is the greatest count of a
    row, and zero without rows. *)
Definition counted (mx : Z) (rows : list (string * Z * list string)) : Prop :=
  0 <= mx
  /\ Forall (fun r => r.1.2 = Z.of_nat (length r.2)
                      /\ Z.of_nat (length r.2) <= mx) rows
  /\ (mx = 0 \/ exists r, r ∈ rows /\ Z.of_nat (length r.2) = mx).

(** The [n] names of the rows are numbered from [first] on. *)
Definition numbered (stem : string) (first : Z)
    (rows : list (string * Z * list string)) (n : nat) : Prop :=
  exists exts,
    names_of rows
    = imap (fun k e => stem +:+ pretty (first + Z.of_nat k) +:+ e) exts
    /\ Forall (fun e => dotted e = true) exts
    /\ n = length exts.


Lemma counted_nil : counted 0 [].
Proof. split; [lia|]. split; [constructor | by left]. Qed.

Lemma counted_snoc mx rows u names :
  counted mx rows ->
  counted (Z.max mx (Z.of_nat (length names)))
    (rows ++ [(u, Z.of_nat (length names), names)]).
Proof.
  intros (H0 & Hall & Hmax). split; [lia|]. split.
  - apply Forall_app. split.
    + eapply Forall_impl; [exact Hall|]. cbn. intros r [? ?]. split; [done|lia].
    + constructor; [|constructor]. cbn. split; [done|lia].
  - destruct (Z.max_spec mx (Z.of_nat (length names))) as [[Hlt ->]|[Hle ->]].
    + right. exists (u, Z.of_nat (length names), names).
      split; [|reflexivity]. apply elem_of_app. right. by left.
    + destruct Hmax as [->|(r & Hr & Hn)]; [by left|].
      right. exists r. split; [|exact Hn]. apply elem_of_app. by left.
Qed.

Lemma numbered_nil stem first : numbered stem first [] 0.
Proof. exists []. split; [reflexivity|]. split; [constructor | reflexivity]. Qed.

Lemma numbered_snoc stem first rows n u c exts :
  numbered stem first rows n ->
  Forall (fun e => dotted e = true) exts ->
  numbered stem first
    (rows ++ [(u, c, imap (fun k e =>
                 stem +:+ pretty (first + Z.of_nat n + Z.of_nat k) +:+ e)
                 exts)])
    (n + length exts).
Proof.
  intros (exts0 & Hnames & Hdot & ->) Hexts. exists (exts0 ++ exts).
  split; [|split].
  - unfold names_of in *. rewrite map_app, concat_app, Hnames. cbn.
    rewrite app_nil_r, imap_app. f_equal. apply imap_ext. intros k e _. cbn.
    assert (E : forall a b : Z,
              a = b -> stem +:+ pretty a +:+ e = stem +:+ pretty b +:+ e)
      by (by intros ? ? ->).
    apply E. lia.
  - by apply Forall_app.
  - by rewrite length_app.
Qed.

Lemma numbered_NoDup stem first rows n :
  numbered stem first rows n -> NoDup (names_of rows).
Proof. intros (exts & -> & Hdot & _). by apply NoDup_numbered. Qed.


Lemma IO_bind_run `{PyIO} {A B} (m : IO A) (f : A -> IO B) s a s' :
  m s = (Ok a, s') -> (m ≫= f) s = f a s'.
Proof. unfold mbind, IO_bind. by intros ->. Qed.

(** The addresses the Daily Mail script finds on the page it gets for
    [u], whatever the state of the network, all parse. *)
Definition dailymail_images_parse `{PyLib} `{PyIO} `{!PyWeb} (u : string)
    : Prop :=
  forall w page w' imgs,
    fetch u w = (inl page, w') ->
    DailyMail.extract_page u page = Ok imgs ->
    Forall (fun v => is_Some (urlparse v)) imgs.

(** The Guardian parser reads the page it gets for [u] to its end
    without an exception, and the addresses it finds all parse. *)
Definition guardian_page_read `{PyLib} `{PyIO} `{!PyWeb} (u : string)
    : Prop :=
  forall w page w',
    fetch u w = (inl page, w') ->
    exists imgs,
      Guardian.extract_page u page = Ok imgs
      /\ Forall (fun v => is_Some (urlparse v)) imgs.

Section DailyMailLog.
Context `{PyLib} `{PyIO} `{!PyWeb}.

Lemma try_extract_total u s :
  dailymail_images_parse u ->
  exists img_urls s',
    DailyMail.try_extract u s = (Ok img_urls, s')
    /\ Forall (fun v => is_Some (urlparse v)) img_urls.
Proof.
  intros Hu.
  unfold DailyMail.try_extract, try_fetch, mbind, IO_bind.
  destruct (fetch u (the_world s)) as [[page|e] w'] eqn:Hf.
  - destruct (DailyMail.extract_page u page) as [imgs|x] eqn:He; cbn.
    + eexists _, _. split; [reflexivity|]. eapply Hu; eassumption.
    + eexists _, _. split; [reflexivity|constructor].
  - cbn. eexists _, _. split; [reflexivity|constructor].
Qed.

Lemma dailymail_page outdir rows mx n u io :
  dailymail_images_parse u ->
  exists exts io',
    DailyMail.main_page outdir (rows, mx, 1 + Z.of_nat n) u io
    = (Ok (rows ++ [(u, Z.of_nat (length exts),
                     imap (fun k e => "dailymail_"
                             +:+ pretty (1 + Z.of_nat n + Z.of_nat k) +:+ e)
                       exts)],
           Z.max mx (Z.of_nat (length exts)),
           1 + Z.of_nat (n + length exts)), io')
    /\ Forall (fun e => dotted e = true) exts.
Proof.
  intros Hu. unfold DailyMail.main_page. cbn [fst snd].
  erewrite IO_bind_run by reflexivity.
  destruct (try_extract_total u
    (IOState (the_world io) (stdout io ++ [nl +:+ "[fetch] " +:+ u])) Hu)
    as (img_urls & s2 & He & Hparse).
  erewrite IO_bind_run by exact He.
  erewrite IO_bind_run by reflexivity.
  match goal with |- context [IOState (the_world s2) ?out] =>
    destruct (download_loop_names outdir img_urls Hparse
                [] (1 + Z.of_nat n) (IOState (the_world s2) out))
      as (exts & s4 & Hd & Hexts)
  end.
  unfold DailyMail.download_images_sequential.
  erewrite IO_bind_run by exact Hd.
  cbn [fst snd app]. erewrite IO_bind_run by reflexivity.
  exists exts, (IOState (the_world s4)
    (stdout s4 ++ ["[saved] " +:+ pretty (Z.of_nat (length exts))
                   +:+ " images"])).
  split.
  - unfold mret, IO_ret, DailyMail.row. rewrite !length_imap.
    do 3 f_equal. lia.
  - eapply Forall_impl; [exact Hexts|]. intros e (v & _ & He').
    eapply ext_from_url_dotted, He'.
Qed.

Lemma dailymail_loop outdir urls : forall rows mx n io,
  Forall dailymail_images_parse urls ->
  counted mx rows -> numbered "dailymail_" 1 rows n ->
  exists rows' mx' n' io',
    DailyMail.main_loop outdir (rows, mx, 1 + Z.of_nat n) urls io
    = (Ok (rows', mx', 1 + Z.of_nat n'), io')
    /\ counted mx' rows' /\ numbered "dailymail_" 1 rows' n'
    /\ map (fun r => r.1.1) rows' = map (fun r => r.1.1) rows ++ urls.
Proof.
  induction urls as [|u urls IH]; intros rows mx n io Hurls Hc Hn;
    cbn [DailyMail.main_loop].
  - exists rows, mx, n, io. by rewrite app_nil_r.
  - apply Forall_cons in Hurls as [Hu Hurls].
    destruct (dailymail_page outdir rows mx n u io Hu)
      as (exts & io1 & Hp & Hd).
    erewrite IO_bind_run by exact Hp.
    edestruct IH as (rows' & mx' & n' & io' & Hl & Hc' & Hn' & Hus);
      [exact Hurls | apply counted_snoc, Hc
      | apply numbered_snoc; [exact Hn | exact Hd] |].
    rewrite length_imap in Hl.
    exists rows', mx', n', io'. split; [exact Hl|]. split; [exact Hc'|].
    split; [exact Hn'|]. rewrite Hus, map_app, <- app_assoc. reflexivity.
Qed.


(** X19.  When the image addresses found on the pages visited parse,
    the names of the files in the rows of the Daily Mail log, read row
    after row, are [dailymail_1...], [dailymail_2...] and so on without
    a gap, and no name occurs twice; the counter ends one above their
    number. *)
Theorem dailymail_log_names (outdir : string) (urls : list string)
    (io : io_state) :
  Forall dailymail_images_parse urls ->
  exists rows mx exts io',
    DailyMail.main_loop outdir ([], 0, 1) urls io
    = (Ok (rows, mx, 1 + Z.of_nat (length exts)), io')
    /\ map (fun r => r.1.1) rows = urls
    /\ names_of rows
       = imap (fun k e => "dailymail_" +:+ pretty (1 + Z.of_nat k) +:+ e) exts
    /\ NoDup (names_of rows).
Proof.
  intros Hurls.
  destruct (dailymail_loop outdir urls [] 0 0%nat io
              Hurls counted_nil (numbered_nil _ _))
    as (rows & mx & n & io1 & Hl & _ & Hn & Hu).
  pose proof (numbered_NoDup _ _ _ _ Hn) as Hnd.
  destruct Hn as (exts & Hnames & _ & ->).
  exists rows, mx, exts, io1. auto.
Qed.

End DailyMailLog.

Section GuardianLog.
Context `{PyLib} `{PyIO} `{!PyWeb}.

Lemma guardian_page outdir rows mx n u io :
  guardian_page_read u -> 0 <= mx ->
  exists exts io',
    Guardian.main_page outdir (rows, mx, Z.of_nat n) u io
    = (Ok (rows ++ [(u, Z.of_nat (length exts),
                     imap (fun k e => "guardian_"
                             +:+ pretty (1 + Z.of_nat n + Z.of_nat k) +:+ e)
                       exts)],
           Z.max mx (Z.of_nat (length exts)),
           Z.of_nat (n + length exts)), io')
    /\ Forall (fun e => dotted e = true) exts.
Proof.
  intros Hu Hmx. unfold Guardian.main_page. cbn [fst snd].
  erewrite IO_bind_run by reflexivity.
  destruct (fetch u (the_world io)) as [[page|e] w'] eqn:Hf.
  - erewrite IO_bind_run
      by (unfold try_fetch; cbn [the_world stdout]; rewrite Hf; reflexivity).
    destruct (Hu _ _ _ Hf) as (imgs & Himgs & Hparse).
    rewrite Himgs.
    erewrite IO_bind_run by reflexivity.
    erewrite IO_bind_run by reflexivity.
    cbn [the_world stdout].
    match goal with |- context [IOState w' ?out] =>
      destruct (save_loop_names outdir imgs Hparse
                  [] (Z.of_nat n) (IOState w' out))
        as (exts & s4 & Hd & Hexts)
    end.
    unfold Guardian.save_all. erewrite IO_bind_run by exact Hd.
    cbn [fst snd app]. exists exts, s4. split.
    + assert (Himap :
        imap (fun k e =>
                Numbering.guardian_name (Z.of_nat n + 1 + Z.of_nat k) e) exts
        = imap (fun k e => "guardian_"
                  +:+ pretty (1 + Z.of_nat n + Z.of_nat k) +:+ e) exts).
      { apply imap_ext. intros k e _. cbn. unfold Numbering.guardian_name.
        replace (Z.of_nat n + 1 + Z.of_nat k)
          with (1 + Z.of_nat n + Z.of_nat k) by lia.
        reflexivity. }
      unfold mret, IO_ret, Guardian.row.
      rewrite !length_imap, Himap, <- (Forall2_length _ _ _ Hexts),
        Nat2Z.inj_add.
      reflexivity.
    + clear -Hexts. induction Hexts as [|v e vs es He _ IH]; constructor;
        [eapply safe_ext_dotted, He | exact IH].
  - erewrite IO_bind_run
      by (unfold try_fetch; cbn [the_world stdout]; rewrite Hf; reflexivity).
    cbv beta iota. erewrite IO_bind_run by reflexivity.
    exists [], (IOState w'
      ((stdout io ++ [nl +:+ "[fetch] " +:+ u])
       ++ ["[!] fetch failed: " +:+ e])).
    split; [|constructor]. unfold mret, IO_ret. cbn [length imap].
    rewrite Nat.add_0_r. change (Z.of_nat 0) with 0.
    rewrite Z.max_l by exact Hmx. reflexivity.
Qed.


Lemma guardian_loop outdir urls : forall rows mx n io,
  Forall guardian_page_read urls ->
  counted mx rows -> numbered "guardian_" 1 rows n ->
  exists rows' mx' n' io',
    Guardian.main_loop outdir (rows, mx, Z.of_nat n) urls io
    = (Ok (rows', mx', Z.of_nat n'), io')
    /\ counted mx' rows' /\ numbered "guardian_" 1 rows' n'
    /\ map (fun r => r.1.1) rows' = map (fun r => r.1.1) rows ++ urls.
Proof.
  induction urls as [|u urls IH]; intros rows mx n io Hurls Hc Hn;
    cbn [Guardian.main_loop].
  - exists rows, mx, n, io. by rewrite app_nil_r.
  - apply Forall_cons in Hurls as [Hu Hurls].
    destruct (guardian_page outdir rows mx n u io Hu (proj1 Hc))
      as (exts & io1 & Hp & Hd).
    erewrite IO_bind_run by exact Hp.
    edestruct IH as (rows' & mx' & n' & io' & Hl & Hc' & Hn' & Hus);
      [exact Hurls | apply counted_snoc, Hc
      | apply numbered_snoc; [exact Hn | exact Hd] |].
    rewrite length_imap in Hl.
    exists rows', mx', n', io'. split; [exact Hl|]. split; [exact Hc'|].
    split; [exact Hn'|]. rewrite Hus, map_app, <- app_assoc. reflexivity.
Qed.


(** X21.  When the parser reads every page it gets for the addresses
    visited to the end without an exception and the image addresses it
    finds parse, the names in the rows of the Guardian log, read row
    after row, are [guardian_1...], [guardian_2...] and so on without
    a gap, downloads that failed included, and no name occurs twice;
    the counter ends at their number. *)
Theorem guardian_log_names (outdir : string) (urls : list string)
    (io : io_state) :
  Forall guardian_page_read urls ->
  exists rows mx exts io',
    Guardian.main_loop outdir ([], 0, 0) urls io
    = (Ok (rows, mx, Z.of_nat (length exts)), io')
    /\ map (fun r => r.1.1) rows = urls
    /\ names_of rows
       = imap (fun k e => "guardian_" +:+ pretty (1 + Z.of_nat k) +:+ e) exts
    /\ NoDup (names_of rows).
Proof.
  intros Hurls.
  destruct (guardian_loop outdir urls [] 0 0%nat io
              Hurls counted_nil (numbered_nil _ _))
    as (rows & mx & n & io1 & Hl & _ & Hn & Hu).
  pose proof (numbered_NoDup _ _ _ _ Hn) as Hnd.
  destruct Hn as (exts & Hnames & _ & ->).
  exists rows, mx, exts, io1. auto.
Qed.

End GuardianLog.

(** A page of the network of plain addresses, by computation. *)
Ltac plain_page :=
  lazymatch goal with
  | |- dailymail_images_parse _ =>
      intros w page w' imgs Hf He; vm_compute in Hf;
      first [discriminate Hf
            | injection Hf as <- _; vm_compute in He;
              first [discriminate He
                    | injection He as <-; repeat constructor;
                      eexists; vm_compute; reflexivity]]
  | |- guardian_page_read _ =>
      intros w page w' Hf; vm_compute in Hf;
      first [discriminate Hf
            | injection Hf as <- _; eexists; split;
              [vm_compute; reflexivity
              | repeat constructor; eexists; vm_compute; reflexivity]]
  end.


Lemma dailymail_log_names_witness :
  exists rows mx exts io',
    @DailyMail.main_loop Plain.lib Plain.net Plain.web "out" ([], 0, 1)
      ["https://www.dailymail.co.uk/news/article-1/a.html";
       "https://www.dailymail.co.uk/news/article-2/b.html"] Plain.start
    = (Ok (rows, mx, 1 + Z.of_nat (length exts)), io')
    /\ map (fun r => r.1.1) rows
       = ["https://www.dailymail.co.uk/news/article-1/a.html";
          "https://www.dailymail.co.uk/news/article-2/b.html"]
    /\ names_of rows
       = imap (fun k e => "dailymail_" +:+ pretty (1 + Z.of_nat k) +:+ e) exts
    /\ NoDup (names_of rows).
Proof.
  apply (@dailymail_log_names Plain.lib Plain.net Plain.web
           "out" _ Plain.start).
  repeat (apply List.Forall_cons; [plain_page|]). apply List.Forall_nil.
Defined.


Lemma guardian_log_names_witness :
  exists rows mx exts io',
    @Guardian.main_loop Plain.lib Plain.net Plain.web "out" ([], 0, 0)
      ["https://www.theguardian.com/world/2024/a";
       "https://www.theguardian.com/world/2024/missing";
       "https://www.theguardian.com/world/2024/c"] Plain.start
    = (Ok (rows, mx, Z.of_nat (length exts)), io')
    /\ map (fun r => r.1.1) rows
       = ["https://www.theguardian.com/world/2024/a";
          "https://www.theguardian.com/world/2024/missing";
          "https://www.theguardian.com/world/2024/c"]
    /\ names_of rows
       = imap (fun k e => "guardian_" +:+ pretty (1 + Z.of_nat k) +:+ e) exts
    /\ NoDup (names_of rows).
Proof.
  apply (@guardian_log_names Plain.lib Plain.net Plain.web
           "out" _ Plain.start).
  repeat (apply List.Forall_cons; [plain_page|]). apply List.Forall_nil.
Defined.

End Reports.

(** * Further properties: nested wrappers *)

Module Nesting.
Import Py Lib Re PyFacts Regions.

(** The [div] tags of [events] are nested properly below [depth] open
    ones: every [div] end tag closes a [div] that is open, and none is
    left open at the end. *)
Fixpoint closes (depth : nat) (events : list event) : bool :=
  match events with
  | [] => Nat.eqb depth 0
  | StartTag tag _ :: rest =>
      if String.eqb (lower tag) "div" then closes (S depth) rest
      else closes depth rest
  | EndTag tag :: rest =>
      if String.eqb (lower tag) "div" then
        match depth with
        | O => false
        | S d => closes d rest
        end
      else closes depth rest
  | Data _ :: rest => closes depth rest
  end.

Section DailyMailNesting.
Context `{PyLib}.
Import DailyMail.

Lemma step_other_tag base st e st' :
  match e with
  | StartTag tag _ | EndTag tag => String.eqb (lower tag) "div" = false
  | Data _ => True
  end ->
  step base st e = Ok st' -> stack_in_wrap st' = stack_in_wrap st.
Proof.
  intros He Hstep.
  destruct e as [tag attrs|tag|data]; cbn [step] in Hstep.
  - unfold handle_starttag in Hstep. cbv zeta in Hstep. rewrite He in Hstep.
    destruct (String.eqb (lower tag) "picture"); [by injection Hstep as <-|].
    destruct (String.eqb (lower tag) "source" && top (stack_in_picture st)).
    { destruct (truthy _); [|by injection Hstep as <-].
      destruct (_parse_srcset _); [|discriminate].
      rewrite bind_Ok in Hstep. by injection Hstep as <-. }
    destruct (String.eqb (lower tag) "img"); [|by injection Hstep as <-].
    destruct (top (stack_in_wrap st)); [|by injection Hstep as <-].
    destruct (img_candidates st (dict attrs)) as [cands|]; [|discriminate].
    rewrite bind_Ok in Hstep.
    destruct (nonnil cands); [|by injection Hstep as <-].
    destruct (_pick_largest cands base) as [best|]; [|discriminate].
    rewrite bind_Ok in Hstep.
    destruct (truthy best); by injection Hstep as <-.
  - unfold handle_endtag in Hstep. cbv zeta in Hstep. rewrite He in Hstep.
    destruct (String.eqb (lower tag) "picture"); [|by injection Hstep as <-].
    destruct (if nonnil (stack_in_picture st) then _ else _); [|discriminate].
    rewrite bind_Ok in Hstep. by injection Hstep as <-.
  - by injection Hstep as <-.
Qed.

Lemma feed_closes base events : forall depth st below above st',
  closes depth events = true ->
  stack_in_wrap st = below ++ above -> length above = depth ->
  feed base st events = Ok st' -> stack_in_wrap st' = below.
Proof.
  unfold feed.
  induction events as [|e events IH];
    intros depth st below above st' Hc Hst Hlen;
    cbn [closes foldM] in *.
  - apply Nat.eqb_eq in Hc. subst depth. destruct above; [|discriminate].
    rewrite app_nil_r in Hst. by intros [= <-].
  - destruct e as [tag attrs|tag|data].
    + destruct (String.eqb (lower tag) "div") eqn:Ediv.
      * cbn [step]. unfold handle_starttag. cbv zeta. rewrite Ediv, bind_Ok.
        eapply (IH (S depth) _ below (above ++ [_])); [exact Hc| |].
        -- cbn [stack_in_wrap]. rewrite Hst, <- app_assoc. reflexivity.
        -- rewrite length_app. cbn. lia.
      * destruct (step base st (StartTag tag attrs)) as [st1|] eqn:Hstep;
          [|discriminate].
        pose proof (step_other_tag base st (StartTag tag attrs) st1 Ediv Hstep)
          as Hs1.
        rewrite bind_Ok. eapply IH; [exact Hc | by rewrite Hs1 | exact Hlen].
    + destruct (String.eqb (lower tag) "div") eqn:Ediv.
      * destruct depth as [|d]; [discriminate|].
        destruct above as [|b above] using rev_ind; [discriminate|].
        clear IHabove. rewrite length_app in Hlen. cbn in Hlen.
        cbn [step]. unfold handle_endtag. cbv zeta. rewrite Ediv, Hst.
        rewrite app_assoc, nonnil_snoc, pop_snoc, !bind_Ok.
        eapply (IH d _ below above); [exact Hc | reflexivity | lia].
      * destruct (step base st (EndTag tag)) as [st1|] eqn:Hstep;
          [|discriminate].
        pose proof (step_other_tag base st (EndTag tag) st1 Ediv Hstep)
          as Hs1.
        rewrite bind_Ok. eapply IH; [exact Hc | by rewrite Hs1 | exact Hlen].
    + cbn [step]. rewrite bind_Ok. eapply IH; eassumption.
Qed.

(** X22.  The Daily Mail parser leaves a stretch of a page whose [div]
    tags are properly nested with the wrapper scope it entered it
    with: unless it raises [ValueError] at an image of the stretch
    whose selected address [urljoin] refuses, it returns and
    [stack_in_wrap] is as before, whatever the stretch holds, so an
    image after it is in scope exactly if one before it was. *)
Theorem dailymail_nested_divs_restore_scope (base_url : string)
    (events : list event) (st : state) :
  closes 0 events = true ->
  (exists st',
     feed base_url st events = Ok st'
     /\ stack_in_wrap st' = stack_in_wrap st)
  \/ (feed base_url st events = Raise ValueError
      /\ exists pre e rest st1,
           events = pre ++ e :: rest
           /\ feed base_url st pre = Ok st1
           /\ unresolved base_url st1 e).
Proof.
  intros Hc.
  destruct (feed_total base_url events st) as [(st' & Hfeed & _)|Hraise];
    [left | right; exact Hraise].
  exists st'. split; [exact Hfeed|].
  apply (feed_closes base_url events 0%nat st (stack_in_wrap st) [] st');
    [exact Hc | by rewrite app_nil_r | reflexivity | exact Hfeed].
Qed.

End DailyMailNesting.

(** The theorem on a caption block inside a wrapper. *)
Lemma dailymail_nested_divs_restore_scope_witness :
  exists st',
    @DailyMail.feed Plain.lib
      "https://www.dailymail.co.uk/news/article-1/a.html"
      (DailyMail.State [] [true] [] [])
      [StartTag "div" [("class", Some "caption")];
       StartTag "DIV" []; Data "text"; EndTag "div";
       StartTag "img" [("src", Some "https://i.dailymail.co.uk/1s/a.png")];
       EndTag "div"] = Ok st'
    /\ DailyMail.stack_in_wrap st' = [true].
Proof.
  destruct (@dailymail_nested_divs_restore_scope Plain.lib
    "https://www.dailymail.co.uk/news/article-1/a.html"
    [StartTag "div" [("class", Some "caption")];
     StartTag "DIV" []; Data "text"; EndTag "div";
     StartTag "img" [("src", Some "https://i.dailymail.co.uk/1s/a.png")];
     EndTag "div"] (DailyMail.State [] [true] [] []) eq_refl)
    as [Hok|[Hraise _]]; [exact Hok | discriminate Hraise].
Defined.

End Nesting.

(** * Further properties: the rewrite of an unsigned address *)

Module Rewrite.
Import Py Lib Re PyFacts.

(** The value of the first pair with the key [k]. *)
Fixpoint assoc {V} (k : string) (l : list (string * V)) : option V :=
  match l with
  | [] => None
  | (k', v) :: l' => if String.eqb k' k then Some v else assoc k l'
  end.

Lemma dict_set_same {V} (q : list (string * V)) k v :
  assoc k (Guardian.dict_set q k v) = Some v.
Proof.
  induction q as [|[k' v'] q IH]; cbn [Guardian.dict_set assoc].
  - by rewrite String.eqb_refl.
  - destruct (String.eqb k' k) eqn:E; cbn [assoc]; by rewrite E.
Qed.

Lemma dict_set_other {V} (q : list (string * V)) k v k' :
  k' <> k -> assoc k' (Guardian.dict_set q k v) = assoc k' q.
Proof.
  intros Hne. induction q as [|[k0 v0] q IH]; cbn [Guardian.dict_set assoc].
  - destruct (String.eqb k k') eqn:E; [|reflexivity].
    apply String.eqb_eq in E. congruence.
  - destruct (String.eqb k0 k) eqn:E; cbn [assoc].
    + apply String.eqb_eq in E. subst k0.
      destruct (String.eqb k k') eqn:E'; [|reflexivity].
      apply String.eqb_eq in E'. congruence.
    + destruct (String.eqb k0 k'); [reflexivity | exact IH].
Qed.

Lemma dict_set_keys {V} (q : list (string * V)) k v :
  map fst (Guardian.dict_set q k v)
  = if bool_decide (k ∈ map fst q) then map fst q else map fst q ++ [k].
Proof.
  induction q as [|[k0 v0] q IH]; cbn [Guardian.dict_set map fst app].
  - rewrite bool_decide_false; [reflexivity | apply not_elem_of_nil].
  - destruct (String.eqb k0 k) eqn:E; cbn [map fst].
    + apply String.eqb_eq in E. subst k0.
      rewrite bool_decide_true; [reflexivity | by left].
    + rewrite IH. apply String.eqb_neq in E.
      case_bool_decide as Hin.
      * rewrite bool_decide_true; [reflexivity | by right].
      * rewrite bool_decide_false; [reflexivity|].
        intros Hin'. apply elem_of_cons in Hin' as [->|Hin']; congruence.
Qed.

Lemma assoc_map {V W} (f : V -> W) (q : list (string * V)) k :
  assoc k (map (fun '(k, v) => (k, f v)) q) = f <$> assoc k q.
Proof.
  induction q as [|[k0 v0] q IH]; cbn [map assoc]; [reflexivity|].
  destruct (String.eqb k0 k); [reflexivity | exact IH].
Qed.

Lemma keys_map {V W} (f : V -> W) (q : list (string * V)) :
  map fst (map (fun '(k, v) => (k, f v)) q) = map fst q.
Proof.
  induction q as [|[k0 v0] q IH]; cbn [map fst]; [reflexivity|].
  by rewrite IH.
Qed.

Section GuardianRewrite.
Context `{PyLib}.
Import Guardian.

(** X23.  For an address of the image host without a signature,
    [upgrade_guardian_url] keeps everything but the query; the new
    query holds [width] with the number asked for and [dpr] with 2,
    and every other parameter with the first of its values; the
    parameters keep their order, and [width] and [dpr] are added at
    the end when the address had none. *)
Theorem upgrade_guardian_url_unsigned (url : string) (width : Z)
    (p : parsed) :
  contains url "i.guim.co.uk" = true ->
  urlparse url = Some p ->
  contains (lower (query p)) "s=" = false ->
  exists firsts,
    upgrade_guardian_url url width
    = Ok (urlunparse (Parsed (scheme p) (netloc p) (path p) (params p)
                        (urlencode firsts) (fragment p)))
    /\ assoc "width" firsts = Some (pretty width)
    /\ assoc "dpr" firsts = Some "2"
    /\ (forall k, k <> "width" -> k <> "dpr" ->
          assoc k firsts = fst <$> assoc k (parse_qs (query p)))
    /\ map fst firsts
       = let keys := map fst (parse_qs (query p)) in
         let keys := if bool_decide ("width" ∈ keys) then keys
                     else keys ++ ["width"] in
         if bool_decide ("dpr" ∈ keys) then keys else keys ++ ["dpr"].
Proof.
  intros Hhost Hp Hs. unfold upgrade_guardian_url.
  rewrite Hhost, Hp, Hs. cbn [negb]. cbv zeta.
  eexists. split; [reflexivity|].
  rewrite !assoc_map, keys_map, !dict_set_keys.
  split; [|split; [|split]].
  - rewrite (dict_set_other _ "dpr" _ "width") by (intros [=]).
    by rewrite dict_set_same.
  - by rewrite dict_set_same.
  - intros k Hw Hd. rewrite assoc_map.
    by rewrite (dict_set_other _ "dpr" _ k), (dict_set_other _ "width" _ k).
  - reflexivity.
Qed.

End GuardianRewrite.

(** The theorem on an address with a quality and a width. *)
Lemma upgrade_guardian_url_unsigned_witness :
  exists firsts,
    @Guardian.upgrade_guardian_url Plain.lib
      "https://i.guim.co.uk/img/media/a.jpg?quality=85&width=300" 2000
    = Ok (@urlunparse Plain.lib
            (Parsed "https" "i.guim.co.uk" "/img/media/a.jpg" EmptyString
               (@urlencode Plain.lib firsts) EmptyString))
    /\ assoc "width" firsts = Some "2000"
    /\ assoc "dpr" firsts = Some "2"
    /\ map fst firsts = ["quality"; "width"; "dpr"].
Proof.
  destruct (@upgrade_guardian_url_unsigned Plain.lib
    "https://i.guim.co.uk/img/media/a.jpg?quality=85&width=300" 2000
    (Parsed "https" "i.guim.co.uk" "/img/media/a.jpg" EmptyString
       "quality=85&width=300" EmptyString) eq_refl eq_refl eq_refl)
    as (firsts & Hup & Hw & Hd & _ & Hkeys).
  exists firsts. split; [exact Hup|]. split; [exact Hw|].
  split; [exact Hd | exact Hkeys].
Defined.

End Rewrite.

(** * Further properties: the patterns of the Guardian script *)

Module Patterns.
Import Py Lib Re PyFacts Srcsets.

Lemma after_prefix_sound p : forall s r,
  after_prefix s p = Some r -> s = p +:+ r.
Proof.
  induction p as [|a p IH]; intros s r; cbn [after_prefix].
  - by intros [= ->].
  - destruct s as [|b s]; [discriminate|].
    destruct (Ascii.eqb a b) eqn:E; [|discriminate].
    apply Ascii.eqb_eq in E as ->. intros Hr. rewrite app_cons.
    f_equal. by apply IH.
Qed.

Lemma span_sound f s : forall a b,
  span f s = (a, b) -> s = a +:+ b /\ all_chars f a = true.
Proof.
  induction s as [|c s IH]; intros a b; cbn [span].
  - by intros [= <- <-].
  - destruct (f c) eqn:Hc; [|by intros [= <- <-]].
    destruct (span f s) as [a' b']. intros [= <- <-].
    destruct (IH a' b' eq_refl) as [-> Ha]. split; [reflexivity|].
    cbn [all_chars]. by rewrite Hc, Ha.
Qed.

Lemma unsnoc_sound s : forall a l,
  unsnoc s = Some (a, l) ->
  s = a +:+ String l EmptyString /\ (forall f, all_chars f s = true ->
                                        all_chars f a = true).
Proof.
  induction s as [|c s IH]; intros a l; cbn [unsnoc]; [discriminate|].
  destruct s as [|c' s'].
  - intros [= <- <-]. split; [reflexivity | reflexivity].
  - destruct (unsnoc (String c' s')) as [[a' l']|]; [|discriminate].
    cbn. intros [= <- <-]. destruct (IH a' l' eq_refl) as [Hs Hf].
    split; [rewrite Hs; reflexivity|].
    intros f Hall. cbn [all_chars] in Hall |- *.
    apply andb_true_iff in Hall as [-> Hall]. by apply Hf.
Qed.

Lemma next_is_sound c s :
  next_is (Ascii.eqb c) s = true -> exists r, s = String c r.
Proof.
  destruct s as [|b s]; [discriminate|]. cbn [next_is].
  intros E. apply Ascii.eqb_eq in E as ->. eauto.
Qed.

(** An opening of the style pattern: nothing, or one of the two quote
    characters. *)
Definition opening (q : string) : Prop :=
  q = EmptyString \/ q = String quote_dbl EmptyString
  \/ q = String quote_sgl EmptyString.

(** [g] is an address of the image host between [url(] and [)] at the
    start of [s], between two quotes of the same kind or none. *)
Definition style_occurrence (s g post : string) : Prop :=
  exists q sch run,
    s = "url(" +:+ q +:+ g +:+ q +:+ ")" +:+ post
    /\ g = sch +:+ "://i.guim.co.uk/" +:+ run
    /\ opening q
    /\ (sch = "http" \/ sch = "https")
    /\ nonempty run = true
    /\ all_chars (fun c => negb (Ascii.eqb c ")")) run = true.

Lemma style_at_sound s g :
  style_at s = Some g -> exists post, style_occurrence s g post.
Proof.
  unfold style_at.
  destruct (after_prefix s "url(") as [r|] eqn:H0; [|discriminate].
  apply after_prefix_sound in H0. cbn [mbind option_bind].
  set (qr := match r with
             | String c r' => if isquote c then (Some c, r') else (None, r)
             | EmptyString => (None, r)
             end).
  assert (Hq : r = match qr.1 with
                   | Some c => String c qr.2
                   | None => qr.2
                   end
               /\ match qr.1 with
                  | Some c => isquote c = true
                  | None => True
                  end).
  { subst qr. destruct r as [|c r']; [by split|].
    destruct (isquote c) eqn:Hc; by split. }
  destruct qr as [q r1]. cbn [fst snd] in Hq. destruct Hq as [Hr Hq].
  destruct (after_prefix r1 "http") as [r2|] eqn:H1; [|discriminate].
  apply after_prefix_sound in H1. cbn [mbind option_bind].
  set (sr := match r2 with
             | String "s" r' => ("https", r')
             | _ => ("http", r2)
             end).
  assert (Hsch : "http" +:+ r2 = sr.1 +:+ sr.2
                 /\ (sr.1 = "http" \/ sr.1 = "https")).
  { subst sr. destruct r2 as [|c r']; [split; [reflexivity | by left]|].
    destruct (ascii_dec c "s") as [->|Hc]; [split; [reflexivity | by right]|].
    destruct c as [[] [] [] [] [] [] [] []];
      (split; [reflexivity | by left]). }
  destruct sr as [sch r3]. cbn [fst snd] in Hsch. destruct Hsch as [Hr2 Hsch].
  destruct (after_prefix r3 "://i.guim.co.uk/") as [r4|] eqn:H2;
    [|discriminate].
  apply after_prefix_sound in H2. cbn [mbind option_bind].
  destruct (span (fun c => negb (Ascii.eqb c ")")) r4) as [run r5] eqn:H3.
  apply span_sound in H3 as [H3 Hrun].
  destruct (next_is (Ascii.eqb ")") r5) eqn:H4; [|discriminate].
  apply next_is_sound in H4 as [post H4].
  assert (Hs : forall run' tail,
            run = run' +:+ tail ->
            s = "url(" +:+ match q with
                           | Some c => String c EmptyString
                           | None => EmptyString
                           end
                  +:+ (sch +:+ "://i.guim.co.uk/" +:+ run')
                  +:+ tail +:+ ")" +:+ post).
  { intros run' tail Hrun'. rewrite H0, Hr. f_equal.
    assert (r1 = (sch +:+ "://i.guim.co.uk/" +:+ run') +:+ tail +:+ ")" +:+ post)
      as ->.
    { rewrite H1, Hr2, H2, H3, H4, Hrun'.
      change (String ")" post) with (")" +:+ post).
      by rewrite !app_assoc_s. }
    destruct q; reflexivity. }
  destruct q as [qc|].
  - destruct (unsnoc run) as [[g' l]|] eqn:H5; [|discriminate].
    cbn [mbind option_bind]. apply unsnoc_sound in H5 as [H5 Hg'].
    destruct (Ascii.eqb l qc && nonempty g') eqn:H6; [|discriminate].
    apply andb_true_iff in H6 as [Hl Hne]. apply Ascii.eqb_eq in Hl as ->.
    intros [= <-]. exists post, (String qc EmptyString), sch, g'.
    split; [apply (Hs g' (String qc EmptyString) H5)|].
    split; [reflexivity|]. split.
    { unfold isquote in Hq. apply orb_true_iff in Hq as [Hq|Hq];
        apply Ascii.eqb_eq in Hq as ->; [right; by left | right; by right]. }
    split; [exact Hsch|]. split; [exact Hne | by apply Hg'].
  - destruct (nonempty run) eqn:Hne; [|discriminate].
    intros [= <-]. exists post, EmptyString, sch, run.
    split; [apply (Hs run EmptyString); by rewrite app_empty_r|].
    split; [reflexivity|]. split; [by left|]. auto.
Qed.

(** X24.  What the style block of the Guardian parser takes from a
    [style] attribute is an address that stands in the text between
    [url(] and [)], bare or between two quotes of the same kind; it
    starts with [http://i.guim.co.uk/] or [https://i.guim.co.uk/], has
    something after the slash and holds no closing bracket. *)
Theorem style_search_occurrence (style g : string) :
  style_search style = Some g ->
  exists pre post s,
    style = pre +:+ s /\ style_occurrence s g post.
Proof.
  induction style as [|c style IH]; cbn [style_search].
  - destruct (style_at EmptyString) as [g'|] eqn:E; [|discriminate].
    intros [= <-]. apply style_at_sound in E as [post E].
    exists EmptyString, post, EmptyString. split; [reflexivity | exact E].
  - destruct (style_at (String c style)) as [g'|] eqn:E.
    + intros [= <-]. apply style_at_sound in E as [post E].
      exists EmptyString, post, (String c style). split; [reflexivity | exact E].
    + intros Hg. destruct (IH Hg) as (pre & post & s & -> & Hocc).
      exists (String c pre), post, s. split; [reflexivity | exact Hocc].
Qed.

Lemma rev_app_app s : forall acc,
  String.rev_app s acc = String.rev s +:+ acc.
Proof.
  unfold String.rev.
  induction s as [|c s IH]; intros acc; cbn [String.rev_app]; [reflexivity|].
  rewrite (IH (String c acc)), (IH (String c EmptyString)), app_assoc_s.
  reflexivity.
Qed.

Lemma rev_append a b : String.rev (a +:+ b) = String.rev b +:+ String.rev a.
Proof.
  induction a as [|c a IH].
  - change (EmptyString +:+ b) with b. by rewrite app_empty_r.
  - rewrite app_cons. unfold String.rev at 1 3. cbn [String.rev_app].
    rewrite !rev_app_app, IH, app_assoc_s. reflexivity.
Qed.

Lemma rev_rev s : String.rev (String.rev s) = s.
Proof.
  induction s as [|c s IH]; [reflexivity|].
  unfold String.rev at 2. cbn [String.rev_app].
  rewrite rev_app_app, rev_append, IH. reflexivity.
Qed.

Lemma startswith_iff p : forall s,
  startswith s p = true <-> exists r, s = p +:+ r.
Proof.
  induction p as [|a p IH]; intros s; cbn [startswith].
  - split; [eauto | reflexivity].
  - destruct s as [|b s]; [split; [discriminate | intros [r [=]]]|].
    rewrite andb_true_iff, IH. split.
    + intros [E [r ->]]. apply Ascii.eqb_eq in E as ->. eauto.
    + intros [r Hr]. rewrite app_cons in Hr. injection Hr as -> ->.
      split; [apply Ascii.eqb_refl | eauto].
Qed.

(** [endswith] holds exactly of the texts that end with [p]. *)
Lemma endswith_iff s p : endswith s p = true <-> exists pre, s = pre +:+ p.
Proof.
  unfold endswith. rewrite startswith_iff. split.
  - intros [r Hr]. exists (String.rev r).
    rewrite <- (rev_rev s), Hr, rev_append, rev_rev. reflexivity.
  - intros [pre ->]. exists (String.rev pre). apply rev_append.
Qed.

Section HostFilter.
Context `{PyLib}.

(** X25.  [keep_guardian_cdn] accepts an address exactly when it
    parses and its host, in lower case, ends with the text
    [i.guim.co.uk]; whatever stands before that text, a dot or not, is
    accepted, and an address that does not parse is rejected without
    an exception. *)
Theorem keep_guardian_cdn_suffix (u : string) :
  Guardian.keep_guardian_cdn u = true
  <-> exists p pre,
        urlparse u = Some p /\ lower (netloc p) = pre +:+ "i.guim.co.uk".
Proof.
  unfold Guardian.keep_guardian_cdn. destruct (urlparse u) as [p|].
  - rewrite endswith_iff. split.
    + intros [pre Hpre]. eauto.
    + intros (p' & pre & [= <-] & Hpre). eauto.
  - split; [discriminate | intros (p & pre & [=] & _)].
Qed.

End HostFilter.

(** The theorem on a text with a quoted address. *)
Lemma style_search_occurrence_witness :
  exists pre post s,
    "background-image: url('https://i.guim.co.uk/img/a.jpg?width=300'); top: 0"
    = pre +:+ s
    /\ style_occurrence s "https://i.guim.co.uk/img/a.jpg?width=300" post.
Proof.
  exact (style_search_occurrence
    "background-image: url('https://i.guim.co.uk/img/a.jpg?width=300'); top: 0"
    "https://i.guim.co.uk/img/a.jpg?width=300" eq_refl).
Defined.

End Patterns.

